(** * PoseLab: pose math, result normalisation and pipeline orchestration

    A shallow embedding of the Python sources of the PoseLab gateways
    ([GigaPose/websocket.py], [MegaPose/websocket_server.py],
    [OVE6D/websocket_server.py]), of the intrinsics reader
    ([OVE6D/convert_to_bopm.py], [FoundationPose/pipeline.py]) and of the
    pipeline drivers ([GigaPose/pipeline.py], [FoundationPose/pipeline.py]).

    Conventions of the embedding:
    - Python and numpy floating-point numbers are modelled by the real
      numbers [R]: arithmetic is exact, and there are no NaN or infinite
      values.  The model follows the code up to rounding as long as no
      intermediate result underflows to zero or overflows; where a
      function divides, its definition says on which inputs that holds.
      The one conversion to single precision whose result a gateway sends
      as it is, in the OVE6D gateway, is the function [float32] of the
      machine.
    - A Python [str] is a [string] whose characters are the code points
      below 256.
    - A Python call that may raise returns a [result]: [Ok v] for a normal
      return, [Raise e] for an exception that leaves the function.
    - Files and sub-processes are inputs of the functions that use them;
      wall-clock times are not modelled. *)

From Stdlib Require Import Reals Lra Psatz RNsatz.
From Stdlib Require Import List String Ascii Bool ZArith QArith Qabs Qpower Qfield Qreals.
Import ListNotations.

Set Implicit Arguments.
Set Warnings "-register-all".

(** ** Python exceptions and results *)

Inductive exn : Type :=
| ValueError
| KeyError
| IndexError
| TypeError
| AttributeError
| NameError
| OSError
| ZeroDivisionError
| JSONDecodeError
| CalledProcessError.

Inductive result (A : Type) : Type :=
| Ok (a : A)
| Raise (e : exn).

Arguments Ok {A} a.
Arguments Raise {A} e.

Definition bind {A B : Type} (r : result A) (k : A -> result B) : result B :=
  match r with
  | Ok a => k a
  | Raise e => Raise e
  end.

Notation "'do' x <- r ; k" := (bind r (fun x => k))
  (at level 10, x name, r at level 100, k at level 200).

Fixpoint mapM {A B : Type} (f : A -> result B) (l : list A) : result (list B) :=
  match l with
  | [] => Ok []
  | a :: t => do b <- f a; do bs <- mapM f t; Ok (b :: bs)
  end.

(** ** Pose math (real-number model) *)

Module PoseMath.

Local Open Scope R_scope.

(** A 3x3 numpy array, [mIJ] being [M[I,J]]. *)
Record mat3 : Type := Mat3 {
  m00 : R; m01 : R; m02 : R;
  m10 : R; m11 : R; m12 : R;
  m20 : R; m21 : R; m22 : R
}.

(** [M.flatten().tolist()]: the nine entries in row-major order. *)
Definition flatten (M : mat3) : list R :=
  [ m00 M; m01 M; m02 M;
    m10 M; m11 M; m12 M;
    m20 M; m21 M; m22 M ].

(** Python's [a > b] on numbers, as a boolean. *)
Definition Rgtb (a b : R) : bool := if Rgt_dec a b then true else false.

(** [rotation_matrix_to_quaternion] (GigaPose/websocket.py, lines 59-93; the
    same text in the MegaPose and OVE6D gateways).  The result is the array
    [[x, y, z, w]].  numpy arithmetic does not raise: where the source
    yields nan or inf (a negative radicand, a zero divisor) the model has
    the values of the total [sqrt] and [/] of the real numbers; neither
    happens when the trace is positive or the matrix is a rotation. *)
Definition rotation_matrix_to_quaternion (M : mat3) : list R :=
  let trace := m00 M + m11 M + m22 M in
  if Rgtb trace 0 then
    let s := 0.5 / sqrt (trace + 1.0) in
    let w := 0.25 / s in
    let x := (m21 M - m12 M) * s in
    let y := (m02 M - m20 M) * s in
    let z := (m10 M - m01 M) * s in
    [x; y; z; w]
  else
    if Rgtb (m00 M) (m11 M) && Rgtb (m00 M) (m22 M) then
      let s := 2.0 * sqrt (1.0 + m00 M - m11 M - m22 M) in
      let w := (m21 M - m12 M) / s in
      let x := 0.25 * s in
      let y := (m01 M + m10 M) / s in
      let z := (m02 M + m20 M) / s in
      [x; y; z; w]
    else if Rgtb (m11 M) (m22 M) then
      let s := 2.0 * sqrt (1.0 + m11 M - m00 M - m22 M) in
      let w := (m02 M - m20 M) / s in
      let x := (m01 M + m10 M) / s in
      let y := 0.25 * s in
      let z := (m12 M + m21 M) / s in
      [x; y; z; w]
    else
      let s := 2.0 * sqrt (1.0 + m22 M - m00 M - m11 M) in
      let w := (m10 M - m01 M) / s in
      let x := (m02 M + m20 M) / s in
      let y := (m12 M + m21 M) / s in
      let z := 0.25 * s in
      [x; y; z; w].

(** Python's [a / b] on floats: division by zero raises.  The divisor of
    the model is the real number; a float divisor is also zero when the
    computation that led to it has underflowed (see [norm_in_range]). *)
Definition py_div (a b : R) : result R :=
  if Req_dec_T b 0 then Raise ZeroDivisionError else Ok (a / b).

(** [quat_to_rotm] (MegaPose/websocket_server.py, lines 80-94; the same text
    in OVE6D/display_result.py).  [x,y,z,w = q] raises [ValueError] unless
    [q] has exactly four items; the result is the list of nine floats in
    row-major order. *)
Definition quat_to_rotm (q : list R) : result (list R) :=
  match q with
  | [x; y; z; w] =>
      let n := sqrt (x*x + y*y + z*z + w*w) in
      do x <- py_div x n;
      do y <- py_div y n;
      do z <- py_div z n;
      do w <- py_div w n;
      let xx := x*x in let yy := y*y in let zz := z*z in
      let xy := x*y in let xz := x*z in let yz := y*z in
      let wx := w*x in let wy := w*y in let wz := w*z in
      Ok [ 1 - 2*(yy+zz);   2*(xy - wz);     2*(xz + wy);
           2*(xy + wz);     1 - 2*(xx+zz);   2*(yz - wx);
           2*(xz - wy);     2*(yz + wx);     1 - 2*(xx+yy) ]
  | _ => Raise ValueError
  end.

(** The quaternions on which the floating-point [quat_to_rotm] follows
    the real numbers: the norm lies between 2^-500 and 2^500, so the sum
    of the four squares, between 2^-1000 and 2^1000, is a normal double,
    and so are its square root and the quotients.  Below that range the
    sum of the squares can round to [0.0] although the quaternion is not
    zero, and the code then raises [ZeroDivisionError]; above it the sum
    can overflow to [inf].  Of the quaternions outside the range only the
    zero quaternion behaves in the code as it does in the model. *)
Definition norm_in_range (x y z w : R) : Prop :=
  / 2 ^ 500 <= sqrt (x*x + y*y + z*z + w*w) <= 2 ^ 500.

(** [axis_angle_rotmat] (OVE6D/display_result.py, lines 30-39);
    [np.deg2rad] multiplies by pi/180. *)
Definition axis_angle_rotmat (axis : string) (angle_deg : R) : result mat3 :=
  let theta := angle_deg * (PI / 180) in
  let c := cos theta in
  let s := sin theta in
  if String.eqb axis "x" then
    Ok (Mat3 1 0 0  0 c (- s)  0 s c)
  else if String.eqb axis "y" then
    Ok (Mat3 c 0 s  0 1 0  (- s) 0 c)
  else if String.eqb axis "z" then
    Ok (Mat3 c (- s) 0  s c 0  0 0 1)
  else Raise ValueError.

(** A valid rotation matrix: orthonormal rows and determinant one. *)
Definition det (M : mat3) : R :=
  m00 M * (m11 M * m22 M - m12 M * m21 M)
  - m01 M * (m10 M * m22 M - m12 M * m20 M)
  + m02 M * (m10 M * m21 M - m11 M * m20 M).

Record is_rotation (M : mat3) : Prop := IsRotation {
  row0_unit : m00 M * m00 M + m01 M * m01 M + m02 M * m02 M = 1;
  row1_unit : m10 M * m10 M + m11 M * m11 M + m12 M * m12 M = 1;
  row2_unit : m20 M * m20 M + m21 M * m21 M + m22 M * m22 M = 1;
  row01_orth : m00 M * m10 M + m01 M * m11 M + m02 M * m12 M = 0;
  row02_orth : m00 M * m20 M + m01 M * m21 M + m02 M * m22 M = 0;
  row12_orth : m10 M * m20 M + m11 M * m21 M + m12 M * m22 M = 0;
  det_one : det M = 1
}.

End PoseMath.

(** ** Python strings *)

Module PyStr.

Local Open Scope string_scope.

(** [c.isspace()], which is also what [str.split()] splits at and what
    [str.strip()], [float] and [int] strip: among the code points below
    256 these are the tab, the line feed, the vertical tab, the form feed,
    the carriage return, the four separators 28-31, the space, the next
    line (133) and the no-break space (160). *)
Definition isspace (c : ascii) : bool :=
  let n := nat_of_ascii c in
  ((9 <=? n) && (n <=? 13) || (28 <=? n) && (n <=? 31) || (n =? 32)
   || (n =? 133) || (n =? 160))%nat.

Definition is_empty (s : string) : bool :=
  match s with EmptyString => true | String _ _ => false end.

(** [s.split()]: the maximal runs of characters that are not white space.
    [tok] is the run being read. *)
Fixpoint split_from (tok s : string) : list string :=
  match s with
  | EmptyString => if is_empty tok then [] else [tok]
  | String c rest =>
      if isspace c then
        if is_empty tok then split_from "" rest
        else tok :: split_from "" rest
      else split_from (tok ++ String c "") rest
  end.

Definition split (s : string) : list string := split_from "" s.

(** [s.replace(old, new)] for one-character [old] and [new]. *)
Fixpoint replace (old new : ascii) (s : string) : string :=
  match s with
  | EmptyString => EmptyString
  | String c rest =>
      String (if Ascii.eqb c old then new else c) (replace old new rest)
  end.

(** [sep.join(l)]. *)
Fixpoint join (sep : string) (l : list string) : string :=
  match l with
  | [] => ""
  | [a] => a
  | a :: t => a ++ sep ++ join sep t
  end.

(** [s.startswith(p)]. *)
Definition startswith (p s : string) : bool := String.prefix p s.

(** [s.endswith("/")]. *)
Fixpoint ends_with_slash (s : string) : bool :=
  match s with
  | EmptyString => false
  | String c EmptyString => Ascii.eqb c "/"
  | String _ rest => ends_with_slash rest
  end.

(** [posixpath.join]: a component that starts with a slash discards what
    came before it, and a slash is put between two components unless the
    path so far is empty or ends with one. *)
Definition join_path (path b : string) : string :=
  if startswith "/" b then b
  else if is_empty path || ends_with_slash path then path ++ b
  else path ++ "/" ++ b.

Definition path_join (parts : list string) : string :=
  match parts with
  | [] => ""
  | a :: p => fold_left join_path p a
  end.

(** [s.lstrip()], [s.rstrip()] and [s.strip()]. *)
Fixpoint lstrip (s : string) : string :=
  match s with
  | EmptyString => EmptyString
  | String c rest => if isspace c then lstrip rest else s
  end.

Fixpoint rstrip (s : string) : string :=
  match s with
  | EmptyString => EmptyString
  | String c rest =>
      let rest' := rstrip rest in
      if isspace c && is_empty rest' then EmptyString else String c rest'
  end.

Definition strip (s : string) : string := rstrip (lstrip s).

(** *** Decimal float literals

    [float(s)] on the finite literals: white space around, and between it
    [[+-] digits [. [digits]] [(e|E) [+-] digits]] or
    [[+-] . digits [(e|E) [+-] digits]], where one underscore may stand
    between two digits; the result is the exact rational value ([float]
    rounds it to a double, and reads a literal beyond the range of the
    doubles as an infinity).  [None] stands for [ValueError].

    Python's [float] also reads [inf], [infinity] and [nan], with a sign
    and in any case, as floats that are no numbers.  The model has no such
    values: [py_float] gives [None] for them as well, and no theorem below
    says what a reader does with a text that holds one of these words. *)

Definition digit_of (c : ascii) : option Z :=
  let n := nat_of_ascii c in
  if ((48 <=? n) && (n <=? 57))%nat then Some (Z.of_nat (n - 48)) else None.

(** Reads the longest prefix of digits: the number read so far, how many
    digits were read, and the rest of the string. *)
Fixpoint read_digits (acc : Z) (count : nat) (s : string) : Z * nat * string :=
  match s with
  | EmptyString => (acc, count, s)
  | String c rest =>
      match digit_of c with
      | Some d => read_digits (10 * acc + d) (S count) rest
      | None => (acc, count, s)
      end
  end.

(** Reads the longest prefix of digits in which an underscore stands
    between two digits only: an underscore is passed when a digit was read
    before it and a digit follows it. *)
Fixpoint read_digitpart (acc : Z) (count : nat) (s : string) : Z * nat * string :=
  match s with
  | EmptyString => (acc, count, s)
  | String c rest =>
      match digit_of c with
      | Some d => read_digitpart (10 * acc + d) (S count) rest
      | None =>
          if Ascii.eqb c "_" && (0 <? count)%nat then
            match rest with
            | String c' _ =>
                match digit_of c' with
                | Some _ => read_digitpart acc count rest
                | None => (acc, count, s)
                end
            | EmptyString => (acc, count, s)
            end
          else (acc, count, s)
      end
  end.

(** Reads an optional sign: [true] for a minus sign. *)
Definition read_sign (s : string) : bool * string :=
  match s with
  | String "-" rest => (true, rest)
  | String "+" rest => (false, rest)
  | _ => (false, s)
  end.

(** The exponent part: empty, or [e]/[E], an optional sign and at least one
    digit, up to the end of the string. *)
Definition read_exponent (s : string) : option Z :=
  match s with
  | EmptyString => Some 0%Z
  | String c rest =>
      if (Ascii.eqb c "e" || Ascii.eqb c "E")%bool then
        let '(neg, rest1) := read_sign rest in
        let '(e, count, rest2) := read_digitpart 0 0 rest1 in
        match count, rest2 with
        | S _, EmptyString => Some (if neg then (- e)%Z else e)
        | _, _ => None
        end
      else None
  end.

Definition pow10 (e : Z) : Q := Qpower (10 # 1) e.

Definition py_float (s : string) : option Q :=
  let '(neg, s1) := read_sign (strip s) in
  let '(ip, icount, s2) := read_digitpart 0 0 s1 in
  let '(fp, fcount, s3) :=
    match s2 with
    | String "." rest => read_digitpart ip 0 rest
    | _ => (ip, 0%nat, s2)
    end in
  match (icount + fcount)%nat with
  | O => None
  | S _ =>
      match read_exponent s3 with
      | Some e =>
          let m := if neg then (- fp)%Z else fp in
          Some (Qred (inject_Z m * pow10 (e - Z.of_nat fcount)))
      | None => None
      end
  end.

End PyStr.

(** ** Intrinsics reader *)

Module Intrinsics.

(** [np.array(vals, dtype=float)]: every string is converted, the first one
    that is not a float literal raises [ValueError]. *)
Definition np_array_float (vals : list string) : result (list Q) :=
  mapM (fun v => match PyStr.py_float v with
                 | Some q => Ok q
                 | None => Raise ValueError
                 end) vals.

(** [a.reshape(3, 3)]: [ValueError] unless the array has nine items. *)
Definition reshape_3_3 (a : list Q) : result (list (list Q)) :=
  match a with
  | [a0; a1; a2; a3; a4; a5; a6; a7; a8] =>
      Ok [[a0; a1; a2]; [a3; a4; a5]; [a6; a7; a8]]
  | _ => Raise ValueError
  end.

(** [read_intrinsics_txt] (OVE6D/convert_to_bopm.py, lines 14-19; the same
    text in FoundationPose/pipeline.py, lines 49-54).  [file] is the text
    of the file at [path], [None] when it cannot be opened. *)
Definition read_intrinsics_txt (file : option string) : result (list (list Q)) :=
  match file with
  | None => Raise OSError
  | Some text =>
      let tokens := PyStr.split text in
      let vals := map (PyStr.replace "," ".") tokens in
      do K <- np_array_float vals;
      reshape_3_3 K
  end.

End Intrinsics.

(** ** JSON values and the reply of a gateway *)

(** The values [json.load] produces and [json.dumps] writes; a number is
    an [int] or a [float], an object is a [dict] given by its items. *)
Inductive json : Type :=
| JNull
| JBool (b : bool)
| JNum (r : R)
| JStr (s : string)
| JArr (items : list json)
| JObj (fields : list (string * json)).

Module Py.

Local Open Scope R_scope.

(** [d.get(key)] on a [dict]: [None] when the key is absent. *)
Fixpoint dict_get {A : Type} (fields : list (string * A)) (key : string) : option A :=
  match fields with
  | [] => None
  | (k, v) :: rest => if String.eqb k key then Some v else dict_get rest key
  end.

(** [d[key]] on a [dict]. *)
Definition dict_item {A : Type} (fields : list (string * A)) (key : string) : result A :=
  match dict_get fields key with
  | Some v => Ok v
  | None => Raise KeyError
  end.

(** The characters of a string, each as a one-character string. *)
Fixpoint chars (s : string) : list json :=
  match s with
  | EmptyString => []
  | String c rest => JStr (String c EmptyString) :: chars rest
  end.

(** [iter(v)]: the items of a list, the keys of a dict, the characters of
    a string; other values are not iterable. *)
Definition iter (v : json) : result (list json) :=
  match v with
  | JArr items => Ok items
  | JObj fields => Ok (map (fun kv => JStr (fst kv)) fields)
  | JStr s => Ok (chars s)
  | _ => Raise TypeError
  end.

(** [len(v)]. *)
Definition len (v : json) : result nat :=
  match v with
  | JArr items => Ok (List.length items)
  | JObj fields => Ok (List.length fields)
  | JStr s => Ok (String.length s)
  | _ => Raise TypeError
  end.

(** [v[i]] for a non-negative integer [i]. *)
Definition item (v : json) (i : nat) : result json :=
  match v with
  | JArr items =>
      match nth_error items i with Some x => Ok x | None => Raise IndexError end
  | JStr s =>
      match nth_error (chars s) i with Some x => Ok x | None => Raise IndexError end
  | JObj _ => Raise KeyError
  | _ => Raise TypeError
  end.

(** [v == s] for a string [s]. *)
Definition eq_str (v : option json) (s : string) : bool :=
  match v with
  | Some (JStr t) => String.eqb t s
  | _ => false
  end.

Fixpoint repeat_string (s : string) (n : nat) : string :=
  match n with
  | O => EmptyString
  | S k => (s ++ repeat_string s k)%string
  end.

(** [x * 1000]: a product for numbers (a [bool] counts as 0 or 1), a
    repetition for strings and lists, a [TypeError] otherwise. *)
Definition times_1000 (x : json) : result json :=
  match x with
  | JNum r => Ok (JNum (r * 1000))
  | JBool b => Ok (JNum (if b then 1000 else 0))
  | JStr s => Ok (JStr (repeat_string s 1000))
  | JArr items => Ok (JArr (List.concat (repeat items 1000)))
  | _ => Raise TypeError
  end.

(** The operand of float arithmetic: numbers and booleans. *)
Definition number (x : json) : result R :=
  match x with
  | JNum r => Ok r
  | JBool b => Ok (if b then 1 else 0)
  | _ => Raise TypeError
  end.

End Py.

(** The dict a gateway sends back, [{"position": ..., "rotation": ...}]. *)
Record reply : Type := Reply {
  position : list json;
  rotation : list json
}.

Definition nums (l : list R) : list json := map JNum l.

(** The literal [{"position": [0,0,0], "rotation": [0,0,0,1]}]: the origin
    and the identity quaternion in (x, y, z, w) order. *)
Definition fallback_pose : reply :=
  Reply (nums [0; 0; 0]%R) (nums [0; 0; 0; 1]%R).

(** ** What a gateway sees of the machine *)

(** [subprocess_run cmd] is the exit status of the child process, or the
    exception raised when it cannot be started; [isfile] is
    [os.path.isfile]; [float32 x] is the float that
    [np.array([x], dtype=np.float32).tolist()] holds, the number of single
    precision nearest to [x] (for [x] beyond the range of single precision
    numpy gives an infinity, which the model does not have).  The model
    does not say which number that is: it keeps the conversion as a
    function of the machine. *)
Record machine : Type := Machine {
  sys_executable : string;
  subprocess_run : list string -> result Z;
  isfile : string -> bool;
  float32 : R -> R
}.

(** [subprocess.run(cmd, check=True)].  An argument that is [None] makes
    the call raise [TypeError]; a non-zero exit status raises
    [CalledProcessError]. *)
Definition all_strings (cmd : list (option string)) : option (list string) :=
  fold_right (fun a acc => match a, acc with
                           | Some s, Some l => Some (s :: l)
                           | _, _ => None
                           end) (Some []) cmd.

Definition run_checked (m : machine) (cmd : list (option string)) : result unit :=
  match all_strings cmd with
  | None => Raise TypeError
  | Some args =>
      do rc <- subprocess_run m args;
      if (rc =? 0)%Z then Ok tt else Raise CalledProcessError
  end.

Definition PIPELINE_SCRIPT : string := "pipeline.py".

(** ** GigaPose gateway (GigaPose/websocket.py) *)

Module GigaPose.

Import PoseMath.
Local Open Scope string_scope.

(** One 4x4 pose matrix of the predictions, [pIJ] being [M[I,J]]. *)
Record mat4 : Type := Mat4 {
  p00 : R; p01 : R; p02 : R; p03 : R;
  p10 : R; p11 : R; p12 : R; p13 : R;
  p20 : R; p21 : R; p22 : R; p23 : R;
  p30 : R; p31 : R; p32 : R; p33 : R
}.

(** The arrays of a predictions archive: [data["poses"]] of shape
    (B, N, 4, 4) and [data["scores"]] of shape (B, N); [None] for an array
    the archive does not hold. *)
Record npz : Type := Npz {
  poses : option (list (list mat4));
  scores : option (list (list R))
}.

Record world : Type := World {
  host : machine;
  np_load : string -> result npz
}.

(** [data[name]] and [a[0]]. *)
Definition array {A : Type} (a : option A) : result A :=
  match a with Some x => Ok x | None => Raise KeyError end.

Definition index {A : Type} (l : list A) (i : nat) : result A :=
  match nth_error l i with Some x => Ok x | None => Raise IndexError end.

(** [np.argmax]: the first index that holds the maximum; [best] is the
    index of the maximum [best_val] of the items before index [i]. *)
Fixpoint argmax_from (best : nat) (best_val : R) (i : nat) (l : list R) : nat :=
  match l with
  | [] => best
  | x :: rest =>
      if Rgtb x best_val then argmax_from i x (S i) rest
      else argmax_from best best_val (S i) rest
  end.

Definition argmax (l : list R) : result nat :=
  match l with
  | [] => Raise ValueError
  | x :: rest => Ok (argmax_from 0 x 1 rest)
  end.

(** [best_mat[:3, 3]] and [best_mat[:3, :3]]. *)
Definition translation (M : mat4) : list R := [p03 M; p13 M; p23 M].

Definition rotation_part (M : mat4) : mat3 :=
  Mat3 (p00 M) (p01 M) (p02 M)
       (p10 M) (p11 M) (p12 M)
       (p20 M) (p21 M) (p22 M).

Definition pipeline_cmd (exe input_dir image_id : string)
    (object_type scene_name : option string) : list (option string) :=
  [ Some exe; Some PIPELINE_SCRIPT;
    Some "--input_dir";       Some input_dir;
    Some "--bopm_output";     Some "lmo";
    Some "--cad_ply";         Some "./gigaPose_datasets/datasets/lmo/models/obj_000001.ply";
    Some "--checkpoint";      Some "sam_vit_h.pth";
    Some "--default_detect_dest";
    Some "./gigaPose_datasets/datasets/default_detections/core19_model_based_unseen/cnos-fastsam";
    Some "--run_id";          Some image_id;
    Some "--test_dataset";    Some "lmo";
    Some "--reuse_templates";
    Some "--object_type";     object_type;
    Some "--raw_cache";       Some "../SharedData/ObjectModelsM";
    Some "--scene_name";      scene_name ].

Definition npz_path (image_id : string) : string :=
  PyStr.path_join ["gigaPose_datasets"; "results"; "large_" ++ image_id;
                   "predictions"; "0.npz"].

(** [estimate_pose] (lines 95-161).  In the handler of any exception other
    than [CalledProcessError] the name [ws] is not bound, so that handler
    itself raises [NameError]. *)
Definition estimate_pose (w : world) (img_folder image_id : string)
    (object_type scene_name : option string) : result reply :=
  let input_dir := PyStr.path_join ["."; img_folder] in
  let cmd := pipeline_cmd (sys_executable (host w)) input_dir image_id
               object_type scene_name in
  match run_checked (host w) cmd with
  | Raise CalledProcessError => Ok fallback_pose
  | Raise _ => Raise NameError
  | Ok _ =>
      if negb (isfile (host w) (npz_path image_id)) then Ok fallback_pose
      else
        do data <- np_load w (npz_path image_id);
        do all_poses <- array (poses data);
        do poses <- index all_poses 0;
        do all_scores <- array (scores data);
        do scores <- index all_scores 0;
        do best_idx <- argmax scores;
        do best_mat <- index poses best_idx;
        let t := translation best_mat in
        let R := rotation_part best_mat in
        Ok (Reply (nums t) (nums (flatten R)))
  end.

End GigaPose.

(** ** MegaPose gateway (MegaPose/websocket_server.py) *)

Module MegaPose.

Local Open Scope string_scope.

Record world : Type := World {
  host : machine;
  json_load : string -> result json
}.

(** [quat_to_rotm] applied to a value read from JSON: the value is
    unpacked into four items, which the arithmetic needs to be numbers. *)
Definition quat_to_rotm (q : json) : result (list R) :=
  do items <- Py.iter q;
  match items with
  | [x; y; z; w] =>
      do x <- Py.number x;
      do y <- Py.number y;
      do z <- Py.number z;
      do w <- Py.number w;
      PoseMath.quat_to_rotm [x; y; z; w]
  | _ => Raise ValueError
  end.

Definition label : string := "barbecue-sauce".

(** The loop of lines 122-126: the first item whose ["label"] is the fixed
    label; an item that is not a dict has no [get]. *)
Fixpoint find_entry (items : list json) : result (option (list (string * json))) :=
  match items with
  | [] => Ok None
  | JObj fields :: rest =>
      if Py.eq_str (Py.dict_get fields "label") label then Ok (Some fields)
      else find_entry rest
  | _ :: _ => Raise AttributeError
  end.

Definition pipeline_cmd (exe : string) (object_type scene_name : option string)
  : list (option string) :=
  [ Some exe; Some PIPELINE_SCRIPT;
    Some "--object_type"; object_type;
    Some "--scene_name"; scene_name ].

Definition json_path : string :=
  PyStr.path_join ["local_data"; "examples"; "barbecue-sauce";
                   "outputs"; "object_data.json"].

(** [estimate_pose] (lines 96-144). *)
Definition estimate_pose (w : world) (img_folder image_id : string)
    (object_type scene_name : option string) : result reply :=
  let cmd := pipeline_cmd (sys_executable (host w)) object_type scene_name in
  match run_checked (host w) cmd with
  | Raise CalledProcessError => Ok fallback_pose
  | Raise e => Raise e
  | Ok _ =>
      if negb (isfile (host w) json_path) then Ok fallback_pose
      else
        do data <- json_load w json_path;
        do items <- Py.iter data;
        do entry <- find_entry items;
        match entry with
        | None => Ok fallback_pose
        | Some entry =>
            do two <- Py.dict_item entry "TWO";
            do quat <- Py.item two 0;
            do two <- Py.dict_item entry "TWO";
            do trans <- Py.item two 1;
            do xs <- Py.iter trans;
            do trans <- mapM Py.times_1000 xs;
            do quat_len <- Py.len quat;
            if negb (quat_len =? 4)%nat || negb (List.length trans =? 3)%nat
            then Ok fallback_pose
            else
              do rotMat <- quat_to_rotm quat;
              Ok (Reply trans (nums rotMat))
        end
  end.

End MegaPose.

(** ** OVE6D gateway (OVE6D/websocket_server.py) *)

Module OVE6D.

Local Open Scope string_scope.

(** [csv_rows path] is what [csv.DictReader] yields for the file: one dict
    per data row, a missing cell being [None]. *)
Record world : Type := World {
  host : machine;
  csv_rows : string -> list (list (string * option string))
}.

Definition float (s : string) : result R :=
  match PyStr.py_float s with
  | Some q => Ok (Q2R q)
  | None => Raise ValueError
  end.

(** [list(map(float, row[key].split()))]. *)
Definition floats (row : list (string * option string)) (key : string)
  : result (list R) :=
  do cell <- Py.dict_item row key;
  match cell with
  | None => Raise AttributeError
  | Some text => mapM float (PyStr.split text)
  end.

Definition pipeline_cmd (exe : string) (object_type scene_name : option string)
  : list (option string) :=
  [ Some exe; Some PIPELINE_SCRIPT;
    Some "--object_type"; object_type;
    Some "--scene_name"; scene_name ].

Definition csv_path : string :=
  PyStr.path_join ["."; "Dataspace"; "lm"; "outputs"; "predictions.csv"].

(** [estimate_pose] (lines 80-119).  [R] and [position] are the two lists
    converted to arrays of single precision and back to lists. *)
Definition estimate_pose (w : world) (img_folder image_id : string)
    (object_type scene_name : option string) : result reply :=
  let cmd := pipeline_cmd (sys_executable (host w)) object_type scene_name in
  match run_checked (host w) cmd with
  | Raise CalledProcessError => Ok fallback_pose
  | Raise e => Raise e
  | Ok _ =>
      if negb (isfile (host w) csv_path)
      then Ok (Reply (nums [0; 0; 0]%R) (nums [0; 0; 0; 0; 0; 0; 0; 0; 0]%R))
      else
        match csv_rows w csv_path with
        | [] => Ok fallback_pose
        | row :: _ =>
            do R_vals <- floats row "R";
            do t_vals <- floats row "t";
            let R := map (float32 (host w)) R_vals in
            let position := map (float32 (host w)) t_vals in
            Ok (Reply (nums position) (nums R))
        end
  end.

End OVE6D.

(** ** Pipeline drivers (GigaPose/pipeline.py, FoundationPose/pipeline.py) *)

Module Script.

Local Open Scope string_scope.

(** What a driver does to the outside, in the order it does it. *)
Inductive event : Type :=
| Stdout (line : string)
| Stderr (line : string)
| Spawn (cmd : list string) (cwd : option string)
| CopyTree (src dst : string)
| CopyFile (src dst : string)
| MakeDirs (path : string)
| SaveRGB (path : string)
| WriteJSON (path : string).

(** What the outside answers, given what was done so far: the exit status
    of a child process (or the exception raised when it cannot be
    started), and whether a path is a directory or a file.  The
    dictionary of timings is not modelled: [timings_fault] is the
    exception, if any, that a step on it raises (a file of timings that
    does not load, a key the dictionary does not hold). *)
Record os : Type := OS {
  returncode : list event -> list string -> option string -> result Z;
  isdir : list event -> string -> bool;
  isfile : list event -> string -> bool;
  getcwd : string;
  timings_fault : list event -> option exn
}.

(** How a driver ends: normally, by [sys.exit(code)], or by an exception
    nobody handles. *)
Inductive outcome (A : Type) : Type :=
| Done (a : A)
| Exit (code : Z)
| Fault (e : exn).

Arguments Done {A} a.
Arguments Exit {A} code.
Arguments Fault {A} e.

(** A piece of driver code: from the machine and the events so far to its
    outcome and the events after it. *)
Definition script (A : Type) : Type := os -> list event -> outcome A * list event.

Definition ret {A : Type} (a : A) : script A := fun _ h => (Done a, h).

Definition seq {A B : Type} (s : script A) (k : A -> script B) : script B :=
  fun sys h =>
    match s sys h with
    | (Done a, h1) => k a sys h1
    | (Exit code, h1) => (Exit code, h1)
    | (Fault e, h1) => (Fault e, h1)
    end.

Definition emit (e : event) : script unit := fun _ h => (Done tt, (h ++ [e])%list).

Definition sys_exit {A : Type} (code : Z) : script A := fun _ h => (Exit code, h).

Definition raise {A : Type} (e : exn) : script A := fun _ h => (Fault e, h).

Definition ask {A : Type} (f : os -> list event -> A) : script A :=
  fun sys h => (Done (f sys h), h).

End Script.

Notation "s1 ;; s2" := (Script.seq s1 (fun _ => s2))
  (at level 61, right associativity).
Notation "x <~ s1 ;; s2" := (Script.seq s1 (fun x => s2))
  (at level 61, s1 at next level, right associativity).

(** ** Command-line parsing

    [argparse.ArgumentParser] for the parsers the drivers build: long
    options with the actions [store] and [store_true], and the [--help]
    option every parser has.  [parser.error] ends the process with exit
    status 2, [--help] with exit status 0. *)

Module Argparse.

Import Script.
Local Open Scope string_scope.

Inductive value : Type :=
| VNone
| VBool (b : bool)
| VStr (s : string).

Inductive action : Type :=
| store
| store_true
| help.

Record argument : Type := Argument {
  flag : string;
  act : action;
  default : value
}.

(** The attribute an option sets: its flag without the two dashes. *)
Definition dest (a : argument) : string :=
  String.substring 2 (String.length (flag a) - 2) (flag a).

Definition namespace : Type := list (string * value).

Definition defaults (p : list argument) : namespace :=
  map (fun a => (dest a, default a)) (filter (fun a => match act a with help => false | _ => true end) p).

(** [setattr(namespace, key, v)]. *)
Fixpoint set (ns : namespace) (key : string) (v : value) : namespace :=
  match ns with
  | [] => [(key, v)]
  | (k, x) :: rest =>
      if String.eqb k key then (k, v) :: rest else (k, x) :: set rest key v
  end.

(** [getattr(namespace, key)]. *)
Definition get (ns : namespace) (key : string) : value :=
  match Py.dict_get ns key with
  | Some v => v
  | None => VNone
  end.

(** [tok.split('=', 1)]: the option string and the explicit argument. *)
Fixpoint split_eq (tok : string) : string * option string :=
  match tok with
  | EmptyString => (EmptyString, None)
  | String c rest =>
      if Ascii.eqb c "=" then (EmptyString, Some rest)
      else let '(name, arg) := split_eq rest in (String c name, arg)
  end.

Fixpoint contains (c : ascii) (s : string) : bool :=
  match s with
  | EmptyString => false
  | String d rest => Ascii.eqb c d || contains c rest
  end.

(** The pattern of a negative number, [-\d+] or [-\d*\.\d+]. *)
Definition negative_number (tok : string) : bool :=
  match tok with
  | String "-" rest =>
      let '(_, icount, rest1) := PyStr.read_digits 0 0 rest in
      match rest1 with
      | EmptyString => (0 <? icount)%nat
      | String "." rest2 =>
          let '(_, fcount, rest3) := PyStr.read_digits 0 0 rest2 in
          PyStr.is_empty rest3 && (0 <? fcount)%nat
      | _ => false
      end
  | _ => false
  end.

Inductive lookup : Type :=
| Found (a : argument)
| Ambiguous
| Unknown.

(** The option a string names: the one with that flag, or else the only
    one the string abbreviates. *)
Definition find_option (p : list argument) (name : string) : lookup :=
  match filter (fun a => String.eqb (flag a) name) p with
  | a :: _ => Found a
  | [] =>
      match filter (fun a => PyStr.startswith name (flag a)) p with
      | [a] => Found a
      | [] => Unknown
      | _ => Ambiguous
      end
  end.

(** Whether a command-line string is read as an option rather than as a
    value ([_parse_optional]): it starts with a dash and has more than one
    character, and either it names an option of the parser (in full or by
    a prefix, up to an equals sign), or it is no negative number and holds
    no space. *)
Definition looks_optional (p : list argument) (tok : string) : bool :=
  PyStr.startswith "-" tok && (1 <? String.length tok)%nat
  && (match find_option p (fst (split_eq tok)) with
      | Unknown => false
      | _ => true
      end
      || negb (negative_number tok) && negb (contains " " tok)).

Fixpoint parse (p : list argument) (ns : namespace) (argv : list string)
  : outcome namespace :=
  match argv with
  | [] => Done ns
  | tok :: rest =>
      if String.eqb tok "--" then
        match rest with [] => Done ns | _ :: _ => Exit 2 end
      else if negb (looks_optional p tok) then Exit 2
      else
        let '(name, explicit) := split_eq tok in
        match find_option p name with
        | Found a =>
            match act a, explicit with
            | help, None => Exit 0
            | help, Some _ => Exit 2
            | store_true, None => parse p (set ns (dest a) (VBool true)) rest
            | store_true, Some _ => Exit 2
            | store, Some v => parse p (set ns (dest a) (VStr v)) rest
            | store, None =>
                match rest with
                | v :: rest' =>
                    if looks_optional p v then Exit 2
                    else parse p (set ns (dest a) (VStr v)) rest'
                | [] => Exit 2
                end
            end
        | Ambiguous => Exit 2
        | Unknown => Exit 2
        end
  end.

(** [parser.parse_args()] on the arguments of the process. *)
Definition parse_args (p : list argument) (argv : list string)
  : outcome namespace :=
  parse p (defaults p) argv.

(** Python's truth value, [v == True] and [v == False or v == "False"]. *)
Definition truthy (v : value) : bool :=
  match v with
  | VNone => false
  | VBool b => b
  | VStr s => negb (PyStr.is_empty s)
  end.

Definition is_True (v : value) : bool :=
  match v with VBool true => true | _ => false end.

Definition is_False_or_text (v : value) : bool :=
  match v with
  | VBool false => true
  | VStr s => String.eqb s "False"
  | _ => false
  end.

End Argparse.

(** ** The helpers both drivers define *)

Module Driver.

Import Script.
Local Open Scope string_scope.

(** [subprocess.run(cmd, cwd=cwd)] and the [returncode] of its result. *)
Definition subprocess_run (cmd : list string) (cwd : option string) : script Z :=
  fun sys h =>
    match returncode sys h cmd cwd with
    | Ok rc => (Done rc, (h ++ [Spawn cmd cwd])%list)
    | Raise e => (Fault e, h)
    end.

(** [posixpath.dirname]. *)
Fixpoint head_to_last_slash (p : string) : option string :=
  match p with
  | EmptyString => None
  | String c rest =>
      match head_to_last_slash rest with
      | Some head => Some (String c head)
      | None => if Ascii.eqb c "/" then Some (String c EmptyString) else None
      end
  end.

Fixpoint rstrip_slash (p : string) : string :=
  match p with
  | EmptyString => EmptyString
  | String c rest =>
      let rest' := rstrip_slash rest in
      if Ascii.eqb c "/" && PyStr.is_empty rest' then EmptyString
      else String c rest'
  end.

Definition dirname (p : string) : string :=
  match head_to_last_slash p with
  | None => EmptyString
  | Some head =>
      if PyStr.is_empty (rstrip_slash head) then head else rstrip_slash head
  end.

(** [os.makedirs(path, exist_ok=True)]: the empty path, which
    [os.path.dirname] gives for a name without a slash, is no directory
    that can be made ([FileNotFoundError], an [OSError]). *)
Definition makedirs (path : string) : script unit :=
  if PyStr.is_empty path then raise OSError else emit (MakeDirs path).

(** [copy_if_exists] (GigaPose/pipeline.py, lines 29-42; the same text in
    FoundationPose/pipeline.py, lines 34-47). *)
Definition copy_if_exists (src dst : string) (is_dir : bool) : script unit :=
  if is_dir then
    found <~ ask (fun sys h => isdir sys h src) ;;
    if found then
      emit (Stdout ("Copying tree " ++ src ++ " → " ++ dst)) ;;
      emit (CopyTree src dst)
    else
      emit (Stdout ("[warning] missing dir " ++ src ++ ", skipping copy"))
  else
    found <~ ask (fun sys h => isfile sys h src) ;;
    if found then
      makedirs (dirname dst) ;;
      emit (Stdout ("Copying file " ++ src ++ " → " ++ dst)) ;;
      emit (CopyFile src dst)
    else
      emit (Stdout ("[warning] missing file " ++ src ++ ", skipping copy")).

(** The statements of a driver that are calls of its [run], one after the
    other. *)
Fixpoint stages (run : list string -> option string -> script unit)
    (cmds : list (list string * option string)) : script unit :=
  match cmds with
  | [] => ret tt
  | (cmd, cwd) :: rest => run cmd cwd ;; stages run rest
  end.

End Driver.

(** ** FoundationPose driver (FoundationPose/pipeline.py) *)

Module FoundationPosePipeline.

Import Script Driver.
Local Open Scope string_scope.

(** [cwd or os.getcwd()]. *)
Definition announced_cwd (sys : os) (cwd : option string) : string :=
  match cwd with
  | Some d => if PyStr.is_empty d then getcwd sys else d
  | None => getcwd sys
  end.

(** [run] (lines 12-17). *)
Definition run (cmd : list string) (cwd : option string) : script unit :=
  dir <~ ask (fun sys _ => announced_cwd sys cwd) ;;
  emit (Stdout ("[run] " ++ PyStr.join " " cmd ++ " (cwd=" ++ dir ++ ")")) ;;
  returncode <~ subprocess_run cmd cwd ;;
  if negb (returncode =? 0)%Z then
    emit (Stderr ("[error] Command failed: " ++ PyStr.join " " cmd)) ;;
    sys_exit returncode
  else ret tt.

End FoundationPosePipeline.

(** ** GigaPose driver (GigaPose/pipeline.py) *)

Module GigaPosePipeline.

Import Script Driver Argparse.
Local Open Scope string_scope.

(** [run] (lines 22-27). *)
Definition run (cmd : list string) (cwd : option string) : script unit :=
  emit (Stdout ("Running: " ++ PyStr.join " " cmd)) ;;
  returncode <~ subprocess_run cmd cwd ;;
  if negb (returncode =? 0)%Z then
    emit (Stderr ("Step failed: " ++ PyStr.join " " cmd)) ;;
    sys_exit returncode
  else ret tt.

(** The parser of [main] (lines 53-97). *)
Definition parser : list argument :=
  [ Argument "-h" help VNone;
    Argument "--help" help VNone;
    Argument "--input_dir" store (VStr "../SharedData/WebsocketData/000000");
    Argument "--bopm_output" store (VStr "lmo");
    Argument "--cad_ply" store (VStr "./gigaPose_datasets/datasets/lmo/models/obj_000001.ply");
    Argument "--checkpoint" store (VStr "sam_vit_h.pth");
    Argument "--default_detect_dest" store
      (VStr "./gigaPose_datasets/datasets/default_detections/core19_model_based_unseen/cnos-fastsam");
    Argument "--run_id" store (VStr "000000");
    Argument "--test_dataset" store (VStr "lmo");
    Argument "--reuse_templates" store_true (VBool true);
    Argument "--object_type" store (VStr "brake");
    Argument "--raw_cache" store (VStr "../SharedData/ObjectModelsM");
    Argument "--scene_name" store (VStr "Default");
    Argument "--test_all" store (VBool false);
    Argument "--test_all_primary" store (VBool true);
    Argument "--primary_result_file" store VNone;
    Argument "--visibility" store (VStr "Visibility");
    Argument "--lighting" store (VStr "Lighting");
    Argument "--distance" store (VStr "Distance");
    Argument "--height" store (VStr "Height") ].

(** An attribute of [args] used as a path component or as a command-line
    word: anything but a string is a [TypeError].  Of the attributes read
    below only [primary_result_file] can be something else ([None]): the
    others have a string default and a [store] action. *)
Definition text (args : namespace) (key : string) : script string :=
  match get args key with
  | VStr s => ret s
  | _ => raise TypeError
  end.

(** [Image.open(path).convert("RGB")] saved back to [path]. *)
Definition save_rgb (path : string) : script unit :=
  found <~ ask (fun sys h => isfile sys h path) ;;
  if found then emit (SaveRGB path) else raise OSError.

(** [shutil.copy(src, dst)]. *)
Definition shutil_copy (src dst : string) : script unit :=
  found <~ ask (fun sys h => isfile sys h src) ;;
  if found then emit (CopyFile src dst) else raise OSError.

(** Lines 131-195: the precomputed assets are copied from the raw cache. *)
Definition copy_templates (args : namespace) : script unit :=
  emit (Stdout "[pipeline] --reuse_templates set, copying precomputed assets…") ;;
  raw_cache <~ text args "raw_cache" ;;
  object_type <~ text args "object_type" ;;
  let src_info := PyStr.path_join [raw_cache; object_type; "model"; "models_info.json"] in
  let src_model := PyStr.path_join [raw_cache; object_type; "model"; "obj_000001.ply"] in
  let dst_info_dir := "./gigaPose_datasets/datasets/lmo/models" in
  let dst_eval_dir := "./gigaPose_datasets/datasets/lmo/models_eval" in
  emit (Stdout "Model Info:") ;;
  emit (Stdout src_info) ;;
  emit (Stdout dst_info_dir) ;;
  copy_if_exists src_info (PyStr.path_join [dst_info_dir; "models_info.json"]) false ;;
  copy_if_exists src_info (PyStr.path_join [dst_eval_dir; "models_info.json"]) false ;;
  copy_if_exists src_model (PyStr.path_join [dst_info_dir; "obj_000001.ply"]) false ;;
  copy_if_exists src_model (PyStr.path_join [dst_eval_dir; "obj_000001.ply"]) false ;;
  (if is_True (get args "test_all_primary") then
     let src_seg := PyStr.path_join [raw_cache; object_type; "segmentation_templates"] in
     let dst_seg := "./gigaPose_datasets/datasets/lmo/" in
     emit (Stdout "segmentation templates:") ;;
     emit (Stdout src_seg) ;;
     emit (Stdout dst_seg) ;;
     copy_if_exists src_seg dst_seg true
   else ret tt) ;;
  bopm_output <~ text args "bopm_output" ;;
  let src_bop := PyStr.path_join [raw_cache; object_type; "bop_templates"] in
  let dst_bop := PyStr.path_join ["gigaPose_datasets"; "datasets"; "templates"; bopm_output] in
  emit (Stdout "BOP templates:") ;;
  emit (Stdout src_bop) ;;
  emit (Stdout dst_bop) ;;
  copy_if_exists src_bop dst_bop true ;;
  let src_obj_poses := PyStr.path_join [raw_cache; object_type; "object_poses"] in
  let dest_obj_poses := "./gigaPose_datasets/datasets/templates/lmo/object_poses" in
  copy_if_exists src_obj_poses dest_obj_poses true.

(** Lines 197-202: the templates are rendered. *)
Definition render_templates (args : namespace) : script unit :=
  bopm_output <~ text args "bopm_output" ;;
  let bp_out := PyStr.path_join ["."; "gigaPose_datasets/datasets"; bopm_output] in
  cad_ply <~ text args "cad_ply" ;;
  run [ "blenderproc"; "run"; "./render/render_templates_optimized.py";
        "--output_dir"; bp_out;
        "--cad_path"; cad_ply ] None.

(** Lines 129-202: the templates, copied when [args.reuse_templates] is
    true and rendered otherwise. *)
Definition templates (args : namespace) : script unit :=
  if truthy (get args "reuse_templates") then copy_templates args
  else render_templates args.

(** Lines 248-253: without [args.reuse_templates], the model info is
    computed and the BOP templates are rendered. *)
Definition model_info (args : namespace) : script unit :=
  if negb (truthy (get args "reuse_templates")) then
    run ["python"; "calculate_model_info.py"] None ;;
    run ["python"; "-m"; "src.scripts.render_bop_templates"] None
  else ret tt.

(** Lines 207-229: the instance segmentation, run or copied from the
    primary result. *)
Definition segmentation (args : namespace) : script unit :=
  let ism_dir := "Instance_Segmentation_Model" in
  if is_True (get args "test_all_primary") then
    bopm_output <~ text args "bopm_output" ;;
    checkpoint <~ text args "checkpoint" ;;
    run [ "python"; "batch_inference.py";
          "--bopm_root"; PyStr.path_join [".."; "gigaPose_datasets/datasets"; bopm_output];
          "--cad_root"; PyStr.path_join [".."; "gigaPose_datasets/datasets"; bopm_output; "models"];
          "--checkpoint"; checkpoint ] (Some ism_dir)
  else
    emit (Stdout "Copy Segmentation Result") ;;
    primary <~ text args "primary_result_file" ;;
    copy_if_exists (PyStr.path_join [primary; "Pose"; "InstanceSegmentation.json"])
      "./gigaPose_datasets/datasets/lmo/test/000000/sam6d_results/detection_ism.json" false ;;
    copy_if_exists (PyStr.path_join [primary; "Pose"; "MaskISM.png"])
      "./gigaPose_datasets/datasets/lmo/test/000000/sam6d_results/mask_ism.png" false ;;
    copy_if_exists (PyStr.path_join [primary; "Visualizaztion"; "VisInstanceSegmentation.png"])
      "./gigaPose_datasets/datasets/lmo/test/000000/sam6d_results/vis_ism.png" false.

(** A step on the timings alone: it leaves no event, and ends with the
    exception [timings_fault] gives, if any. *)
Definition timings_step : script unit :=
  fun sys h =>
    match timings_fault sys h with
    | Some e => (Fault e, h)
    | None => (Done tt, h)
    end.

(** Lines 107-111: the timings of the primary result are loaded. *)
Definition load_timings (args : namespace) : script unit :=
  if is_False_or_text (get args "test_all_primary") then
    primary <~ text args "primary_result_file" ;;
    let timings_file := PyStr.path_join [primary; "Scores"; "timings.json"] in
    found <~ ask (fun sys h => isfile sys h timings_file) ;;
    if negb (PyStr.is_empty primary) && found then timings_step else ret tt
  else ret tt.

(** Lines 268-283: the durations are computed from the timings. *)
Definition collapse_timings : script unit := timings_step.

(** Lines 291-325: the results are copied into the result folder and the
    timings are written next to them. *)
Definition copy_results (args : namespace) : script string :=
  emit (Stdout "Copying Results into Folder") ;;
  scene_name <~ text args "scene_name" ;;
  object_type <~ text args "object_type" ;;
  visibility <~ text args "visibility" ;;
  lighting <~ text args "lighting" ;;
  distance <~ text args "distance" ;;
  height <~ text args "height" ;;
  let result_dst := PyStr.path_join [".."; "Result"; object_type; visibility; lighting;
                                     distance; height; scene_name; "GigaPose"] in
  let img_result_dst := PyStr.path_join [result_dst; "Images"] in
  let vis_result_dst := PyStr.path_join [result_dst; "Visualizaztion"] in
  let pose_result_dst := PyStr.path_join [result_dst; "Pose"] in
  let score_result_dst := PyStr.path_join [result_dst; "Scores"] in
  let img_result_src := PyStr.path_join ["gigaPose_datasets"; "datasets"; "lmo"; "test"; "000000"] in
  copy_if_exists img_result_src img_result_dst true ;;
  copy_if_exists (PyStr.path_join ["mesh_visualizations"; "mesh_with_corners.png"])
    (PyStr.path_join [vis_result_dst; "VisPoseEstimation.png"]) false ;;
  copy_if_exists (PyStr.path_join [img_result_src; "sam6d_results"; "vis_ism.png"])
    (PyStr.path_join [vis_result_dst; "VisInstanceSegmentation.png"]) false ;;
  let sam_result_src := PyStr.path_join [img_result_src; "sam6d_results"] in
  copy_if_exists (PyStr.path_join [sam_result_src; "detection_pem.json"])
    (PyStr.path_join [pose_result_dst; "PoseEstimation.json"]) false ;;
  copy_if_exists (PyStr.path_join [sam_result_src; "detection_ism.json"])
    (PyStr.path_join [pose_result_dst; "InstanceSegmentation.json"]) false ;;
  copy_if_exists (PyStr.path_join [sam_result_src; "mask_ism.png"])
    (PyStr.path_join [pose_result_dst; "MaskISM.png"]) false ;;
  copy_if_exists
    (PyStr.path_join ["gigaPose_datasets"; "results"; "large_000000"; "predictions";
                      "large-pbrreal-rgb-mmodel_lmo-test_000000.csv"])
    (PyStr.path_join [pose_result_dst; "PoseEstimation.csv"]) false ;;
  copy_if_exists
    (PyStr.path_join ["gigaPose_datasets"; "results"; "large_000000"; "predictions";
                      "large-pbrreal-rgb-mmodel_lmo-test_000000"])
    score_result_dst true ;;
  makedirs score_result_dst ;;
  emit (WriteJSON (PyStr.path_join [score_result_dst; "timings.json"])) ;;
  ret result_dst.

(** One call of lines 329-379: the pipeline of another estimator, in its
    conda environment and its directory. *)
Definition other_pipeline (args : namespace) (result_dst env cwd : string) : script unit :=
  object_type <~ text args "object_type" ;;
  scene_name <~ text args "scene_name" ;;
  visibility <~ text args "visibility" ;;
  lighting <~ text args "lighting" ;;
  distance <~ text args "distance" ;;
  height <~ text args "height" ;;
  run [ "conda"; "run"; "--no-capture-output"; "-n"; env;
        "python"; "pipeline.py";
        "--object_type"; object_type;
        "--scene_name"; scene_name;
        "--visibility"; visibility;
        "--lighting"; lighting;
        "--distance"; distance;
        "--height"; height;
        "--test_all_primary"; "False";
        "--primary_result_file"; result_dst ] (Some cwd).

(** [main] (lines 52-381); [main_parsed] is what it does with the parsed
    arguments (from line 104 on).  The [timings] dictionary is not
    modelled: see [timings_step]. *)
Definition main_parsed (args : namespace) : script unit :=
  load_timings args ;;
  input_dir <~ text args "input_dir" ;;
  bopm_output <~ text args "bopm_output" ;;
  run [ "python"; "convert_to_bopm.py";
        "--input_dir"; input_dir;
        "--output_dir"; PyStr.path_join ["."; "gigaPose_datasets/datasets"; bopm_output] ]
      None ;;
  save_rgb (PyStr.path_join ["."; "gigaPose_datasets/datasets"; bopm_output;
                             "test"; "000000"; "rgb"; "000000.png"]) ;;
  templates args ;;
  segmentation args ;;
  test_dataset <~ text args "test_dataset" ;;
  let det_file := test_dataset ++ "_detections.json" in
  run [ "python"; "combine_detection_ism.py";
        "--test_root"; PyStr.path_join [".."; "gigaPose_datasets/datasets"; bopm_output; "test"];
        "--output"; PyStr.path_join [".."; "gigaPose_datasets/datasets"; bopm_output; det_file] ]
      (Some "Instance_Segmentation_Model") ;;
  default_detect_dest <~ text args "default_detect_dest" ;;
  let src := PyStr.path_join ["."; "gigaPose_datasets/datasets"; bopm_output; det_file] in
  let dst := PyStr.path_join [default_detect_dest; det_file] in
  emit (Stdout ("Copying " ++ src ++ " to " ++ dst)) ;;
  shutil_copy src dst ;;
  model_info args ;;
  run ["python"; "-m"; "src.scripts.prepareDataset"] None ;;
  run_id <~ text args "run_id" ;;
  run [ "python"; "test.py";
        "test_dataset_name=" ++ test_dataset;
        "run_id=" ++ run_id;
        "test_setting=localization" ] None ;;
  collapse_timings ;;
  run ["python"; "display_result.py"] None ;;
  run ["python"; "-m"; "src.scripts.eval_bop"] None ;;
  result_dst <~ copy_results args ;;
  (if is_True (get args "test_all") then
     other_pipeline args result_dst "sam6d" "../SAM-6D/SAM-6D" ;;
     other_pipeline args result_dst "sam6d" "../FoundationPose" ;;
     other_pipeline args result_dst "megapose" "../megapose6d" ;;
     other_pipeline args result_dst "ove6d" "../OVE6D-pose"
   else ret tt) ;;
  emit (Stdout "Pipeline completed successfully.").

Definition main (argv : list string) : script unit :=
  args <~ (fun _ h => (parse_args parser argv, h)) ;;
  main_parsed args.

End GigaPosePipeline.

(** ** Reference formulas *)

Module Shepperd.

Import PoseMath.
Local Open Scope R_scope.

(** The four branches of Shepperd's method: the trace, or one of the
    diagonal entries. *)
Inductive branch : Type :=
| by_trace
| by_m00
| by_m11
| by_m22.

(** The textbook quaternion (x, y, z, w) of each branch: the component the
    branch is named after is half a square root, the other three are
    quotients by four times that component. *)
Definition quaternion (b : branch) (M : mat3) : list R :=
  match b with
  | by_trace =>
      let w := sqrt (1 + m00 M + m11 M + m22 M) / 2 in
      [ (m21 M - m12 M) / (4 * w); (m02 M - m20 M) / (4 * w);
        (m10 M - m01 M) / (4 * w); w ]
  | by_m00 =>
      let x := sqrt (1 + m00 M - m11 M - m22 M) / 2 in
      [ x; (m01 M + m10 M) / (4 * x);
        (m02 M + m20 M) / (4 * x); (m21 M - m12 M) / (4 * x) ]
  | by_m11 =>
      let y := sqrt (1 - m00 M + m11 M - m22 M) / 2 in
      [ (m01 M + m10 M) / (4 * y); y;
        (m12 M + m21 M) / (4 * y); (m02 M - m20 M) / (4 * y) ]
  | by_m22 =>
      let z := sqrt (1 - m00 M - m11 M + m22 M) / 2 in
      [ (m02 M + m20 M) / (4 * z); (m12 M + m21 M) / (4 * z);
        z; (m10 M - m01 M) / (4 * z) ]
  end.

(** The diagonal entry a branch is about. *)
Definition entry (b : branch) (M : mat3) : R :=
  match b with
  | by_trace => m00 M + m11 M + m22 M
  | by_m00 => m00 M
  | by_m11 => m11 M
  | by_m22 => m22 M
  end.

(** [b] is a diagonal branch whose entry is largest on the diagonal. *)
Definition largest (b : branch) (M : mat3) : Prop :=
  b <> by_trace /\
  m00 M <= entry b M /\ m11 M <= entry b M /\ m22 M <= entry b M.

(** The bilinear expansion of a unit quaternion into a rotation matrix,
    row-major. *)
Definition expand (x y z w : R) : list R :=
  [ 1 - 2*(y*y + z*z);  2*(x*y - w*z);      2*(x*z + w*y);
    2*(x*y + w*z);      1 - 2*(x*x + z*z);  2*(y*z - w*x);
    2*(x*z - w*y);      2*(y*z + w*x);      1 - 2*(x*x + y*y) ].

End Shepperd.

(** ** Reference notions for the gateways *)

Module Reference.

Local Open Scope R_scope.
Local Open Scope string_scope.

(** A token: a non-empty run of characters without white space. *)
Definition is_token (t : string) : Prop :=
  t <> EmptyString /\
  forall c, In c (list_ascii_of_string t) -> PyStr.isspace c = false.

(** The line feed character, as a string. *)
Definition line_feed : string := String (ascii_of_nat 10) EmptyString.

(** Every character of [s] satisfies [f]. *)
Definition made_of (f : ascii -> bool) (s : string) : Prop :=
  forall c, In c (list_ascii_of_string s) -> f c = true.

(** [c] is one of the characters of [s]. *)
Definition among (s : string) (c : ascii) : bool :=
  existsb (Ascii.eqb c) (list_ascii_of_string s).

(** The characters a finite float literal is made of: the digits, the
    signs, the point, the underscore, the exponent markers, and the white
    space [float] strips. *)
Definition literal_character (c : ascii) : bool :=
  PyStr.isspace c
  || match PyStr.digit_of c with Some _ => true | None => false end
  || among "+-._eE" c.

(** The characters a string that [float] converts can hold: those of a
    finite literal and the letters of [inf], [infinity] and [nan].  The
    characters that are not ASCII count among them: in a text that is not
    of this model they can be digits or white space of another script.
    Every other character makes [float] raise [ValueError], wherever it
    stands in the string. *)
Definition float_character (c : ascii) : bool :=
  literal_character c || among "infatyINFATY" c || (128 <=? nat_of_ascii c)%nat.

(** The characters a string that [int] converts can hold: the digits, the
    signs, the underscore and the white space [int] strips; as for
    [float_character], the characters that are not ASCII count among
    them. *)
Definition int_character (c : ascii) : bool :=
  PyStr.isspace c
  || match PyStr.digit_of c with Some _ => true | None => false end
  || among "+-_" c
  || (128 <=? nat_of_ascii c)%nat.

(** The rationals a double can hold up to rounding, and those a number of
    single precision can: beyond them [float] and the conversion to
    single precision give an infinity. *)
Definition within_double (q : Q) : bool := Qle_bool (Qabs q) (Qpower (2 # 1) 1023).

Definition within_single (q : Q) : bool := Qle_bool (Qabs q) (Qpower (2 # 1) 127).

(** *** The finite float literals of the Python grammar

    [floatnumber ::= number [exponent]] with
    [number ::= [digitpart] "." digitpart | digitpart ["."]] and
    [exponent ::= ("e" | "E") [sign] digitpart], after an optional sign;
    the digit parts are taken without underscores.  A sign is [None] when
    it is not written, [Some true] for a minus sign. *)
Record literal : Type := Literal {
  sign : option bool;
  int_digits : list nat;
  frac_digits : option (list nat);
  exponent : option (bool * option bool * list nat)
}.

Definition sign_text (s : option bool) : string :=
  match s with
  | None => ""
  | Some false => "+"
  | Some true => "-"
  end.

Definition sign_factor (s : option bool) : Z :=
  match s with
  | Some true => (-1)%Z
  | _ => 1%Z
  end.

Fixpoint digits_text (ds : list nat) : string :=
  match ds with
  | [] => ""
  | d :: rest => String (ascii_of_nat (48 + d)) (digits_text rest)
  end.

(** The number a sequence of decimal digits denotes. *)
Fixpoint digits_value (ds : list nat) : Z :=
  match ds with
  | [] => 0%Z
  | d :: rest => (Z.of_nat d * 10 ^ Z.of_nat (List.length rest) + digits_value rest)%Z
  end.

Definition fraction (l : literal) : list nat :=
  match frac_digits l with
  | Some f => f
  | None => []
  end.

Definition exponent_digits (l : literal) : list nat :=
  match exponent l with
  | Some (_, _, e) => e
  | None => []
  end.

Definition exponent_value (l : literal) : Z :=
  match exponent l with
  | Some (_, s, e) => (sign_factor s * digits_value e)%Z
  | None => 0%Z
  end.

Definition literal_text (l : literal) : string :=
  (sign_text (sign l) ++ digits_text (int_digits l)
   ++ match frac_digits l with
      | Some f => "." ++ digits_text f
      | None => ""
      end
   ++ match exponent l with
      | Some (upper, s, e) =>
          (if upper : bool then "E" else "e") ++ sign_text s ++ digits_text e
      | None => ""
      end)%string.

(** Every digit is below ten, there is a digit before or after the point,
    and an exponent has a digit. *)
Definition well_formed (l : literal) : Prop :=
  Forall (fun d => (d < 10)%nat)
         (int_digits l ++ fraction l ++ exponent_digits l)%list /\
  (int_digits l ++ fraction l)%list <> [] /\
  (forall upper s, exponent l <> Some (upper, s, [])).

(** The value of the literal: the integer part plus the fraction, times
    the power of ten of the exponent, with the sign. *)
Definition literal_value (l : literal) : Q :=
  (inject_Z (sign_factor (sign l))
   * (inject_Z (digits_value (int_digits l))
      + inject_Z (digits_value (fraction l))
        / Qpower (10 # 1) (Z.of_nat (List.length (fraction l))))
   * Qpower (10 # 1) (exponent_value l))%Q.

(** [i] is the lowest index at which [l] reaches its maximum. *)
Definition first_maximum (l : list R) (i : nat) : Prop :=
  exists v,
    nth_error l i = Some v /\
    (forall j u, nth_error l j = Some u -> u <= v) /\
    (forall j u, (j < i)%nat -> nth_error l j = Some u -> u < v).

(** The shape of the ["rotation"] field of a reply: how many items. *)
Definition rotation_shape (r : reply) : nat := List.length (rotation r).

(** The reply made of a pose matrix: the first three entries of its last
    column, and its upper-left 3x3 block row by row. *)
Definition reply_of (M : GigaPose.mat4) : reply :=
  Reply (nums [GigaPose.p03 M; GigaPose.p13 M; GigaPose.p23 M])
        (nums [GigaPose.p00 M; GigaPose.p01 M; GigaPose.p02 M;
               GigaPose.p10 M; GigaPose.p11 M; GigaPose.p12 M;
               GigaPose.p20 M; GigaPose.p21 M; GigaPose.p22 M]).

(** A pose matrix with the identity rotation and a given translation. *)
Definition translation_pose (tx ty tz : R) : GigaPose.mat4 :=
  GigaPose.Mat4 1 0 0 tx
                0 1 0 ty
                0 0 1 tz
                0 0 0 1.

(** A machine on which every child process exits with [rc] and every
    path is a file or not according to [present]; the numbers of the
    examples below are integers, halves and quarters of small size, which
    single precision holds exactly, so the conversion to single precision
    of this machine leaves a number as it is. *)
Definition machine_with (rc : Z) (present : bool) : machine :=
  Machine "python" (fun _ => Ok rc) (fun _ => present) (fun x => x).

(** The call of the pipeline each gateway makes. *)
Definition gigapose_pipeline (w : GigaPose.world) (img_folder image_id : string)
    (object_type scene_name : option string) : result unit :=
  run_checked (GigaPose.host w)
    (GigaPose.pipeline_cmd (sys_executable (GigaPose.host w))
       (PyStr.path_join ["."; img_folder]%string) image_id object_type scene_name).

Definition megapose_pipeline (w : MegaPose.world)
    (object_type scene_name : option string) : result unit :=
  run_checked (MegaPose.host w)
    (MegaPose.pipeline_cmd (sys_executable (MegaPose.host w)) object_type scene_name).

Definition ove6d_pipeline (w : OVE6D.world)
    (object_type scene_name : option string) : result unit :=
  run_checked (OVE6D.host w)
    (OVE6D.pipeline_cmd (sys_executable (OVE6D.host w)) object_type scene_name).

(** No item of [items] carries the label the MegaPose gateway looks for. *)
Definition unlabelled (items : list json) : Prop :=
  Forall (fun d => exists fields,
              d = JObj fields /\
              Py.eq_str (Py.dict_get fields "label") MegaPose.label = false) items.

(** A file system that the run does not change: [file] and [dir] tell
    which paths are files and directories, whatever was done so far. *)
Definition static (sys : Script.os) (file dir : string -> bool) : Prop :=
  (forall h path, Script.isfile sys h path = file path) /\
  (forall h path, Script.isdir sys h path = dir path).

(** What [copy_if_exists] does with a file and with a directory,
    according to whether the source is there: the directory of the
    destination is made and the copy is announced and done, or the copy is
    skipped with a warning. *)
Definition file_copy (present : bool) (src dst : string) : list Script.event :=
  if present then
    [ Script.MakeDirs (Driver.dirname dst);
      Script.Stdout ("Copying file " ++ src ++ " → " ++ dst)%string;
      Script.CopyFile src dst ]
  else [ Script.Stdout ("[warning] missing file " ++ src ++ ", skipping copy")%string ].

Definition tree_copy (present : bool) (src dst : string) : list Script.event :=
  if present then
    [ Script.Stdout ("Copying tree " ++ src ++ " → " ++ dst)%string;
      Script.CopyTree src dst ]
  else [ Script.Stdout ("[warning] missing dir " ++ src ++ ", skipping copy")%string ].

(** What the copy of the precomputed assets of the GigaPose driver does on
    a file system [file], [dir]: it announces itself, copies the model
    info and the model to the two model folders, then, when
    [args.test_all_primary] is [True], the segmentation templates, then
    the BOP templates and the object poses; each source that is missing
    is skipped with a warning. *)
Definition copied_assets (file dir : string -> bool)
    (raw_cache object_type bopm_output : string) (primary : bool)
  : list Script.event :=
  let src_info := PyStr.path_join [raw_cache; object_type; "model"; "models_info.json"] in
  let src_model := PyStr.path_join [raw_cache; object_type; "model"; "obj_000001.ply"] in
  let src_seg := PyStr.path_join [raw_cache; object_type; "segmentation_templates"] in
  let src_bop := PyStr.path_join [raw_cache; object_type; "bop_templates"] in
  let dst_bop :=
    PyStr.path_join ["gigaPose_datasets"; "datasets"; "templates"; bopm_output] in
  let src_obj_poses := PyStr.path_join [raw_cache; object_type; "object_poses"] in
  ([ Script.Stdout "[pipeline] --reuse_templates set, copying precomputed assets…";
     Script.Stdout "Model Info:";
     Script.Stdout src_info;
     Script.Stdout "./gigaPose_datasets/datasets/lmo/models" ]
   ++ file_copy (file src_info) src_info
        "./gigaPose_datasets/datasets/lmo/models/models_info.json"
   ++ file_copy (file src_info) src_info
        "./gigaPose_datasets/datasets/lmo/models_eval/models_info.json"
   ++ file_copy (file src_model) src_model
        "./gigaPose_datasets/datasets/lmo/models/obj_000001.ply"
   ++ file_copy (file src_model) src_model
        "./gigaPose_datasets/datasets/lmo/models_eval/obj_000001.ply"
   ++ (if primary then
         [ Script.Stdout "segmentation templates:";
           Script.Stdout src_seg;
           Script.Stdout "./gigaPose_datasets/datasets/lmo/" ]
         ++ tree_copy (dir src_seg) src_seg "./gigaPose_datasets/datasets/lmo/"
       else [])
   ++ [ Script.Stdout "BOP templates:";
        Script.Stdout src_bop;
        Script.Stdout dst_bop ]
   ++ tree_copy (dir src_bop) src_bop dst_bop
   ++ tree_copy (dir src_obj_poses) src_obj_poses
        "./gigaPose_datasets/datasets/templates/lmo/object_poses")%list.

(** The event copies a file or a directory. *)
Definition copies (e : Script.event) : bool :=
  match e with
  | Script.CopyTree _ _ | Script.CopyFile _ _ => true
  | _ => false
  end.

(** A machine on which every command exits with status 0 and nothing
    exists but the image of the first frame: the raw cache holds none of
    the precomputed assets. *)
Definition without_assets : Script.os :=
  Script.OS (fun _ _ _ => Ok 0%Z) (fun _ _ => false)
            (fun _ path =>
               String.eqb path "./gigaPose_datasets/datasets/lmo/test/000000/rgb/000000.png")
            "/work" (fun _ => None).

(** A machine on which the command [bad] exits with status [rc] and every
    other command with status 0; every path exists. *)
Definition failing_at (bad : list string) (rc : Z) : Script.os :=
  Script.OS (fun _ cmd _ => if list_eq_dec string_dec cmd bad then Ok rc else Ok 0%Z)
            (fun _ _ => true) (fun _ _ => true) "/work" (fun _ => None).

(** The event starts the template renderer. *)
Definition renders (e : Script.event) : bool :=
  match e with
  | Script.Spawn (program :: _) _ => String.eqb program "blenderproc"
  | _ => false
  end.

(** Running [s] starts no template renderer. *)
Definition never_renders {A : Type} (s : Script.script A) : Prop :=
  forall sys h,
    Forall (fun e => renders e = false) h ->
    Forall (fun e => renders e = false) (snd (s sys h)).

(** Only a [store_true] option of the parser [p] sets the attribute
    [key]. *)
Definition switch_only (p : list Argparse.argument) (key : string) : Prop :=
  forall a, In a p -> Argparse.dest a = key -> Argparse.act a = Argparse.store_true.

End Reference.

From Stdlib Require Import Permutation Sorted.

(** ** Matrices of the display scripts *)

Module Linear.

Import PoseMath.
Local Open Scope R_scope.

(** [np.array(l).reshape(3, 3)]: [ValueError] unless [l] has nine items. *)
Definition reshape_3_3 (l : list R) : result mat3 :=
  match l with
  | [a; b; c; d; e; f; g; h; i] => Ok (Mat3 a b c d e f g h i)
  | _ => Raise ValueError
  end.

(** [A @ B] on 3x3 arrays. *)
Definition matmul (A B : mat3) : mat3 :=
  Mat3 (m00 A * m00 B + m01 A * m10 B + m02 A * m20 B)
       (m00 A * m01 B + m01 A * m11 B + m02 A * m21 B)
       (m00 A * m02 B + m01 A * m12 B + m02 A * m22 B)
       (m10 A * m00 B + m11 A * m10 B + m12 A * m20 B)
       (m10 A * m01 B + m11 A * m11 B + m12 A * m21 B)
       (m10 A * m02 B + m11 A * m12 B + m12 A * m22 B)
       (m20 A * m00 B + m21 A * m10 B + m22 A * m20 B)
       (m20 A * m01 B + m21 A * m11 B + m22 A * m21 B)
       (m20 A * m02 B + m21 A * m12 B + m22 A * m22 B).

(** [np.eye(3)]. *)
Definition eye3 : mat3 := Mat3 1 0 0  0 1 0  0 0 1.

End Linear.

(** ** The intrinsics file the gateways write *)

Module Stager.

Local Open Scope string_scope.

(** The text of [cam_K.txt] ([save_foundation_raw], GigaPose/websocket.py,
    lines 179-184; the same text in the other gateways): one line per row
    of the matrix, the numbers of a row separated by a space.  [fmt] is
    the format [{v:.18E}] of a number. *)
Definition cam_K_text {A : Type} (fmt : A -> string) (rows : list (list A)) : string :=
  let lines := map (fun row => PyStr.join " " (map fmt row)) rows in
  PyStr.join Reference.line_feed lines.

(** A format for the numbers of the matrix
    [[525,0,320],[0,525,240],[0,0,1]]. *)
Definition example_format (v : Q) : string :=
  if Qeq_bool v (525 # 1) then "5.250000000000000000E+02"
  else if Qeq_bool v (320 # 1) then "3.200000000000000000E+02"
  else if Qeq_bool v (240 # 1) then "2.400000000000000000E+02"
  else if Qeq_bool v (1 # 1) then "1.000000000000000000E+00"
  else "0.000000000000000000E+00".

End Stager.

(** ** What a run of a driver leaves behind *)

Module Trace.

Import Script.
Local Open Scope string_scope.

(** The commands a run started, in the order it started them. *)
Fixpoint spawned (h : list event) : list (list string * option string) :=
  match h with
  | [] => []
  | Spawn cmd cwd :: rest => (cmd, cwd) :: spawned rest
  | _ :: rest => spawned rest
  end.

(** The lines a run wrote to the standard error. *)
Fixpoint complaints (h : list event) : list string :=
  match h with
  | [] => []
  | Stderr line :: rest => line :: complaints rest
  | _ :: rest => complaints rest
  end.

(** The event is no start of a program other than [python]. *)
Definition python_only (e : event) : bool :=
  match e with
  | Spawn (program :: _) _ => String.eqb program "python"
  | Spawn [] _ => false
  | _ => true
  end.

(** The event is no start of a command whose second word is [name]
    (for [python name ...], the script). *)
Definition not_running (name : string) (e : event) : bool :=
  match e with
  | Spawn (_ :: word :: _) _ => negb (String.eqb word name)
  | _ => true
  end.

(** Every event [s] adds satisfies [allowed]. *)
Definition confined {A : Type} (allowed : event -> bool) (s : script A) : Prop :=
  forall sys h,
    Forall (fun e => allowed e = true) h ->
    Forall (fun e => allowed e = true) (snd (s sys h)).

(** A machine on which every command exits with status 0, and the file
    [present], and nothing else, exists. *)
Definition obliging (present : string) : os :=
  OS (fun _ _ _ => Ok 0%Z) (fun _ _ => false)
     (fun _ path => String.eqb path present) "/work" (fun _ => None).

End Trace.

(** ** The dictionary of timings

    Both drivers keep a dict [timings] of clock readings, turn every pair
    [<step>_start], [<step>_end] into the duration [<step>] and write the
    dict to [timings.json] (GigaPose/pipeline.py, lines 104-118 and
    268-283; FoundationPose/pipeline.py, lines 150-170 and 273-286). *)

Module Timings.

Import Argparse.
Local Open Scope string_scope.
Local Open Scope R_scope.

(** A dict with string keys: its items in insertion order, every key
    once. *)
Definition dict : Type := list (string * json).

(** [d[key] = v]: the value of a key the dict holds is replaced where it
    stands, a new key goes to the end. *)
Fixpoint setitem (d : dict) (key : string) (v : json) : dict :=
  match d with
  | [] => [(key, v)]
  | (k, x) :: rest =>
      if String.eqb k key then (k, v) :: rest else (k, x) :: setitem rest key v
  end.

(** [del d[key]]. *)
Definition delitem (d : dict) (key : string) : result dict :=
  match Py.dict_get d key with
  | None => Raise KeyError
  | Some _ => Ok (filter (fun kv => negb (String.eqb (fst kv) key)) d)
  end.

(** The dict [json.load] builds from the members of an object: a name
    given twice keeps its last value. *)
Definition of_members (fields : list (string * json)) : dict :=
  fold_left (fun d kv => setitem d (fst kv) (snd kv)) fields [].

(** The first subscript assignment on what [json.load] returned: only a
    dict supports [timings[key] = value] with a string key. *)
Definition as_dict (v : json) : result dict :=
  match v with
  | JObj fields => Ok (of_members fields)
  | _ => Raise TypeError
  end.

(** [a - b] and [a + b] on values of the dict: both operands have to be
    numbers ([a + b] is only used with a float [a]). *)
Definition sub (a b : json) : result json :=
  do x <- Py.number a;
  do y <- Py.number b;
  Ok (JNum (x - y)).

Definition add (a b : json) : result json :=
  do x <- Py.number a;
  do y <- Py.number b;
  Ok (JNum (x + y)).

(** [s.endswith(suffix)]. *)
Fixpoint endswith (suffix s : string) : bool :=
  String.eqb suffix s ||
  match s with
  | EmptyString => false
  | String _ rest => endswith suffix rest
  end.

(** [key[:-6]]. *)
Definition but_last_six (key : string) : string :=
  String.substring 0 (String.length key - 6) key.

(** The loop over [list(timings.keys())]: [keys] is what is left of the
    list, [d] the dict as it stands. *)
Fixpoint collapse_keys (keys : list string) (d : dict) : result dict :=
  match keys with
  | [] => Ok d
  | key :: rest =>
      if endswith "_start" key then
        let step := but_last_six key in
        do stop <- Py.dict_item d (step ++ "_end");
        do start <- Py.dict_item d (step ++ "_start");
        do dur <- sub stop start;
        let d := setitem d step dur in
        do d <- delitem d (step ++ "_start");
        do d <- delitem d (step ++ "_end");
        collapse_keys rest d
      else collapse_keys rest d
  end.

Definition collapse (d : dict) : result dict := collapse_keys (map fst d) d.

(** Every key [<step>_start] of [d] comes with a key [<step>_end], both
    hold numbers, and [<step>] is not itself the name of a start or of an
    end. *)
Definition paired (d : dict) : Prop :=
  forall step,
    Py.dict_get d (step ++ "_start") <> None ->
    (exists b e, Py.dict_get d (step ++ "_start") = Some (JNum b) /\
                 Py.dict_get d (step ++ "_end") = Some (JNum e)) /\
    endswith "_start" step = false /\ endswith "_end" step = false.

(** The dict [c] is [d] with the pairs whose start is among the keys
    [done] turned into durations: the duration is there, the start and
    the end are gone, every other key is as in [d]. *)
Definition settled (d : dict) (done : list string) (c : dict) : Prop :=
  (forall step b e,
      In (step ++ "_start") done ->
      Py.dict_get d (step ++ "_start") = Some (JNum b) ->
      Py.dict_get d (step ++ "_end") = Some (JNum e) ->
      Py.dict_get c step = Some (JNum (e - b))) /\
  (forall step,
      In (step ++ "_start") done ->
      Py.dict_get c (step ++ "_start") = None /\
      Py.dict_get c (step ++ "_end") = None) /\
  (forall key,
      ~ In (key ++ "_start") done ->
      (forall step, In (step ++ "_start") done ->
                    key <> step ++ "_start" /\ key <> step ++ "_end") ->
      Py.dict_get c key = Py.dict_get d key).

(** The total run time, to which a run that is not the primary one adds
    two durations of the primary run. *)
Definition totals (test_all_primary : value) (elapsed : R) (d : dict) : result dict :=
  let d := setitem d "total" (JNum elapsed) in
  if is_False_or_text test_all_primary then
    do total <- Py.dict_item d "total";
    do segmentation <- Py.dict_item d "instance_segmentation";
    do total <- add total segmentation;
    let d := setitem d "total" total in
    do total <- Py.dict_item d "total";
    do templates <- Py.dict_item d "copy_templates";
    do total <- add total templates;
    Ok (setitem d "total" total)
  else Ok d.

(** The dict the run starts with: empty, or what [json.load] returned
    for the timings of the primary run; a value that is no dict fails at
    the first assignment. *)
Definition initial (loaded : option json) : result dict :=
  match loaded with
  | None => Ok []
  | Some v => as_dict v
  end.

(** The readings of [time.time()] in a run of the GigaPose driver, named
    after the line that takes them. *)
Record gigapose_clock : Type := GigaPoseClock {
  g114 : R; g118 : R; g204 : R; g209 : R; g216 : R; g232 : R; g266 : R; g279 : R
}.

(** What [main] of the GigaPose driver does to [timings], statement by
    statement; [loaded] is what line 111 read, if it was run. *)
Definition gigapose_timings (test_all_primary : value) (loaded : option json)
    (t : gigapose_clock) : result dict :=
  do d <- initial loaded;
  let d := setitem d "copy_input_start" (JNum (g118 t)) in
  let d := setitem d "copy_input_end" (JNum (g204 t)) in
  let d := if is_True test_all_primary then
             let d := setitem d "instance_segmentation_start" (JNum (g209 t)) in
             setitem d "instance_segmentation_end" (JNum (g216 t))
           else d in
  let d := setitem d "pose_estimation_start" (JNum (g232 t)) in
  let d := setitem d "pose_estimation_end" (JNum (g266 t)) in
  do d <- collapse d;
  totals test_all_primary (g279 t - g114 t) d.

(** The same for the FoundationPose driver. *)
Record foundationpose_clock : Type := FoundationPoseClock {
  f152 : R; f170 : R; f193 : R; f196 : R; f211 : R; f216 : R; f226 : R;
  f257 : R; f260 : R; f271 : R; f282 : R
}.

Definition foundationpose_timings (test_all_primary : value) (loaded : option json)
    (t : foundationpose_clock) : result dict :=
  do d <- initial loaded;
  let d := setitem d "copy_input_start" (JNum (f170 t)) in
  let d := setitem d "copy_input_end" (JNum (f193 t)) in
  let d := if is_True test_all_primary then
             let d := setitem d "copy_templates_start" (JNum (f196 t)) in
             setitem d "copy_templates_end" (JNum (f211 t))
           else d in
  let d := if is_True test_all_primary then
             let d := setitem d "instance_segmentation_start" (JNum (f216 t)) in
             setitem d "instance_segmentation_start" (JNum (f226 t))
           else d in
  let d := if is_True test_all_primary then
             setitem d "instance_segmentation_end" (JNum (f257 t))
           else d in
  let d := setitem d "pose_estimation_start" (JNum (f260 t)) in
  let d := setitem d "pose_estimation_end" (JNum (f271 t)) in
  do d <- collapse d;
  totals test_all_primary (f282 t - f152 t) d.

End Timings.

(** ** The session of a gateway

    [handler] and the functions that stage a request
    (GigaPose/websocket.py, lines 163-276; MegaPose/websocket_server.py,
    lines 146-247; OVE6D/websocket_server.py, lines 122-222).  The three
    gateways differ in one place: only the GigaPose gateway copies the
    mesh of the object. *)

Module Session.

Import PoseMath.
Local Open Scope string_scope.

(** A message of the connection: [str] or [bytes]. *)
Inductive frame : Type :=
| Text (s : string)
| Binary (b : list Byte.byte).

(** What a session does to the outside. *)
Inductive action : Type :=
| Print (line : string)
| MakeDirs (path : string)
| WriteBytes (path : string) (content : list Byte.byte)
| WriteText (path : string) (content : string)
| DumpJson (path : string) (content : json)
| Copy (src dst : string)
| Send (pose : reply).

(** What the session uses of its surroundings: the address of the client
    as it is printed, [json.loads], [np.array(x, np.float32).reshape((3,3))],
    the format [{v:.18E}], [os.path.isfile] and [estimate_pose] at the
    time of the request number [n]. *)
Record host : Type := Host {
  remote_address : string;
  json_loads : string -> result json;
  camK_array : json -> result mat3;
  format_18E : R -> string;
  isfile : nat -> string -> bool;
  estimate_pose : nat -> string -> string -> option string -> option string -> result reply
}.

(** A piece of the session: what it did, and its result or the exception
    that ended it. *)
Definition io (A : Type) : Type := (list action * result A)%type.

Definition pure {A : Type} (a : A) : io A := ([], Ok a).

Definition and_then {A B : Type} (m : io A) (k : A -> io B) : io B :=
  match m with
  | (done, Ok a) => let (more, r) := k a in ((done ++ more)%list, r)
  | (done, Raise e) => (done, Raise e)
  end.

Definition perform (a : action) : io unit := ([a], Ok tt).

Definition lift {A : Type} (r : result A) : io A := ([], r).

Notation "'let!' x ':=' m 'in' k" := (and_then m (fun x => k))
  (at level 10, x name, m at level 100, k at level 200).

(** [posixpath.join]. *)
Definition join2 (path b : string) : string :=
  if PyStr.startswith "/" b then b
  else if PyStr.is_empty path || Timings.endswith "/" path then path ++ b
  else path ++ "/" ++ b.

Definition os_path_join (a : string) (parts : list string) : string :=
  fold_left join2 parts a.

Definition EXPORT_ROOT : string := "../SharedData/WebsocketData".
Definition MODEL_SOURCE_ROOT : string := "../SharedData/ObjectModels".

(** The truth value of what [hdr.get] returned. *)
Definition truth (v : option json) : bool :=
  match v with
  | None | Some JNull => false
  | Some (JBool b) => b
  | Some (JNum r) => if Req_dec_T r 0 then false else true
  | Some (JStr s) => negb (PyStr.is_empty s)
  | Some (JArr items) => match items with [] => false | _ => true end
  | Some (JObj fields) => match fields with [] => false | _ => true end
  end.

(** A value as an argument of the pipeline command: anything but a string
    makes [subprocess.run] raise [TypeError], as [None] does. *)
Definition argument (v : option json) : option string :=
  match v with
  | Some (JStr s) => Some s
  | _ => None
  end.

(** [hdr[key]] and [hdr.get(key)]. *)
Definition subscript (v : json) (key : string) : result json :=
  match v with
  | JObj fields => Py.dict_item fields key
  | _ => Raise TypeError
  end.

Definition get (v : json) (key : string) : result (option json) :=
  match v with
  | JObj fields => Ok (Py.dict_get fields key)
  | _ => Raise AttributeError
  end.

(** [with open(path, "wb") as f: f.write(msg)]: the file is created, and
    writing a [str] to it raises [TypeError]. *)
Definition write_bytes (path : string) (msg : frame) : io unit :=
  match msg with
  | Binary b => perform (WriteBytes path b)
  | Text _ => let! _ := perform (WriteBytes path []) in lift (Raise TypeError)
  end.

(** [with open(path, "w") as f: f.write(v)] for a value of the header. *)
Definition write_text (path : string) (v : option json) : io unit :=
  match v with
  | Some (JStr s) => perform (WriteText path s)
  | _ => let! _ := perform (WriteText path "") in lift (Raise TypeError)
  end.

Definition rows (K : mat3) : list (list R) :=
  [ [m00 K; m01 K; m02 K]; [m10 K; m11 K; m12 K]; [m20 K; m21 K; m22 K] ].

(** [save_sam6d_raw]. *)
Definition save_sam6d_raw (folder : string) (rgb depth : frame) (camK : mat3) : io unit :=
  let root := os_path_join folder ["SAM6D"] in
  let! _ := perform (MakeDirs root) in
  let! _ := write_bytes (os_path_join root ["rgb.png"]) rgb in
  let! _ := write_bytes (os_path_join root ["depth.png"]) depth in
  let cam_data := JObj [("cam_K", JArr (nums (flatten camK))); ("depth_scale", JNum 1)] in
  perform (DumpJson (os_path_join root ["camera.json"]) cam_data).

(** The end of [save_foundation_raw] in the GigaPose gateway (lines
    186-197). *)
Definition copy_mesh (h : host) (n : nat) (root : string) (object_type : option json)
  : io unit :=
  if truth object_type then
    match object_type with
    | Some (JStr name) =>
        let src_mesh := os_path_join MODEL_SOURCE_ROOT [name; "model"; "obj_000001.ply"] in
        let dst_mesh_dir := os_path_join root ["mesh"] in
        if isfile h n src_mesh then
          let! _ := perform (Copy src_mesh dst_mesh_dir) in
          perform (Print ("[server] copied mesh for '" ++ name ++ "'"))
        else
          perform (Print ("[server] WARNING: mesh for '" ++ name ++ "' not found at "
                          ++ src_mesh))
    | _ => lift (Raise TypeError)
    end
  else perform (Print "[server] WARNING: no objectType in header; skipping mesh copy").

(** [save_foundation_raw]; [with_mesh] tells the GigaPose gateway from
    the other two. *)
Definition save_foundation_raw (with_mesh : bool) (h : host) (n : nat)
    (folder : string) (rgb depth : frame) (camK : mat3)
    (image_id : string) (object_type : option json) : io unit :=
  let root := os_path_join folder ["FoundationPose"] in
  let! _ := perform (MakeDirs (os_path_join root ["rgb"])) in
  let! _ := perform (MakeDirs (os_path_join root ["depth"])) in
  let! _ := perform (MakeDirs (os_path_join root ["masks"])) in
  let! _ := perform (MakeDirs (os_path_join root ["mesh"])) in
  let fn := image_id ++ ".png" in
  let! _ := write_bytes (os_path_join root ["rgb"; fn]) rgb in
  let! _ := write_bytes (os_path_join root ["depth"; fn]) depth in
  let! _ := perform (WriteText (os_path_join root ["cam_K.txt"])
                       (Stager.cam_K_text (format_18E h) (rows camK))) in
  if with_mesh then copy_mesh h n root object_type else pure tt.

(** [save_megapose_raw]; the resolution is [[targetHeight, targetWidth]]. *)
Definition save_megapose_raw (folder : string) (rgb depth : frame) (camK : mat3) : io unit :=
  let root := os_path_join folder ["MegaPose"] in
  let! _ := perform (MakeDirs (os_path_join root ["inputs"])) in
  let! _ := perform (MakeDirs (os_path_join root ["meshes"])) in
  let! _ := write_bytes (os_path_join root ["inputs"; "image_rgb.png"]) rgb in
  let! _ := write_bytes (os_path_join root ["inputs"; "image_depth.png"]) depth in
  let! _ := write_bytes (os_path_join root ["image_rgb.png"]) rgb in
  let! _ := write_bytes (os_path_join root ["image_depth.png"]) depth in
  let cam_json := JObj [("K", JArr (map (fun row => JArr (nums row)) (rows camK)));
                        ("resolution", JArr (nums [480; 640]%R))] in
  perform (DumpJson (os_path_join root ["camera_data.json"]) cam_json).

(** [save_gt]. *)
Definition save_gt (folder : string) (scene_gt_json scene_gt_info_json : option json)
  : io unit :=
  let root := os_path_join folder ["GT"] in
  let! _ := perform (MakeDirs root) in
  let! _ := if truth scene_gt_json
            then write_text (os_path_join root ["scene_gt.json"]) scene_gt_json
            else perform (Print "[server] WARNING: no sceneGtJson in header") in
  if truth scene_gt_info_json
  then write_text (os_path_join root ["scene_gt_info.json"]) scene_gt_info_json
  else perform (Print "[server] WARNING: no sceneGtInfoJson in header").

(** The loop of [handler]: [frames] is what the client still sends before
    it closes the connection, [n] counts the requests read so far;
    [ws.recv()] on a closed connection raises [ConnectionClosed], which
    [handler] catches. *)
Fixpoint serve (with_mesh : bool) (h : host) (n : nat) (frames : list frame) : io unit :=
  match frames with
  | [] => perform (Print "[server] Client disconnected")
  | Binary _ :: _ => perform (Print "[server] expected header text, got bytes")
  | Text hdr_msg :: after_header =>
      let! hdr := lift (json_loads h hdr_msg) in
      let! camK := lift (subscript hdr "camK") in
      let! camK := lift (camK_array h camK) in
      let img_id := "000000" in
      match after_header with
      | rgb_bytes :: depth_bytes :: rest =>
          let img_root := os_path_join EXPORT_ROOT [img_id] in
          let! _ := perform (MakeDirs img_root) in
          let scene_folder := os_path_join img_root ["0"] in
          let! _ := perform (MakeDirs scene_folder) in
          let! object_type := lift (get hdr "objectType") in
          let! scene_name := lift (get hdr "sceneName") in
          let! _ := save_sam6d_raw scene_folder rgb_bytes depth_bytes camK in
          let! _ := save_foundation_raw with_mesh h n scene_folder rgb_bytes depth_bytes
                      camK img_id object_type in
          let! _ := save_megapose_raw scene_folder rgb_bytes depth_bytes camK in
          let! scene_gt_json := lift (get hdr "sceneGtJson") in
          let! scene_gt_info_json := lift (get hdr "sceneGtInfoJson") in
          let! _ := save_gt scene_folder scene_gt_json scene_gt_info_json in
          let! pose := lift (estimate_pose h n img_root img_id
                               (argument object_type) (argument scene_name)) in
          let! _ := perform (Send pose) in
          serve with_mesh h (S n) rest
      | _ => perform (Print "[server] Client disconnected")
      end
  end.

(** [handler]. *)
Definition handler (with_mesh : bool) (h : host) (frames : list frame) : io unit :=
  let! _ := perform (Print ("[server] Client connected: " ++ remote_address h)) in
  serve with_mesh h 0 frames.

(** The replies a session sent, in order. *)
Fixpoint replies (done : list action) : list reply :=
  match done with
  | [] => []
  | Send pose :: rest => pose :: replies rest
  | _ :: rest => replies rest
  end.

(** The path an action creates or writes to, if any. *)
Definition target (a : action) : option string :=
  match a with
  | MakeDirs path | WriteBytes path _ | WriteText path _ | DumpJson path _ => Some path
  | Copy _ dst => Some dst
  | Print _ | Send _ => None
  end.

(** The action touches nothing outside the folder of the request. *)
Definition staged (a : action) : bool :=
  match target a with
  | Some path => PyStr.startswith "../SharedData/WebsocketData/000000" path
  | None => true
  end.

End Session.

(** ** Meshes and their bounding boxes

    [compute_model_info] (Debug/calculate_model_info.py, lines 9-30) and
    the corners and the projection of the display scripts
    (OVE6D/display_result.py, lines 12-17, 59-68 and 86-91; the same text
    in GigaPose/display_result.py). *)

Module Mesh.

Local Open Scope R_scope.

(** A row of an array of shape (N, 3). *)
Definition point : Type := (R * R * R)%type.

Definition px (p : point) : R := fst (fst p).
Definition py (p : point) : R := snd (fst p).
Definition pz (p : point) : R := snd p.

(** [a.min()] and [a.max()] of a one-dimensional array: an empty array
    has no minimum. *)
Definition np_min (a : list R) : result R :=
  match a with
  | [] => Raise ValueError
  | x :: rest => Ok (fold_left Rmin rest x)
  end.

Definition np_max (a : list R) : result R :=
  match a with
  | [] => Raise ValueError
  | x :: rest => Ok (fold_left Rmax rest x)
  end.

(** [verts.min(axis=0)] and [verts.max(axis=0)]. *)
Definition min_axis0 (verts : list point) : result point :=
  do x <- np_min (map px verts);
  do y <- np_min (map py verts);
  do z <- np_min (map pz verts);
  Ok (x, y, z).

Definition max_axis0 (verts : list point) : result point :=
  do x <- np_max (map px verts);
  do y <- np_max (map py verts);
  do z <- np_max (map pz verts);
  Ok (x, y, z).

(** The dict [compute_model_info] returns. *)
Record info : Type := Info {
  diameter : R;
  min_x : R; min_y : R; min_z : R;
  size_x : R; size_y : R; size_z : R
}.

(** [np.linalg.norm] of a vector of three. *)
Definition norm (v : point) : R := sqrt (px v * px v + py v * py v + pz v * pz v).

Definition compute_model_info (verts : list point) : result info :=
  do mn <- min_axis0 verts;
  do mx <- max_axis0 verts;
  let size := (px mx - px mn, py mx - py mn, pz mx - pz mn) in
  let diameter := norm size in
  Ok (Info diameter (px mn) (py mn) (pz mn) (px size) (py size) (pz size)).

Definition compute_model_info_mm (verts : list point) : result info :=
  do mn <- min_axis0 verts;
  do mx <- max_axis0 verts;
  let size := (px mx - px mn, py mx - py mn, pz mx - pz mn) in
  let diameter := norm size in
  Ok (Info (diameter * 1000)
           (px mn * 1000) (py mn * 1000) (pz mn * 1000)
           (px size * 1000) (py size * 1000) (pz size * 1000)).

(** The distance of two points. *)
Definition distance (p q : point) : R :=
  norm (px p - px q, py p - py q, pz p - pz q).

(** The eight corners [load_mesh] computes, in the order of its
    comprehension: [x] outermost, [z] innermost. *)
Definition corners_of (mn mx : point) : list point :=
  flat_map (fun x =>
    flat_map (fun y =>
      map (fun z => (x, y, z)) [pz mn; pz mx])
      [py mn; py mx])
    [px mn; px mx].

Definition aabb_corners (verts : list point) : result (list point) :=
  do mn <- min_axis0 verts;
  do mx <- max_axis0 verts;
  Ok (corners_of mn mx).

(** The pairs of corner indices the display scripts join by a line. *)
Definition BOX_EDGES : list (nat * nat) :=
  [ (0, 1); (1, 3); (3, 2); (2, 0);
    (4, 5); (5, 7); (7, 6); (6, 4);
    (0, 4); (1, 5); (2, 6); (3, 7) ]%nat.

(** An edge, whichever end is named first. *)
Definition unordered (e : nat * nat) : nat * nat :=
  (Nat.min (fst e) (snd e), Nat.max (fst e) (snd e)).

(** The segment from [p] to [q] runs along one axis of the box from
    [mn] to [mx]: the two points agree in two coordinates and hold the
    two bounds in the third. *)
Definition box_edge (mn mx p q : point) : Prop :=
  (py p = py q /\ pz p = pz q /\
   ((px p = px mn /\ px q = px mx) \/ (px p = px mx /\ px q = px mn))) \/
  (px p = px q /\ pz p = pz q /\
   ((py p = py mn /\ py q = py mx) \/ (py p = py mx /\ py q = py mn))) \/
  (px p = px q /\ py p = py q /\
   ((pz p = pz mn /\ pz q = pz mx) \/ (pz p = pz mx /\ pz q = pz mn))).

(** Arrays as lists of rows. *)
Definition dot (a b : list R) : R :=
  fold_right Rplus 0 (map (fun ab => fst ab * snd ab) (combine a b)).

Definition column (j : nat) (M : list (list R)) : list R :=
  map (fun row => nth j row 0) M.

(** [A @ B] for [B] with [n] columns, and [A @ v]. *)
Definition matmul (n : nat) (A B : list (list R)) : list (list R) :=
  map (fun row => map (fun j => dot row (column j B)) (seq 0 n)) A.

Definition matvec (A : list (list R)) (v : list R) : list R :=
  map (fun row => dot row v) A.

(** [np.eye(3, 4)]. *)
Definition eye_3_4 : list (list R) :=
  [ [1; 0; 0; 0]; [0; 1; 0; 0]; [0; 0; 1; 0] ].

(** [project_pts]: the rows of [pts3] in homogeneous coordinates, times
    [K @ np.eye(3,4)], divided by their third component.  numpy's
    division does not raise: where it yields inf or nan the model has the
    value of the total division of the real numbers. *)
Definition project_pts (K : list (list R)) (pts3 : list point) : list (R * R) :=
  let P := matmul 4 K eye_3_4 in
  map (fun p =>
         let homo := [px p; py p; pz p; 1] in
         let proj := matvec P homo in
         (nth 0 proj 0 / nth 2 proj 0, nth 1 proj 0 / nth 2 proj 0))
      pts3.

End Mesh.

(** ** The targets of the BOP conversion

    What [main] of OVE6D/convert_to_bopm.py (lines 30-142) does to
    [all_test_images] and [gt_entries], and the list [test_targets] it
    builds from them (lines 96-111 and 130-134). *)

Module Bopm.

Local Open Scope string_scope.
Local Open Scope Z_scope.

(** A scene folder: [int(scene.name)] and the numbers [int(p.stem)] of
    its images, in the order [glob] yields them. *)
Definition scene : Type := (Z * list Z)%type.

(** The placeholder [main] appends for every image. *)
Definition gt_placeholder : json :=
  JObj [ ("cam_R_m2c", JArr (nums [1; 0; 0; 0; 1; 0; 0; 0; 1]%R));
         ("cam_t_m2c", JArr (nums [0; 0; 0]%R));
         ("obj_id", JNum 1) ].

(** [gt_entries]: the keys are [str(im_id)], written here as the number
    itself ([str] is one-to-one on integers). *)
Definition entries : Type := list (Z * list json).

Fixpoint lookup (d : entries) (key : Z) : result (list json) :=
  match d with
  | [] => Raise KeyError
  | (k, v) :: rest => if k =? key then Ok v else lookup rest key
  end.

(** [d.setdefault(key, []).append(v)]. *)
Fixpoint setdefault_append (d : entries) (key : Z) (v : json) : entries :=
  match d with
  | [] => [(key, [v])]
  | (k, l) :: rest =>
      if k =? key then (k, (l ++ [v])%list) :: rest
      else (k, l) :: setdefault_append rest key v
  end.

(** The loop over the images of one scene (lines 96-111), and the loop
    over the scenes. *)
Definition add_images (sid : Z) (img_ids : list Z)
    (state : list (Z * Z) * entries) : list (Z * Z) * entries :=
  fold_left (fun st im_id =>
               ((fst st ++ [(sid, im_id)])%list,
                setdefault_append (snd st) im_id gt_placeholder))
            img_ids state.

Definition scan (scenes : list scene) : list (Z * Z) * entries :=
  fold_left (fun st sc => add_images (fst sc) (snd sc) st) scenes ([], []).

Record target : Type := Target {
  scene_id : Z;
  im_id : Z;
  inst_count : nat;
  obj_id : Z
}.

(** [test_targets] (lines 130-133). *)
Definition test_targets (scenes : list scene) : result (list target) :=
  let (all_test_images, gt_entries) := scan scenes in
  mapM (fun image : Z * Z =>
          do found <- lookup gt_entries (snd image);
          Ok (Target (fst image) (snd image) (List.length found) 1))
       all_test_images.

(** The images of all scenes, each with its scene. *)
Definition images (scenes : list scene) : list (Z * Z) :=
  flat_map (fun sc : scene => map (fun im => (fst sc, im)) (snd sc)) scenes.

End Bopm.

(** ** The predictions the OVE6D display script writes

    [main] of OVE6D/display_result.py (lines 177-212) writes
    [outputs/predictions.csv], the file [estimate_pose] of the OVE6D
    gateway reads: a header and one row. *)

Module Predictions.

Local Open Scope string_scope.
Local Open Scope R_scope.

Definition csv_header : list string :=
  ["scene_id"; "im_id"; "obj_id"; "score"; "R"; "t"; "time"].

(** The row: [R] is [R_mat.reshape(-1).tolist()], [t_vec] the
    translation, which is written times 1000; [fmt8] and [fmt6] are the
    formats [{v:.8f}] and [{v:.6f}], and the three ids are written as
    [csv.writer] writes them. *)
Definition csv_row (fmt8 fmt6 : R -> string) (scene_id im_id obj_id : string)
    (R t_vec : list R) : list string :=
  let t := map (fun v => v * 1000.0) t_vec in
  let score := "0" in
  let time_ := "0" in
  let R_str := PyStr.join " " (map fmt8 R) in
  let t_str := PyStr.join " " (map fmt6 t) in
  [scene_id; im_id; obj_id; score; R_str; t_str; time_].

(** What [csv.DictReader] yields for a file [csv.writer] wrote from a
    header and rows of as many fields: one dict per row, the fields under
    the names of the header. *)
Definition dict_rows (header : list string) (rows : list (list string))
  : list (list (string * option string)) :=
  map (fun row => combine header (map Some row)) rows.

End Predictions.

(** ** The scenes of the BOP conversion

    [gather_scenes] (OVE6D/convert_to_bopm.py, lines 22-23). *)

Module Scenes.

Import PyStr.
Local Open Scope string_scope.
Local Open Scope Z_scope.

(** Decimal digits in which single underscores may stand between two
    digits; [after_digit] tells whether the character before was a
    digit. *)
Fixpoint read_int (acc : Z) (after_digit : bool) (s : string) : option Z :=
  match s with
  | EmptyString => if after_digit then Some acc else None
  | String c rest =>
      match digit_of c with
      | Some d => read_int (10 * acc + d) true rest
      | None =>
          if Ascii.eqb c "_" && after_digit then read_int acc false rest else None
      end
  end.

(** [int(s)]: white space around, an optional sign, and the digits.
    [None] stands for [ValueError]. *)
Definition py_int (s : string) : option Z :=
  let (negative, body) := read_sign (strip s) in
  match read_int 0 false body with
  | Some v => Some (if negative then - v else v)
  | None => None
  end.

(** [sorted(l, key=...)] on items paired with their keys: the sort is
    stable. *)
Fixpoint insert (x : Z * string) (l : list (Z * string)) : list (Z * string) :=
  match l with
  | [] => [x]
  | y :: rest => if fst x <=? fst y then x :: y :: rest else y :: insert x rest
  end.

Definition sorted (l : list (Z * string)) : list (Z * string) :=
  fold_right insert [] l.

(** [gather_scenes]: [listing] is what [Path(input_dir).iterdir()]
    yields, each name with whether it is a directory. *)
Definition gather_scenes (listing : list (string * bool)) : result (list string) :=
  let dirs := map fst (filter snd listing) in
  do keyed <- mapM (fun name => match py_int name with
                                | Some k => Ok (k, name)
                                | None => Raise ValueError
                                end) dirs;
  Ok (map snd (sorted keyed)).

End Scenes.

(** ** The template step of the FoundationPose driver

    The parser of [main] (FoundationPose/pipeline.py, lines 123-148), the
    helpers [copy_tree] and [copy_file] (lines 19-32) and the step that
    renders or copies the templates (lines 195-211). *)

Module FoundationPoseMain.

Import Script Driver Argparse.
Local Open Scope string_scope.

Definition parser : list argument :=
  [ Argument "-h" help VNone;
    Argument "--help" help VNone;
    Argument "--export_root" store (VStr "../SharedData/WebsocketData/000000/0/");
    Argument "--example_root" store (VStr "./Data/Example");
    Argument "--cad" store (VStr "obj_000001.ply");
    Argument "--object_type" store (VStr "crankcase");
    Argument "--raw_models" store (VStr "../SharedData/ObjectModels");
    Argument "--novel" store (VBool false);
    Argument "--scene_name" store (VStr "Default");
    Argument "--visibility" store (VStr "Visibility");
    Argument "--lighting" store (VStr "Lighting");
    Argument "--distance" store (VStr "Distance");
    Argument "--height" store (VStr "Height");
    Argument "--test_all" store (VBool false);
    Argument "--test_all_primary" store (VBool true);
    Argument "--primary_result_file" store VNone ].

(** [copy_tree]. *)
Definition copy_tree (src dst : string) : script unit :=
  found <~ ask (fun sys h => isdir sys h src) ;;
  if negb found then
    emit (Stdout ("[warn] Source not found: " ++ src ++ ", skipping copy"))
  else
    emit (Stdout ("[copy] " ++ src ++ " → " ++ dst)) ;;
    emit (CopyTree src dst).

(** [copy_file]. *)
Definition copy_file (src dst : string) : script unit :=
  found <~ ask (fun sys h => isfile sys h src) ;;
  if negb found then
    emit (Stdout ("[warn] File not found: " ++ src ++ ", skipping"))
  else
    makedirs (dirname dst) ;;
    emit (Stdout ("[copy] " ++ src ++ " → " ++ dst)) ;;
    emit (CopyFile src dst).

(** The command that renders the templates. *)
Definition render_command (dst cad_ply : string) : list string :=
  [ "blenderproc"; "run"; "render/render_templates_optimized.py";
    "--output_dir"; Session.os_path_join dst ["outputs"];
    "--cad_path"; cad_ply;
    "--normalize" ].

(** Lines 195-211; [dst] and [cad_ply] are the variables of [main] of
    these names.  In a primary run the dict of timings is the empty dict
    [main] has created, so the two stamps of the step cannot fail. *)
Definition templates (args : namespace) (dst cad_ply : string) : script unit :=
  if is_True (get args "test_all_primary") then
    if truthy (get args "novel") then
      emit (Stdout (Reference.line_feed ++ "==> Step 3: Render templates via BlenderProc")) ;;
      FoundationPosePipeline.run (render_command dst cad_ply) (Some "Render")
    else
      emit (Stdout (Reference.line_feed
                    ++ "==> Step 3: Copy precomputed segmentation templates")) ;;
      raw_models <~ GigaPosePipeline.text args "raw_models" ;;
      object_type <~ GigaPosePipeline.text args "object_type" ;;
      let src_model_dir :=
        Session.os_path_join raw_models [object_type; "segmentation_templates"] in
      let dst_model_dir := Session.os_path_join dst ["SAM6D"; "outputs"] in
      copy_tree src_model_dir dst_model_dir
  else ret tt.

End FoundationPoseMain.

(** ** What the copy steps of the drivers do

    The events of a step on a file system [file], [dir] that the step
    does not change, written out one after the other. *)

Module Copies.

Import Script Reference.
Local Open Scope string_scope.

(** The segmentation step of the GigaPose driver when it takes the
    instance segmentation from the primary result [primary]
    (GigaPose/pipeline.py, lines 217-229): each of the three files is
    copied if it is there and skipped with a warning otherwise. *)
Definition copied_segmentation (file : string -> bool) (primary : string)
  : list event :=
  let ism := PyStr.path_join [primary; "Pose"; "InstanceSegmentation.json"] in
  let mask := PyStr.path_join [primary; "Pose"; "MaskISM.png"] in
  let vis := PyStr.path_join [primary; "Visualizaztion"; "VisInstanceSegmentation.png"] in
  ([ Stdout "Copy Segmentation Result" ]
   ++ file_copy (file ism) ism
        "./gigaPose_datasets/datasets/lmo/test/000000/sam6d_results/detection_ism.json"
   ++ file_copy (file mask) mask
        "./gigaPose_datasets/datasets/lmo/test/000000/sam6d_results/mask_ism.png"
   ++ file_copy (file vis) vis
        "./gigaPose_datasets/datasets/lmo/test/000000/sam6d_results/vis_ism.png")%list.

(** The template step of the FoundationPose driver when it copies
    (FoundationPose/pipeline.py, lines 206-210): the folder of the
    segmentation templates of the object is copied if it is there. *)
Definition copied_templates (dir : string -> bool)
    (raw_models object_type dst : string) : list event :=
  let src := Session.os_path_join raw_models [object_type; "segmentation_templates"] in
  let dst_dir := Session.os_path_join dst ["SAM6D"; "outputs"] in
  Stdout (line_feed ++ "==> Step 3: Copy precomputed segmentation templates")
  :: (if dir src then
        [ Stdout ("[copy] " ++ src ++ " → " ++ dst_dir); CopyTree src dst_dir ]
      else [ Stdout ("[warn] Source not found: " ++ src ++ ", skipping copy") ]).

End Copies.
(** * Properties of the pose math *)

Section PoseMathFacts.

Import PoseMath Shepperd.
Local Open Scope R_scope.

Lemma dec_half : 0.5 = / 2. Proof. lra. Qed.
Lemma dec_quarter : 0.25 = / 4. Proof. lra. Qed.
Lemma dec_one : 1.0 = 1. Proof. lra. Qed.
Lemma dec_two : 2.0 = 2. Proof. lra. Qed.

(** Splits an equation between two replies into its components. *)
Ltac entries :=
  repeat match goal with
         | |- Ok _ = Ok _ => apply f_equal
         | |- cons _ _ = cons _ _ => apply f_equal2
         | |- nil = nil => reflexivity
         end.

Lemma sqrt_4 : sqrt 4 = 2.
Proof. replace 4 with (2 * 2) by ring. apply sqrt_square; lra. Qed.

Lemma Rgtb_true (a b : R) : a > b -> Rgtb a b = true.
Proof. intros H. unfold Rgtb. destruct (Rgt_dec a b); [reflexivity | contradiction]. Qed.

Lemma Rgtb_false (a b : R) : a <= b -> Rgtb a b = false.
Proof. intros H. unfold Rgtb. destruct (Rgt_dec a b); [lra | reflexivity]. Qed.

Lemma py_div_nonzero (a b : R) : b <> 0 -> py_div a b = Ok (a / b).
Proof. intros H. unfold py_div. destruct (Req_dec_T b 0); [contradiction | reflexivity]. Qed.

Lemma py_div_zero (a : R) : py_div a 0 = Raise ZeroDivisionError.
Proof. unfold py_div. destruct (Req_dec_T 0 0) as [_|N]; [reflexivity | now elim N]. Qed.

(** A sum of four squares vanishes only at the origin. *)
Lemma norm2_zero (x y z w : R) :
  x*x + y*y + z*z + w*w = 0 -> x = 0 /\ y = 0 /\ z = 0 /\ w = 0.
Proof. intros H. repeat split; nra. Qed.

Lemma norm_positive (x y z w : R) :
  x*x + y*y + z*z + w*w <> 0 -> 0 < sqrt (x*x + y*y + z*z + w*w).
Proof. intros H. apply sqrt_lt_R0. nra. Qed.

(** On a quaternion that is not the origin, [quat_to_rotm] expands the
    quaternion divided by its norm. *)
Lemma quat_to_rotm_nonzero (x y z w : R) :
  x*x + y*y + z*z + w*w <> 0 ->
  let n := sqrt (x*x + y*y + z*z + w*w) in
  quat_to_rotm [x; y; z; w] = Ok (expand (x / n) (y / n) (z / n) (w / n)).
Proof.
  intros H n. pose proof (norm_positive H) as Hn. fold n in Hn.
  unfold quat_to_rotm. fold n.
  rewrite !py_div_nonzero by lra. reflexivity.
Qed.

Lemma quat_to_rotm_unit (x y z w : R) :
  x*x + y*y + z*z + w*w = 1 ->
  quat_to_rotm [x; y; z; w] = Ok (expand x y z w).
Proof.
  intros Hn. rewrite quat_to_rotm_nonzero by lra.
  rewrite Hn, sqrt_1. unfold expand, Rdiv. rewrite Rinv_1, !Rmult_1_r. reflexivity.
Qed.

(** The quaternion divided by its norm has norm one. *)
Lemma normalized_unit (x y z w : R) :
  x*x + y*y + z*z + w*w <> 0 ->
  let n := sqrt (x*x + y*y + z*z + w*w) in
  (x/n)*(x/n) + (y/n)*(y/n) + (z/n)*(z/n) + (w/n)*(w/n) = 1.
Proof.
  intros H n. pose proof (norm_positive H) as Hn. fold n in Hn.
  assert (Hs : n * n = x*x + y*y + z*z + w*w) by (apply sqrt_sqrt; nra).
  field_simplify_eq; [|lra]. cbn [pow]. lra.
Qed.

(** A quaternion and its opposite give the same matrix. *)
Lemma quat_to_rotm_opp (x y z w : R) :
  quat_to_rotm [- x; - y; - z; - w] = quat_to_rotm [x; y; z; w].
Proof.
  destruct (Req_dec_T (x*x + y*y + z*z + w*w) 0) as [E|N].
  - apply norm2_zero in E. destruct E as (-> & -> & -> & ->).
    rewrite Ropp_0. reflexivity.
  - rewrite (quat_to_rotm_nonzero N).
    assert (N' : - x * - x + - y * - y + - z * - z + - w * - w <> 0)
      by (intros E; apply N; lra).
    rewrite (quat_to_rotm_nonzero N').
    replace (- x * - x + - y * - y + - z * - z + - w * - w)
      with (x*x + y*y + z*z + w*w) by ring.
    pose proof (norm_positive N) as Hn.
    unfold expand. entries; field; lra.
Qed.

Ltac decimals := rewrite ?dec_half, ?dec_quarter, ?dec_one, ?dec_two in *.

Ltac rot_fields HR :=
  destruct HR as [H1 H2 H3 H4 H5 H6 HD]; unfold det in HD; simpl in *.

Ltac radical r e :=
  set (r := sqrt e);
  assert (Hr : r * r = e) by (unfold r; rewrite sqrt_sqrt; lra);
  assert (Hr0 : 0 < r) by (apply sqrt_lt_R0; lra).

Ltac close_branch :=
  rewrite quat_to_rotm_unit;
  [ unfold flatten, expand; simpl; entries;
    (field_simplify_eq; [|lra]); cbn [pow]; nsatz
  | (field_simplify_eq; [|lra]); cbn [pow]; nsatz ].

Lemma roundtrip_trace M :
  is_rotation M -> m00 M + m11 M + m22 M > 0 ->
  quat_to_rotm (rotation_matrix_to_quaternion M) = Ok (flatten M).
Proof.
  destruct M as [a b c d e f g h i]. intros HR Ht. rot_fields HR.
  unfold rotation_matrix_to_quaternion; simpl.
  rewrite Rgtb_true by lra. decimals.
  radical r (a + e + i + 1).
  close_branch.
Qed.

Lemma roundtrip_diagonal M :
  is_rotation M -> m00 M + m11 M + m22 M <= 0 ->
  quat_to_rotm (rotation_matrix_to_quaternion M) = Ok (flatten M).
Proof.
  destruct M as [a b c d e f g h i]. intros HR Ht. rot_fields HR.
  unfold rotation_matrix_to_quaternion; simpl.
  rewrite Rgtb_false by lra. decimals.
  unfold Rgtb.
  destruct (Rgt_dec a e) as [Hae|Hae]; [destruct (Rgt_dec a i) as [Hai|Hai]|];
    cbn [andb].
  - radical r (1 + a - e - i). close_branch.
  - destruct (Rgt_dec e i) as [Hei|Hei].
    + radical r (1 + e - a - i). close_branch.
    + radical r (1 + i - a - e). close_branch.
  - destruct (Rgt_dec e i) as [Hei|Hei].
    + radical r (1 + e - a - i). close_branch.
    + radical r (1 + i - a - e). close_branch.
Qed.


Lemma rotation_matrix_to_quaternion_shape (M : mat3) :
  exists x y z w, rotation_matrix_to_quaternion M = [x; y; z; w].
Proof.
  unfold rotation_matrix_to_quaternion.
  destruct (Rgtb _ 0); [|destruct (_ && _); [|destruct (Rgtb _ _)]];
    do 4 eexists; reflexivity.
Qed.

Lemma roundtrip (M : mat3) :
  is_rotation M ->
  quat_to_rotm (rotation_matrix_to_quaternion M) = Ok (flatten M).
Proof.
  intros HR. destruct (Rle_or_lt (m00 M + m11 M + m22 M) 0).
  - now apply roundtrip_diagonal.
  - apply roundtrip_trace; [assumption | lra].
Qed.

Lemma is_rotation_identity : is_rotation (Mat3 1 0 0  0 1 0  0 0 1).
Proof. constructor; unfold det; simpl; ring. Qed.

(** The matrices [axis_angle_rotmat] builds are rotation matrices. *)
Lemma axis_angle_rotmat_is_rotation (axis : string) (angle_deg : R) (M : mat3) :
  axis_angle_rotmat axis angle_deg = Ok M -> is_rotation M.
Proof.
  unfold axis_angle_rotmat. set (theta := angle_deg * (PI / 180)).
  pose proof (sin2_cos2 theta) as Hsc. unfold Rsqr in Hsc.
  intros H.
  destruct (String.eqb axis "x"); [|destruct (String.eqb axis "y");
    [|destruct (String.eqb axis "z")]]; inversion H; subst M;
    constructor; unfold det; simpl; nra.
Qed.

(** C2. For every valid rotation matrix [M] (orthonormal rows, determinant
    one), [quat_to_rotm] applied to [rotation_matrix_to_quaternion M] gives
    back the nine entries of [M], and so does [quat_to_rotm] applied to the
    opposite quaternion; every matrix [axis_angle_rotmat] builds (the
    identity, the quarter, half and three-quarter turns about x, y and z
    among them) is such a matrix.  Numbers are real numbers, so the
    reconstruction is exact. *)
Theorem quat_to_rotm_left_inverse (M : mat3) :
  is_rotation M ->
  quat_to_rotm (rotation_matrix_to_quaternion M) = Ok (flatten M) /\
  quat_to_rotm (map Ropp (rotation_matrix_to_quaternion M)) = Ok (flatten M) /\
  (forall axis angle_deg A,
      axis_angle_rotmat axis angle_deg = Ok A ->
      quat_to_rotm (rotation_matrix_to_quaternion A) = Ok (flatten A)).
Proof.
  intros HR. split; [now apply roundtrip | split].
  - destruct (rotation_matrix_to_quaternion_shape M) as (x & y & z & w & E).
    pose proof (roundtrip HR) as H. rewrite E in *. simpl map.
    now rewrite quat_to_rotm_opp.
  - intros axis angle_deg A HA. apply roundtrip.
    now apply axis_angle_rotmat_is_rotation in HA.
Qed.

Lemma quat_to_rotm_left_inverse_witness :
  quat_to_rotm (rotation_matrix_to_quaternion (Mat3 1 0 0  0 1 0  0 0 1))
  = Ok [1; 0; 0; 0; 1; 0; 0; 0; 1] /\
  (let c := cos (90 * (PI / 180)) in
   let s := sin (90 * (PI / 180)) in
   quat_to_rotm (rotation_matrix_to_quaternion (Mat3 c (- s) 0  s c 0  0 0 1))
   = Ok [c; - s; 0; s; c; 0; 0; 0; 1]).
Proof.
  split.
  - exact (proj1 (quat_to_rotm_left_inverse is_rotation_identity)).
  - exact (proj2 (proj2 (quat_to_rotm_left_inverse is_rotation_identity))
             "z"%string 90 _ eq_refl).
Defined.

(** *** Branch selection *)

Lemma shepperd_by_trace (M : mat3) :
  m00 M + m11 M + m22 M > 0 ->
  rotation_matrix_to_quaternion M = quaternion by_trace M.
Proof.
  intros Ht. unfold rotation_matrix_to_quaternion, quaternion.
  rewrite Rgtb_true by assumption. rewrite dec_half, dec_quarter, dec_one.
  replace (1 + m00 M + m11 M + m22 M) with (m00 M + m11 M + m22 M + 1) by ring.
  assert (0 < sqrt (m00 M + m11 M + m22 M + 1)) by (apply sqrt_lt_R0; lra).
  entries; field; lra.
Qed.

Lemma shepperd_by_diagonal (M : mat3) :
  m00 M + m11 M + m22 M <= 0 ->
  exists b, largest b M /\ rotation_matrix_to_quaternion M = quaternion b M.
Proof.
  intros Ht. unfold rotation_matrix_to_quaternion.
  rewrite Rgtb_false by assumption. rewrite dec_quarter, dec_one, dec_two.
  unfold Rgtb.
  destruct (Rgt_dec (m00 M) (m11 M)) as [H01|H01];
    [destruct (Rgt_dec (m00 M) (m22 M)) as [H02|H02]|]; cbn [andb].
  - exists by_m00. split; [unfold largest; simpl; repeat split; try discriminate; lra|].
    unfold quaternion.
    replace (4 * (sqrt (1 + m00 M - m11 M - m22 M) / 2))
      with (2 * sqrt (1 + m00 M - m11 M - m22 M)) by field.
    entries; try reflexivity; field.
  - destruct (Rgt_dec (m11 M) (m22 M)) as [H12|H12].
    + lra.
    + exists by_m22. split; [unfold largest; simpl; repeat split; try discriminate; lra|].
      unfold quaternion.
      replace (1 - m00 M - m11 M + m22 M) with (1 + m22 M - m00 M - m11 M) by ring.
      replace (4 * (sqrt (1 + m22 M - m00 M - m11 M) / 2))
        with (2 * sqrt (1 + m22 M - m00 M - m11 M)) by field.
      entries; try reflexivity; field.
  - destruct (Rgt_dec (m11 M) (m22 M)) as [H12|H12].
    + exists by_m11. split; [unfold largest; simpl; repeat split; try discriminate; lra|].
      unfold quaternion.
      replace (1 - m00 M + m11 M - m22 M) with (1 + m11 M - m00 M - m22 M) by ring.
      replace (4 * (sqrt (1 + m11 M - m00 M - m22 M) / 2))
        with (2 * sqrt (1 + m11 M - m00 M - m22 M)) by field.
      entries; try reflexivity; field.
    + exists by_m22. split; [unfold largest; simpl; repeat split; try discriminate; lra|].
      unfold quaternion.
      replace (1 - m00 M - m11 M + m22 M) with (1 + m22 M - m00 M - m11 M) by ring.
      replace (4 * (sqrt (1 + m22 M - m00 M - m11 M) / 2))
        with (2 * sqrt (1 + m22 M - m00 M - m11 M)) by field.
      entries; try reflexivity; field.
Qed.


Lemma sqrt_2_sqr : sqrt 2 * sqrt 2 = 2.
Proof. apply sqrt_sqrt. lra. Qed.

Lemma quarter_turn_z_quaternion :
  rotation_matrix_to_quaternion (Mat3 0 (-1) 0  1 0 0  0 0 1)
  = [0; 0; sqrt 2 / 2; sqrt 2 / 2].
Proof.
  rewrite shepperd_by_trace by (simpl; lra).
  unfold quaternion; simpl.
  replace (1 + 0 + 0 + 1) with 2 by ring.
  pose proof sqrt_2_sqr. assert (0 < sqrt 2) by (apply sqrt_lt_R0; lra).
  entries; try reflexivity; field_simplify_eq; try lra.
Qed.

Lemma identity_quaternion :
  rotation_matrix_to_quaternion (Mat3 1 0 0  0 1 0  0 0 1) = [0; 0; 0; 1].
Proof.
  rewrite shepperd_by_trace by (simpl; lra).
  unfold quaternion; simpl.
  replace (1 + 1 + 1 + 1) with 4 by ring. rewrite sqrt_4.
  entries; field.
Qed.

Lemma half_turn_x_quaternion :
  rotation_matrix_to_quaternion (Mat3 1 0 0  0 (-1) 0  0 0 (-1)) = [1; 0; 0; 0].
Proof.
  unfold rotation_matrix_to_quaternion; simpl.
  rewrite (@Rgtb_false (1 + -1 + -1) 0) by lra.
  rewrite !Rgtb_true by lra. cbn [andb].
  rewrite dec_one, dec_two, dec_quarter.
  replace (1 + 1 - -1 - -1) with 4 by ring. rewrite sqrt_4.
  entries; field.
Qed.

Lemma half_turn_y_quaternion :
  rotation_matrix_to_quaternion (Mat3 (-1) 0 0  0 1 0  0 0 (-1)) = [0; 1; 0; 0].
Proof.
  unfold rotation_matrix_to_quaternion; simpl.
  rewrite (@Rgtb_false (-1 + 1 + -1) 0) by lra.
  rewrite (@Rgtb_false (-1) 1) by lra. cbn [andb].
  rewrite (@Rgtb_true 1 (-1)) by lra.
  rewrite dec_one, dec_two, dec_quarter.
  replace (1 + 1 - -1 - -1) with 4 by ring. rewrite sqrt_4.
  entries; field.
Qed.

Lemma half_turn_z_quaternion :
  rotation_matrix_to_quaternion (Mat3 (-1) 0 0  0 (-1) 0  0 0 1) = [0; 0; 1; 0].
Proof.
  unfold rotation_matrix_to_quaternion; simpl.
  rewrite (@Rgtb_false (-1 + -1 + 1) 0) by lra.
  rewrite (@Rgtb_false (-1) (-1)) by lra. cbn [andb].
  rewrite (@Rgtb_false (-1) 1) by lra.
  rewrite dec_one, dec_two, dec_quarter.
  replace (1 + 1 - -1 - -1) with 4 by ring. rewrite sqrt_4.
  entries; field.
Qed.

(** C7. [rotation_matrix_to_quaternion] selects its formula as Shepperd's
    method does: when the trace is positive the result is the quaternion of
    the trace branch; otherwise it is the quaternion of a diagonal branch
    whose entry is largest among [m00], [m11], [m22].  On a matrix of each
    of the four cases the result is the quaternion computed by hand. *)
Theorem rotation_matrix_to_quaternion_shepperd (M : mat3) :
  (m00 M + m11 M + m22 M > 0 ->
   rotation_matrix_to_quaternion M = quaternion by_trace M) /\
  (m00 M + m11 M + m22 M <= 0 ->
   exists b, largest b M /\ rotation_matrix_to_quaternion M = quaternion b M) /\
  rotation_matrix_to_quaternion (Mat3 1 0 0  0 1 0  0 0 1) = [0; 0; 0; 1] /\
  rotation_matrix_to_quaternion (Mat3 0 (-1) 0  1 0 0  0 0 1)
    = [0; 0; sqrt 2 / 2; sqrt 2 / 2] /\
  rotation_matrix_to_quaternion (Mat3 1 0 0  0 (-1) 0  0 0 (-1)) = [1; 0; 0; 0] /\
  rotation_matrix_to_quaternion (Mat3 (-1) 0 0  0 1 0  0 0 (-1)) = [0; 1; 0; 0] /\
  rotation_matrix_to_quaternion (Mat3 (-1) 0 0  0 (-1) 0  0 0 1) = [0; 0; 1; 0].
Proof.
  split; [apply shepperd_by_trace | split; [apply shepperd_by_diagonal|]].
  repeat split.
  - apply identity_quaternion.
  - apply quarter_turn_z_quaternion.
  - apply half_turn_x_quaternion.
  - apply half_turn_y_quaternion.
  - apply half_turn_z_quaternion.
Qed.

Lemma rotation_matrix_to_quaternion_shepperd_witness :
  rotation_matrix_to_quaternion (Mat3 0 (-1) 0  1 0 0  0 0 1)
    = quaternion by_trace (Mat3 0 (-1) 0  1 0 0  0 0 1) /\
  exists b, largest b (Mat3 0 1 0  1 0 0  0 0 (-1)) /\
            rotation_matrix_to_quaternion (Mat3 0 1 0  1 0 0  0 0 (-1))
            = quaternion b (Mat3 0 1 0  1 0 0  0 0 (-1)).
Proof.
  split.
  - apply (proj1 (rotation_matrix_to_quaternion_shepperd (Mat3 0 (-1) 0  1 0 0  0 0 1))).
    simpl; lra.
  - apply (proj1 (proj2 (rotation_matrix_to_quaternion_shepperd (Mat3 0 1 0  1 0 0  0 0 (-1))))).
    simpl; lra.
Defined.

(** *** Normalisation in [quat_to_rotm] *)

Lemma quat_to_rotm_origin : quat_to_rotm [0; 0; 0; 0] = Raise ZeroDivisionError.
Proof.
  unfold quat_to_rotm.
  replace (0 * 0 + 0 * 0 + 0 * 0 + 0 * 0) with 0 by ring.
  rewrite sqrt_0, py_div_zero. reflexivity.
Qed.

(** The quaternion (0,0,0,1) is the identity rotation. *)
Lemma identity_quaternion_matrix :
  quat_to_rotm [0; 0; 0; 1] = Ok [1; 0; 0; 0; 1; 0; 0; 0; 1].
Proof.
  rewrite quat_to_rotm_unit by ring. unfold expand. entries; ring.
Qed.


(** *** The range of norms of the floating-point computation *)

Lemma pow_2_positive (n : nat) : 0 < 2 ^ n.
Proof. apply pow_lt. lra. Qed.

Lemma norm_in_range_nonzero (x y z w : R) :
  norm_in_range x y z w -> x*x + y*y + z*z + w*w <> 0.
Proof.
  intros [Hlow _] E. rewrite E, sqrt_0 in Hlow.
  pose proof (Rinv_0_lt_compat _ (pow_2_positive 500)). lra.
Qed.

Lemma sqrt_pow_2_1000 : sqrt (2 ^ 1000) = 2 ^ 500.
Proof.
  replace (2 ^ 1000) with (2 ^ 500 * 2 ^ 500) by (rewrite <- pow_add; reflexivity).
  apply sqrt_square. apply Rlt_le, pow_2_positive.
Qed.

(** A sum of squares between 1 and 1024 is the square of a norm in the
    range. *)
Lemma moderate_norm_in_range (x y z w : R) :
  1 <= x*x + y*y + z*z + w*w <= 1024 -> norm_in_range x y z w.
Proof.
  intros [Hlow Hhigh]. unfold norm_in_range. split.
  - apply Rle_trans with 1.
    + rewrite <- Rinv_1. apply Rinv_le_contravar; [lra|].
      apply pow_R1_Rle. lra.
    + rewrite <- sqrt_1. now apply sqrt_le_1_alt.
  - rewrite <- sqrt_pow_2_1000. apply sqrt_le_1_alt.
    apply Rle_trans with (2 ^ 10); [simpl; lra|].
    apply Rle_pow; [lra | lia].
Qed.



End PoseMathFacts.

(** * Properties of the intrinsics reader *)

Section IntrinsicsFacts.

Import PyStr Intrinsics Reference.
Local Open Scope string_scope.

Lemma mapM_length {A B : Type} (f : A -> result B) (l : list A) (l' : list B) :
  mapM f l = Ok l' -> List.length l' = List.length l.
Proof.
  revert l'. induction l as [|a l IH]; simpl; intros l' H.
  - now inversion H.
  - destruct (f a) as [b|e]; simpl in H; [|discriminate].
    destruct (mapM f l) as [bs|e]; simpl in H; [|discriminate].
    inversion H; subst. simpl. now rewrite (IH bs eq_refl).
Qed.

Lemma mapM_Forall2 {A B : Type} (f : A -> result B) (l : list A) (l' : list B) :
  mapM f l = Ok l' <-> Forall2 (fun a b => f a = Ok b) l l'.
Proof.
  revert l'. induction l as [|a l IH]; simpl; intros l'.
  - split; intros H; [inversion H; constructor | now inversion H].
  - split; intros H.
    + destruct (f a) as [b|e] eqn:Ea; simpl in H; [|discriminate].
      destruct (mapM f l) as [bs|e] eqn:El; simpl in H; [|discriminate].
      inversion H; subst. constructor; [assumption | now apply IH].
    + inversion H as [|a' b l0 bs Hab Hrest]; subst.
      rewrite Hab; simpl. apply IH in Hrest. now rewrite Hrest.
Qed.

(** [np_array_float] either converts every string or raises [ValueError]. *)
Lemma np_array_float_cases (vals : list string) :
  (exists a, np_array_float vals = Ok a) \/ np_array_float vals = Raise ValueError.
Proof.
  unfold np_array_float. induction vals as [|v vals IH]; simpl.
  - left. now eexists.
  - destruct (py_float v); simpl; [|now right].
    destruct IH as [[a ->] | ->]; simpl; [left; now eexists | now right].
Qed.

Lemma np_array_float_bad (vals : list string) (v : string) :
  In v vals -> py_float v = None -> np_array_float vals = Raise ValueError.
Proof.
  intros Hin Hv. destruct (np_array_float_cases vals) as [[a Ha]|]; [|assumption].
  exfalso. apply mapM_Forall2 in Ha.
  revert a Ha. induction vals as [|u vals IH]; intros a Ha; [contradiction|].
  inversion Ha as [|u' b l0 bs Hub Hrest]; subst.
  destruct Hin as [-> | Hin]; [rewrite Hv in Hub; discriminate | eauto].
Qed.

Lemma reshape_3_3_length (a : list Q) :
  List.length a <> 9%nat -> reshape_3_3 a = Raise ValueError.
Proof.
  intros H. do 10 (destruct a as [|? a]; try reflexivity). simpl in H.
  - now elim H.
Qed.

Lemma split_from_tokens (s tok : string) :
  (tok = "" \/ is_token tok) -> Forall is_token (split_from tok s).
Proof.
  revert tok. induction s as [|c s IH]; simpl; intros tok Htok.
  - destruct tok; simpl; [constructor|].
    destruct Htok as [H|H]; [discriminate | constructor; [assumption | constructor]].
  - destruct (isspace c) eqn:Ec.
    + destruct tok; simpl.
      * apply IH. now left.
      * destruct Htok as [H|H]; [discriminate|].
        constructor; [assumption | apply IH; now left].
    + apply IH. right. split.
      * destruct tok; discriminate.
      * intros d Hd.
        assert (In d (list_ascii_of_string tok) \/ d = c) as [H | ->].
        { clear -Hd. induction tok as [|x tok IHt]; simpl in *.
          - destruct Hd as [<- | []]. now right.
          - destruct Hd as [<- | Hd]; [left; now left|].
            destruct (IHt Hd); [left; now right | now right]. }
        -- destruct Htok as [-> | [_ Hall]]; [contradiction | now apply Hall].
        -- assumption.
Qed.

Lemma split_tokens (s : string) : Forall is_token (split s).
Proof. apply split_from_tokens. now left. Qed.

(** [replace] turns every comma into a dot and keeps the other
    characters. *)
Lemma replace_comma (s : string) :
  list_ascii_of_string (replace "," "." s)
  = map (fun c => if Ascii.eqb c "," then "."%char else c) (list_ascii_of_string s).
Proof.
  induction s as [|c s IH]; [reflexivity|]. cbn [replace list_ascii_of_string map].
  now rewrite IH.
Qed.


Lemma string_app_assoc (a b c : string) : (a ++ b) ++ c = a ++ (b ++ c).
Proof. induction a as [|x a IH]; [reflexivity|]. cbn [append]. now rewrite IH. Qed.

Lemma split_from_space (a : string) (c : ascii) (b tok : string) :
  isspace c = true ->
  split_from tok (a ++ String c b) = (split_from tok a ++ split_from "" b)%list.
Proof.
  intros Hc. revert tok. induction a as [|x a IH]; intros tok; cbn [append split_from].
  - rewrite Hc. destruct (is_empty tok); reflexivity.
  - destruct (isspace x).
    + destruct (is_empty tok); [apply IH | cbn [app]; f_equal; apply IH].
    + apply IH.
Qed.

Lemma split_space (a : string) (c : ascii) (b : string) :
  isspace c = true -> split (a ++ String c b) = (split a ++ split b)%list.
Proof. intros Hc. unfold split. now apply split_from_space. Qed.

Lemma split_from_token (t tok : string) :
  (forall c, In c (list_ascii_of_string t) -> isspace c = false) ->
  split_from tok t = if is_empty (tok ++ t) then [] else [tok ++ t].
Proof.
  revert tok. induction t as [|c t IH]; intros tok H; cbn [split_from].
  - replace (tok ++ "") with tok by (clear; induction tok as [|x tok IHt];
      [reflexivity | cbn [append]; now rewrite <- IHt]).
    reflexivity.
  - rewrite (H c) by now left. rewrite IH by (intros d Hd; apply H; now right).
    now rewrite string_app_assoc.
Qed.

Lemma split_token (t : string) : is_token t -> split t = [t].
Proof.
  intros [Hne Hns]. unfold split. rewrite split_from_token by assumption.
  cbn [append]. destruct t; [congruence | reflexivity].
Qed.

(** *** The characters of a string that converts *)

Lemma made_of_empty (f : ascii -> bool) : made_of f "".
Proof. intros c []. Qed.

Lemma made_of_cons (f : ascii -> bool) (c : ascii) (s : string) :
  f c = true -> made_of f s -> made_of f (String c s).
Proof. intros Hc Hs d [<- | Hd]; [exact Hc | now apply Hs]. Qed.

Lemma made_of_tail (f : ascii -> bool) (c : ascii) (s : string) :
  made_of f (String c s) -> f c = true /\ made_of f s.
Proof. intros H. split; [apply H; now left | intros d Hd; apply H; now right]. Qed.

Lemma made_of_append (f : ascii -> bool) (a b : string) :
  made_of f a -> made_of f b -> made_of f (a ++ b).
Proof.
  intros Ha Hb. induction a as [|c a IH]; [exact Hb|]. cbn [append].
  apply made_of_tail in Ha. destruct Ha as [Hc Ha]. apply made_of_cons; auto.
Qed.

Lemma read_sign_cases (s : string) :
  (exists rest, s = String "-" rest /\ read_sign s = (true, rest)) \/
  (exists rest, s = String "+" rest /\ read_sign s = (false, rest)) \/
  read_sign s = (false, s).
Proof.
  destruct s as [|c rest]; [now right; right|].
  destruct (Ascii.eqb_spec c "-"%char) as [-> | Hm]; [left; now exists rest|].
  destruct (Ascii.eqb_spec c "+"%char) as [-> | Hp]; [right; left; now exists rest|].
  right; right.
  destruct c as [[] [] [] [] [] [] [] []]; try reflexivity; congruence.
Qed.

Section Characters.

Variable f : ascii -> bool.
Hypothesis f_space : forall c, isspace c = true -> f c = true.
Hypothesis f_digit : forall c d, digit_of c = Some d -> f c = true.
Hypothesis f_plus : f "+" = true.
Hypothesis f_minus : f "-" = true.
Hypothesis f_underscore : f "_" = true.

Lemma lstrip_made_of (s : string) : made_of f (lstrip s) -> made_of f s.
Proof.
  induction s as [|c s IH]; cbn [lstrip]; [auto|].
  destruct (isspace c) eqn:Ec; [|auto].
  intros H. apply made_of_cons; auto.
Qed.

Lemma rstrip_made_of (s : string) : made_of f (rstrip s) -> made_of f s.
Proof.
  induction s as [|c s IH]; cbn [rstrip]; [auto|].
  destruct (isspace c) eqn:Ec; cbn [andb].
  - destruct (rstrip s) as [|d r] eqn:Er; cbn [is_empty].
    + intros _. apply made_of_cons; [auto | apply IH, made_of_empty].
    + intros H. apply made_of_tail in H. destruct H as [Hc H].
      apply made_of_cons; auto.
  - intros H. apply made_of_tail in H. destruct H as [Hc H].
    apply made_of_cons; auto.
Qed.

Lemma strip_made_of (s : string) : made_of f (strip s) -> made_of f s.
Proof. intros H. now apply lstrip_made_of, rstrip_made_of. Qed.

Lemma read_sign_made_of (s rest : string) (neg : bool) :
  read_sign s = (neg, rest) -> made_of f rest -> made_of f s.
Proof.
  intros H Hr.
  destruct (read_sign_cases s) as [(r & -> & E) | [(r & -> & E) | E]];
    rewrite E in H; injection H as _ <-; [apply made_of_cons; auto .. | exact Hr].
Qed.

Lemma read_digitpart_made_of (s : string) :
  forall (acc : Z) (count : nat) (a : Z) (n : nat) (rest : string),
    read_digitpart acc count s = (a, n, rest) -> made_of f rest -> made_of f s.
Proof.
  induction s as [|c s IH]; intros acc count a n rest H Hr.
  - cbn [read_digitpart] in H. injection H as _ _ <-. exact Hr.
  - cbn [read_digitpart] in H. destruct (digit_of c) as [d|] eqn:Ed.
    + apply made_of_cons; [eapply f_digit; eassumption | now apply (IH _ _ _ _ _ H)].
    + destruct (Ascii.eqb_spec c "_"%char) as [-> | Hc]; cbn [andb] in H.
      * destruct (0 <? count)%nat; [|injection H as _ _ <-; exact Hr].
        destruct s as [|c' s']; [injection H as _ _ <-; exact Hr|].
        destruct (digit_of c'); [|injection H as _ _ <-; exact Hr].
        apply made_of_cons; [exact f_underscore | now apply (IH _ _ _ _ _ H)].
      * injection H as _ _ <-. exact Hr.
Qed.

Hypothesis f_point : f "." = true.
Hypothesis f_e : f "e" = true.
Hypothesis f_E : f "E" = true.

Lemma read_exponent_made_of (s : string) (e : Z) :
  read_exponent s = Some e -> made_of f s.
Proof.
  destruct s as [|c s]; [intros _; apply made_of_empty|].
  cbn [read_exponent].
  destruct (Ascii.eqb_spec c "e"%char) as [-> | He]; cbn [orb].
  - destruct (read_sign s) as [neg rest1] eqn:Es.
    destruct (read_digitpart 0 0 rest1) as [[v count] rest2] eqn:Ed.
    destruct count; [discriminate|]. destruct rest2; [|discriminate]. intros _.
    apply made_of_cons; [exact f_e|].
    eapply read_sign_made_of; [exact Es|]. eapply read_digitpart_made_of; [exact Ed|].
    apply made_of_empty.
  - destruct (Ascii.eqb_spec c "E"%char) as [-> | HE]; [|discriminate].
    destruct (read_sign s) as [neg rest1] eqn:Es.
    destruct (read_digitpart 0 0 rest1) as [[v count] rest2] eqn:Ed.
    destruct count; [discriminate|]. destruct rest2; [|discriminate]. intros _.
    apply made_of_cons; [exact f_E|].
    eapply read_sign_made_of; [exact Es|]. eapply read_digitpart_made_of; [exact Ed|].
    apply made_of_empty.
Qed.

Lemma py_float_made_of (s : string) (q : Q) : py_float s = Some q -> made_of f s.
Proof.
  unfold py_float. intros H. apply strip_made_of.
  destruct (read_sign (strip s)) as [neg s1] eqn:Es.
  eapply read_sign_made_of; [exact Es|].
  destruct (read_digitpart 0 0 s1) as [[ip icount] s2] eqn:Ei.
  eapply read_digitpart_made_of; [exact Ei|].
  destruct (match s2 with
            | String "." rest => read_digitpart ip 0 rest
            | _ => (ip, 0%nat, s2)
            end) as [[fp fcount] s3] eqn:Ef.
  destruct (icount + fcount)%nat; [discriminate|].
  destruct (read_exponent s3) as [e|] eqn:Ee; [|discriminate].
  apply read_exponent_made_of in Ee.
  destruct s2 as [|c rest]; [injection Ef as _ _ <-; exact Ee|].
  destruct (Ascii.eqb_spec c "."%char) as [-> | Hc].
  - apply made_of_cons; [exact f_point|]. eapply read_digitpart_made_of; [exact Ef | exact Ee].
  - assert (E : (ip, 0%nat, String c rest) = (fp, fcount, s3)).
    { rewrite <- Ef. clear -Hc.
      destruct c as [[] [] [] [] [] [] [] []]; try reflexivity; congruence. }
    injection E as _ _ <-. exact Ee.
Qed.

End Characters.

Lemma literal_character_space (c : ascii) : isspace c = true -> literal_character c = true.
Proof. intros H. unfold literal_character. now rewrite H. Qed.

Lemma literal_character_digit (c : ascii) (d : Z) :
  digit_of c = Some d -> literal_character c = true.
Proof. intros H. unfold literal_character. rewrite H. now rewrite orb_true_r. Qed.

(** A string with a character that is none of a float literal does not
    convert. *)
Lemma py_float_bad_character (s : string) (c : ascii) :
  In c (list_ascii_of_string s) -> float_character c = false -> py_float s = None.
Proof.
  intros Hin Hc. destruct (py_float s) as [q|] eqn:E; [|reflexivity].
  pose proof (@py_float_made_of literal_character literal_character_space
                literal_character_digit eq_refl eq_refl eq_refl eq_refl eq_refl eq_refl
                s q E c Hin) as H.
  unfold float_character in Hc. rewrite H in Hc. discriminate.
Qed.

(** *** The value of a literal *)

Lemma digit_of_digit (d : nat) :
  (d < 10)%nat -> digit_of (ascii_of_nat (48 + d)) = Some (Z.of_nat d).
Proof. intros H. do 10 (destruct d as [|d]; [reflexivity|]). lia. Qed.

Lemma digit_is_plain (d : nat) :
  (d < 10)%nat ->
  let c := ascii_of_nat (48 + d) in
  isspace c = false /\ c <> "-"%char /\ c <> "+"%char.
Proof.
  intros H. do 10 (destruct d as [|d]; [repeat split; discriminate|]). lia.
Qed.

Lemma digits_value_length (d : nat) (ds : list nat) (acc : Z) :
  ((10 * acc + Z.of_nat d) * 10 ^ Z.of_nat (List.length ds) + digits_value ds
   = acc * 10 ^ Z.of_nat (List.length (d :: ds)) + digits_value (d :: ds))%Z.
Proof.
  cbn [List.length digits_value]. rewrite Nat2Z.inj_succ, Z.pow_succ_r by lia. ring.
Qed.

(** Where a digit part ends: at the end of the string, or before a
    character that is neither a digit nor an underscore. *)
Lemma read_digitpart_digits (ds : list nat) :
  Forall (fun d => (d < 10)%nat) ds ->
  forall (acc : Z) (count : nat) (rest : string),
    match rest with
    | EmptyString => True
    | String c _ => digit_of c = None /\ c <> "_"%char
    end ->
    read_digitpart acc count (digits_text ds ++ rest)
    = ((acc * 10 ^ Z.of_nat (List.length ds) + digits_value ds)%Z,
       (count + List.length ds)%nat, rest).
Proof.
  induction 1 as [|d ds Hd _ IH]; intros acc count rest Hrest.
  - cbn [digits_text append List.length digits_value].
    replace (acc * 10 ^ Z.of_nat 0 + 0)%Z with acc by (cbn; ring).
    rewrite Nat.add_0_r.
    destruct rest as [|c rest]; [reflexivity|]. destruct Hrest as [Hc Hu].
    cbn [read_digitpart]. rewrite Hc.
    destruct (Ascii.eqb_spec c "_"%char); [congruence | reflexivity].
  - cbn [digits_text append read_digitpart]. rewrite (digit_of_digit Hd).
    rewrite IH by assumption. rewrite digits_value_length.
    cbn [List.length]. now rewrite Nat.add_succ_r.
Qed.

Lemma read_sign_text (s : option bool) (body : string) :
  match body with
  | EmptyString => True
  | String c _ => c <> "-"%char /\ c <> "+"%char
  end ->
  read_sign (sign_text s ++ body)
  = (match s with Some true => true | _ => false end, body).
Proof.
  intros H. destruct s as [[|]|]; [reflexivity | reflexivity|].
  cbn [sign_text append].
  destruct (read_sign_cases body) as [(r & -> & _) | [(r & -> & _) | E]];
    [destruct H; congruence | destruct H; congruence | exact E].
Qed.

Lemma digits_text_made_of (ds : list nat) :
  Forall (fun d => (d < 10)%nat) ds ->
  made_of (fun c => negb (isspace c)) (digits_text ds).
Proof.
  induction 1 as [|d ds Hd _ IH]; [apply made_of_empty|].
  cbn [digits_text]. apply made_of_cons; [|exact IH].
  destruct (digit_is_plain Hd) as (E & _). now rewrite E.
Qed.

Lemma lstrip_plain (s : string) :
  made_of (fun c => negb (isspace c)) s -> lstrip s = s.
Proof.
  destruct s as [|c s]; [reflexivity|]. intros H. apply made_of_tail in H.
  destruct H as [Hc _]. cbn [lstrip]. apply negb_true_iff in Hc. now rewrite Hc.
Qed.

Lemma rstrip_plain (s : string) :
  made_of (fun c => negb (isspace c)) s -> rstrip s = s.
Proof.
  induction s as [|c s IH]; [reflexivity|]. intros H. apply made_of_tail in H.
  destruct H as [Hc Hs]. cbn [rstrip]. apply negb_true_iff in Hc.
  rewrite Hc, (IH Hs). reflexivity.
Qed.

Lemma strip_plain (s : string) :
  made_of (fun c => negb (isspace c)) s -> strip s = s.
Proof. intros H. unfold strip. now rewrite (lstrip_plain H), (rstrip_plain H). Qed.

Lemma sign_text_made_of (s : option bool) :
  made_of (fun c => negb (isspace c)) (sign_text s).
Proof.
  destruct s as [[|]|]; cbn [sign_text];
    repeat (apply made_of_cons; [reflexivity|]); apply made_of_empty.
Qed.

(** The exponent part of a literal, as [literal_text] writes it. *)
Lemma read_exponent_text (upper : bool) (s : option bool) (e : list nat) :
  Forall (fun d => (d < 10)%nat) e -> e <> [] ->
  read_exponent ((if upper then "E" else "e") ++ sign_text s ++ digits_text e)
  = Some (sign_factor s * digits_value e)%Z.
Proof.
  intros He Hne.
  assert (Hs : read_sign (sign_text s ++ digits_text e)
               = (match s with Some true => true | _ => false end, digits_text e)).
  { apply read_sign_text. destruct e as [|d e]; [congruence|].
    cbn [digits_text]. inversion He; subst.
    now destruct (digit_is_plain H1) as (_ & ? & ?). }
  assert (Hd : read_digitpart 0 0 (digits_text e)
               = (digits_value e, List.length e, "")).
  { pose proof (@read_digitpart_digits e He 0%Z 0%nat "" I) as H.
    replace (digits_text e ++ "") with (digits_text e) in H
      by (clear; induction (digits_text e) as [|c t IH];
          [reflexivity | cbn [append]; now rewrite <- IH]).
    rewrite H. reflexivity. }
  destruct upper; cbn [append read_exponent Ascii.eqb Bool.eqb orb andb];
    rewrite Hs, Hd; (destruct e as [|d e]; [congruence|]); cbn [List.length];
    destruct s as [[|]|]; cbn [sign_factor]; f_equal; ring.
Qed.

Lemma scaled_value (sg : option bool) (I F : Z) (n : nat) (E : Z) :
  (inject_Z (if match sg with Some true => true | _ => false end
             then - (I * 10 ^ Z.of_nat n + F) else I * 10 ^ Z.of_nat n + F)
   * pow10 (E - Z.of_nat n)
   == inject_Z (sign_factor sg)
      * (inject_Z I + inject_Z F / (10 # 1) ^ Z.of_nat n) * (10 # 1) ^ E)%Q.
Proof.
  unfold pow10. rewrite Qpower_minus by discriminate.
  assert (Hpow : (inject_Z (10 ^ Z.of_nat n) == (10 # 1) ^ Z.of_nat n)%Q).
  { apply (Zpower_Qpower 10). lia. }
  assert (HP : ~ ((10 # 1) ^ Z.of_nat n == 0)%Q) by (apply Qpower_not_0; discriminate).
  set (P := ((10 # 1) ^ Z.of_nat n)%Q) in *.
  destruct sg as [[|]|]; cbn [sign_factor];
    rewrite ?inject_Z_opp, inject_Z_plus, inject_Z_mult, Hpow; field; exact HP.
Qed.

(** A literal of the grammar converts to its value. *)
Lemma py_float_literal (l : literal) :
  well_formed l -> py_float (literal_text l) = Some (Qred (literal_value l)).
Proof.
  destruct l as [sg int frac ex]. unfold well_formed, literal_text, literal_value,
    fraction, exponent_digits, exponent_value.
  cbn [sign int_digits frac_digits exponent].
  intros (Hd & Hne & Hex).
  apply Forall_app in Hd. destruct Hd as [Hint Hd].
  apply Forall_app in Hd. destruct Hd as [Hfrac Hexp].
  set (exppart := match ex with
                  | Some (upper, s, e) =>
                      (if upper : bool then "E" else "e") ++ sign_text s ++ digits_text e
                  | None => ""
                  end).
  set (fracpart := match frac with
                   | Some f => "." ++ digits_text f
                   | None => ""
                   end).
  assert (Hexppart : made_of (fun c => negb (isspace c)) exppart /\
                     match exppart with
                     | EmptyString => True
                     | String c _ => digit_of c = None /\ c <> "_"%char /\ c <> "."%char
                     end /\
                     read_exponent exppart
                     = Some match ex with
                            | Some (_, s, e) => (sign_factor s * digits_value e)%Z
                            | None => 0%Z
                            end).
  { unfold exppart. destruct ex as [[[upper s] e]|].
    - split; [|split].
      + apply made_of_append; [destruct upper; apply made_of_cons;
                                 (reflexivity || apply made_of_empty)|].
        apply made_of_append; [apply sign_text_made_of | now apply digits_text_made_of].
      + destruct upper; cbn [append]; repeat split; discriminate.
      + apply read_exponent_text; [assumption|]. intros ->. now apply (Hex upper s).
    - split; [apply made_of_empty | split; [exact I | reflexivity]]. }
  destruct Hexppart as (Hexp_plain & Hexp_stop & Hexp_read).
  assert (Hfracpart : made_of (fun c => negb (isspace c)) (fracpart ++ exppart) /\
                      match fracpart ++ exppart with
                      | EmptyString => True
                      | String c _ => digit_of c = None /\ c <> "_"%char
                      end).
  { unfold fracpart. destruct frac as [f|].
    - split; [|cbn [append]; split; [reflexivity | discriminate]].
      apply made_of_append; [|exact Hexp_plain].
      apply made_of_append; [apply made_of_cons; [reflexivity | apply made_of_empty]|].
      now apply digits_text_made_of.
    - cbn [append]. split; [exact Hexp_plain|].
      destruct exppart; [exact I | now destruct Hexp_stop as (? & ? & _)]. }
  destruct Hfracpart as (Hfrac_plain & Hfrac_stop).
  assert (Hbody : match digits_text int ++ fracpart ++ exppart with
                  | EmptyString => True
                  | String c _ => c <> "-"%char /\ c <> "+"%char
                  end).
  { destruct int as [|d int].
    - cbn [digits_text append]. unfold fracpart. destruct frac as [f|].
      + cbn [append]. split; discriminate.
      + now elim Hne.
    - cbn [digits_text append]. inversion Hint; subst.
      now destruct (digit_is_plain H1) as (_ & ? & ?). }
  unfold py_float.
  rewrite strip_plain
    by (apply made_of_append; [apply sign_text_made_of|];
        apply made_of_append; [now apply digits_text_made_of | exact Hfrac_plain]).
  rewrite (read_sign_text sg _ Hbody).
  rewrite (@read_digitpart_digits int Hint 0%Z 0%nat _ Hfrac_stop).
  rewrite Z.mul_0_l, Z.add_0_l, Nat.add_0_l.
  unfold fracpart. destruct frac as [f|].
  - cbn [append].
    rewrite (@read_digitpart_digits f Hfrac (digits_value int) 0%nat exppart)
      by (destruct exppart; [exact I | now destruct Hexp_stop as (? & ? & _)]).
    rewrite Nat.add_0_l, Hexp_read.
    destruct (List.length int + List.length f)%nat eqn:El.
    { destruct int, f; try discriminate. now elim Hne. }
    f_equal. apply Qred_complete. apply scaled_value.
  - cbn [append].
    assert (E : match exppart with
                | String "." rest => read_digitpart (digits_value int) 0 rest
                | _ => (digits_value int, 0%nat, exppart)
                end = (digits_value int, 0%nat, exppart)).
    { destruct exppart as [|c rest]; [reflexivity|].
      destruct Hexp_stop as (_ & _ & Hc). clear -Hc.
      destruct c as [[] [] [] [] [] [] [] []]; try reflexivity; congruence. }
    rewrite E, Hexp_read, Nat.add_0_r.
    destruct (List.length int) eqn:El.
    { destruct int; [|discriminate]. now elim Hne. }
    f_equal. apply Qred_complete.
    cbn [digits_value List.length].
    etransitivity; [|apply (scaled_value sg (digits_value int) 0 0)].
    replace (digits_value int * 10 ^ Z.of_nat 0 + 0)%Z with (digits_value int)
      by (cbn; ring).
    reflexivity.
Qed.

Lemma read_intrinsics_txt_example :
  read_intrinsics_txt
    (Some ("525,0 0,0 320,0" ++ line_feed ++ "0,0 525,0 240,0" ++ line_feed ++ "0,0 0,0 1,0"))
  = Ok [[525#1; 0#1; 320#1]; [0#1; 525#1; 240#1]; [0#1; 0#1; 1#1]].
Proof. vm_compute. reflexivity. Qed.

Lemma np_array_float_values (toks : list string) (vals : list Q) :
  Forall2 (fun tok a => py_float (replace "," "." tok) = Some a) toks vals <->
  np_array_float (map (replace "," ".") toks) = Ok vals.
Proof.
  unfold np_array_float. rewrite mapM_Forall2. split; intros H.
  - induction H as [|tok a toks vals Ha _ IH]; cbn [map]; constructor; [|exact IH].
    now rewrite Ha.
  - revert vals H. induction toks as [|tok toks IH]; intros vals H; cbn [map] in H;
      inversion H; subst; constructor; [|now apply IH].
    destruct (py_float (replace "," "." tok)); [congruence | discriminate].
Qed.



End IntrinsicsFacts.

(** * Properties of the gateways *)

Section GatewayFacts.

Import PoseMath Shepperd Reference.
Local Open Scope R_scope.
Local Open Scope string_scope.

Lemma run_checked_cases (m : machine) (cmd : list (option string)) (args : list string) :
  all_strings cmd = Some args ->
  (subprocess_run m args = Ok 0%Z -> run_checked m cmd = Ok tt) /\
  (forall rc, subprocess_run m args = Ok rc -> rc <> 0%Z ->
              run_checked m cmd = Raise CalledProcessError).
Proof.
  intros Hc. unfold run_checked. rewrite Hc. split.
  - intros ->. reflexivity.
  - intros rc -> Hrc. simpl. destruct (Z.eqb_spec rc 0); [contradiction | reflexivity].
Qed.

(** [argmax_from] continues a scan: [pre] is what was read, [best] the
    lowest index of its maximum [best_val]. *)
Lemma argmax_from_first_maximum (l pre : list R) (best : nat) (best_val : R) :
  nth_error pre best = Some best_val ->
  (forall j u, nth_error pre j = Some u -> u <= best_val)%R ->
  (forall j u, (j < best)%nat -> nth_error pre j = Some u -> u < best_val)%R ->
  first_maximum (pre ++ l) (GigaPose.argmax_from best best_val (List.length pre) l).
Proof.
  revert pre best best_val. induction l as [|x l IH]; intros pre best best_val Hb Hmax Hfirst.
  - simpl. rewrite app_nil_r. exists best_val. auto.
  - simpl. replace (pre ++ x :: l)%list with ((pre ++ [x]) ++ l)%list
      by (rewrite <- app_assoc; reflexivity).
    replace (S (List.length pre)) with (List.length (pre ++ [x])%list)
      by (rewrite length_app; simpl; lia).
    assert (Hx : nth_error (pre ++ [x]) (List.length pre) = Some x).
    { rewrite nth_error_app2 by lia. now rewrite Nat.sub_diag. }
    assert (Hsplit : forall j u, nth_error (pre ++ [x]) j = Some u ->
                       ((j < List.length pre)%nat /\ nth_error pre j = Some u) \/
                       (j = List.length pre /\ u = x)).
    { intros j u Hj. destruct (Nat.lt_ge_cases j (List.length pre)) as [Hlt|Hge].
      - left. rewrite nth_error_app1 in Hj by assumption. auto.
      - right. rewrite nth_error_app2 in Hj by assumption.
        destruct (j - List.length pre)%nat as [|k] eqn:Ek; simpl in Hj.
        + inversion Hj. split; [lia | reflexivity].
        + destruct k; discriminate. }
    assert (Hbest : (best < List.length pre)%nat)
      by (apply nth_error_Some; congruence).
    unfold Rgtb. destruct (Rgt_dec x best_val) as [Hgt|Hle].
    + apply IH.
      * assumption.
      * intros j u Hj. destruct (Hsplit j u Hj) as [[_ Hp] | [_ ->]].
        -- apply Hmax in Hp. lra.
        -- lra.
      * intros j u Hlt Hj. destruct (Hsplit j u Hj) as [[_ Hp] | [-> _]].
        -- apply Hmax in Hp. lra.
        -- lia.
    + apply IH.
      * now rewrite nth_error_app1.
      * intros j u Hj. destruct (Hsplit j u Hj) as [[_ Hp] | [_ ->]].
        -- now apply Hmax in Hp.
        -- lra.
      * intros j u Hlt Hj. destruct (Hsplit j u Hj) as [[_ Hp] | [-> _]].
        -- now apply (Hfirst j).
        -- lia.
Qed.

Lemma argmax_first_maximum (l : list R) :
  l <> [] -> exists i, GigaPose.argmax l = Ok i /\ first_maximum l i.
Proof.
  destruct l as [|x l]; [congruence | intros _].
  eexists. split; [reflexivity|].
  apply (@argmax_from_first_maximum l [x] 0%nat x).
  - reflexivity.
  - intros [|[|j]] u Hj; simpl in Hj; inversion Hj; lra.
  - intros j u Hj. lia.
Qed.

Lemma first_maximum_in_range (l : list R) (i : nat) :
  first_maximum l i -> (i < List.length l)%nat.
Proof. intros (v & Hv & _). apply nth_error_Some. congruence. Qed.

Lemma argmax_example : GigaPose.argmax [0.2; 0.9; 0.5]%R = Ok 1%nat.
Proof.
  unfold GigaPose.argmax, GigaPose.argmax_from.
  rewrite (@Rgtb_true 0.9 0.2) by lra.
  rewrite (@Rgtb_false 0.5 0.9) by lra. reflexivity.
Qed.

(** C8. When the pipeline has run and the predictions archive holds the
    poses [ps] and the non-empty scores [ss] of the image, a pose for every
    score, the GigaPose gateway replies with the translation (the first
    three entries of the last column) and the 3x3 rotation block of the
    pose at the lowest index where the score is maximal; for the scores
    [0.2, 0.9, 0.5] that is the pose at index 1. *)
Theorem estimate_pose_best_hypothesis
    (w : GigaPose.world) (img_folder image_id : string)
    (object_type scene_name : option string)
    (ps : list GigaPose.mat4) (ss : list R)
    (other_poses : list (list GigaPose.mat4)) (other_scores : list (list R)) :
  gigapose_pipeline w img_folder image_id object_type scene_name = Ok tt ->
  isfile (GigaPose.host w) (GigaPose.npz_path image_id) = true ->
  GigaPose.np_load w (GigaPose.npz_path image_id)
    = Ok (GigaPose.Npz (Some (ps :: other_poses)) (Some (ss :: other_scores))) ->
  ss <> [] ->
  (List.length ss <= List.length ps)%nat ->
  (exists i M,
      first_maximum ss i /\ nth_error ps i = Some M /\
      GigaPose.estimate_pose w img_folder image_id object_type scene_name
      = Ok (reply_of M)) /\
  (forall M0 M1 M2,
      ps = [M0; M1; M2] -> ss = [0.2; 0.9; 0.5]%R ->
      GigaPose.estimate_pose w img_folder image_id object_type scene_name
      = Ok (reply_of M1)).
Proof.
  intros Hrun Hfile Hload Hne Hlen.
  assert (Hstep : forall i, GigaPose.argmax ss = Ok i ->
            GigaPose.estimate_pose w img_folder image_id object_type scene_name
            = do best_mat <- GigaPose.index ps i; Ok (reply_of best_mat)).
  { intros i Hi. unfold gigapose_pipeline in Hrun.
    unfold GigaPose.estimate_pose. rewrite Hrun, Hfile. simpl negb. cbv iota.
    rewrite Hload. simpl. rewrite Hi. simpl. reflexivity. }
  split.
  - destruct (argmax_first_maximum Hne) as (i & Hi & Hmax).
    pose proof (first_maximum_in_range Hmax) as Hr.
    destruct (nth_error ps i) as [M|] eqn:EM; [|apply nth_error_None in EM; lia].
    exists i, M. repeat split; try assumption.
    rewrite (Hstep i Hi). unfold GigaPose.index. rewrite EM. reflexivity.
  - intros M0 M1 M2 -> ->. rewrite (Hstep 1%nat argmax_example). reflexivity.
Qed.


Lemma estimate_pose_best_hypothesis_witness :
  GigaPose.estimate_pose
    (GigaPose.World (machine_with 0 true)
       (fun _ => Ok (GigaPose.Npz
                       (Some [[translation_pose 1 0 0; translation_pose 0 2 0;
                               translation_pose 0 0 3]])
                       (Some [[0.2; 0.9; 0.5]%R]))))
    "../SharedData/WebsocketData/000000" "000000" (Some "brake") (Some "Default")
  = Ok (reply_of (translation_pose 0 2 0)).
Proof.
  refine (proj2 (@estimate_pose_best_hypothesis _ _ _ _ _ _ _ [] [] _ _ _ _ _) _ _ _ eq_refl eq_refl);
    try reflexivity.
  discriminate.
Defined.


(** *** Fallback replies *)

Lemma gigapose_pipeline_failed (w : GigaPose.world) (img_folder image_id : string)
    (object_type scene_name : option string) :
  gigapose_pipeline w img_folder image_id object_type scene_name = Raise CalledProcessError ->
  GigaPose.estimate_pose w img_folder image_id object_type scene_name = Ok fallback_pose.
Proof. intros H. unfold gigapose_pipeline in H. unfold GigaPose.estimate_pose. now rewrite H. Qed.

Lemma gigapose_file_missing (w : GigaPose.world) (img_folder image_id : string)
    (object_type scene_name : option string) :
  gigapose_pipeline w img_folder image_id object_type scene_name = Ok tt ->
  isfile (GigaPose.host w) (GigaPose.npz_path image_id) = false ->
  GigaPose.estimate_pose w img_folder image_id object_type scene_name = Ok fallback_pose.
Proof. intros H F. unfold gigapose_pipeline in H. unfold GigaPose.estimate_pose. now rewrite H, F. Qed.

Lemma gigapose_load_raises (w : GigaPose.world) (img_folder image_id : string)
    (object_type scene_name : option string) (e : exn) :
  gigapose_pipeline w img_folder image_id object_type scene_name = Ok tt ->
  isfile (GigaPose.host w) (GigaPose.npz_path image_id) = true ->
  GigaPose.np_load w (GigaPose.npz_path image_id) = Raise e ->
  GigaPose.estimate_pose w img_folder image_id object_type scene_name = Raise e.
Proof. intros H F L. unfold gigapose_pipeline in H. unfold GigaPose.estimate_pose. now rewrite H, F, L. Qed.

Lemma find_entry_unlabelled (items : list json) :
  unlabelled items -> MegaPose.find_entry items = Ok None.
Proof.
  induction 1 as [|d items (fields & -> & Hl) _ IH]; simpl; [reflexivity|].
  now rewrite Hl.
Qed.

Lemma megapose_pipeline_failed (w : MegaPose.world) (img_folder image_id : string)
    (object_type scene_name : option string) :
  megapose_pipeline w object_type scene_name = Raise CalledProcessError ->
  MegaPose.estimate_pose w img_folder image_id object_type scene_name = Ok fallback_pose.
Proof. intros H. unfold megapose_pipeline in H. unfold MegaPose.estimate_pose. now rewrite H. Qed.

Lemma megapose_file_missing (w : MegaPose.world) (img_folder image_id : string)
    (object_type scene_name : option string) :
  megapose_pipeline w object_type scene_name = Ok tt ->
  isfile (MegaPose.host w) MegaPose.json_path = false ->
  MegaPose.estimate_pose w img_folder image_id object_type scene_name = Ok fallback_pose.
Proof. intros H F. unfold megapose_pipeline in H. unfold MegaPose.estimate_pose. now rewrite H, F. Qed.

(** What the MegaPose gateway does once the pipeline has run and the
    result file is there. *)
Lemma megapose_loaded (w : MegaPose.world) (img_folder image_id : string)
    (object_type scene_name : option string) :
  megapose_pipeline w object_type scene_name = Ok tt ->
  isfile (MegaPose.host w) MegaPose.json_path = true ->
  MegaPose.estimate_pose w img_folder image_id object_type scene_name
  = do data <- MegaPose.json_load w MegaPose.json_path;
    do items <- Py.iter data;
    do entry <- MegaPose.find_entry items;
    match entry with
    | None => Ok fallback_pose
    | Some entry =>
        do two <- Py.dict_item entry "TWO";
        do quat <- Py.item two 0;
        do two <- Py.dict_item entry "TWO";
        do trans <- Py.item two 1;
        do xs <- Py.iter trans;
        do trans <- mapM Py.times_1000 xs;
        do quat_len <- Py.len quat;
        if negb (quat_len =? 4)%nat || negb (List.length trans =? 3)%nat
        then Ok fallback_pose
        else do rotMat <- MegaPose.quat_to_rotm quat; Ok (Reply trans (nums rotMat))
    end.
Proof. intros H F. unfold megapose_pipeline in H. unfold MegaPose.estimate_pose. now rewrite H, F. Qed.

Lemma ove6d_pipeline_failed (w : OVE6D.world) (img_folder image_id : string)
    (object_type scene_name : option string) :
  ove6d_pipeline w object_type scene_name = Raise CalledProcessError ->
  OVE6D.estimate_pose w img_folder image_id object_type scene_name = Ok fallback_pose.
Proof. intros H. unfold ove6d_pipeline in H. unfold OVE6D.estimate_pose. now rewrite H. Qed.

Lemma ove6d_loaded (w : OVE6D.world) (img_folder image_id : string)
    (object_type scene_name : option string) :
  ove6d_pipeline w object_type scene_name = Ok tt ->
  isfile (OVE6D.host w) OVE6D.csv_path = true ->
  OVE6D.estimate_pose w img_folder image_id object_type scene_name
  = match OVE6D.csv_rows w OVE6D.csv_path with
    | [] => Ok fallback_pose
    | row :: _ =>
        do R_vals <- OVE6D.floats row "R";
        do t_vals <- OVE6D.floats row "t";
        Ok (Reply (nums (map (float32 (OVE6D.host w)) t_vals))
                  (nums (map (float32 (OVE6D.host w)) R_vals)))
    end.
Proof. intros H F. unfold ove6d_pipeline in H. unfold OVE6D.estimate_pose. now rewrite H, F. Qed.

Lemma mapM_float_bad (toks : list string) (tok : string) :
  In tok toks -> PyStr.py_float tok = None -> mapM OVE6D.float toks = Raise ValueError.
Proof.
  induction toks as [|t toks IH]; intros Hin Hbad; [contradiction|].
  simpl. unfold OVE6D.float at 1. destruct (PyStr.py_float t) eqn:Et; simpl; [|reflexivity].
  destruct Hin as [-> | Hin]; [congruence|]. now rewrite IH.
Qed.

Lemma times_1000_nums (ts : list R) :
  mapM Py.times_1000 (nums ts) = Ok (nums (map (fun x => x * 1000)%R ts)).
Proof.
  unfold nums. induction ts as [|t ts IH]; [reflexivity|].
  cbn [map mapM]. rewrite IH. reflexivity.
Qed.

Lemma megapose_wrong_shape (w : MegaPose.world) (img_folder image_id : string)
    (object_type scene_name : option string)
    (data : json) (items : list json) (entry : list (string * json))
    (quat more : list json) (ts : list R) :
  megapose_pipeline w object_type scene_name = Ok tt ->
  isfile (MegaPose.host w) MegaPose.json_path = true ->
  MegaPose.json_load w MegaPose.json_path = Ok data ->
  Py.iter data = Ok items ->
  MegaPose.find_entry items = Ok (Some entry) ->
  Py.dict_get entry "TWO" = Some (JArr (JArr quat :: JArr (nums ts) :: more)) ->
  List.length quat <> 4%nat \/ List.length ts <> 3%nat ->
  MegaPose.estimate_pose w img_folder image_id object_type scene_name = Ok fallback_pose.
Proof.
  intros H F L I E T S. rewrite megapose_loaded by assumption.
  rewrite L; simpl. rewrite I; simpl. rewrite E; simpl.
  unfold Py.dict_item. rewrite T; simpl. rewrite times_1000_nums; simpl.
  unfold nums. rewrite !length_map.
  destruct S as [S|S].
  - apply Nat.eqb_neq in S. now rewrite S.
  - apply Nat.eqb_neq in S. rewrite S. now rewrite orb_true_r.
Qed.

Lemma ove6d_bad_cell (w : OVE6D.world) (img_folder image_id : string)
    (object_type scene_name : option string)
    (row : list (string * option string)) (rows : list (list (string * option string)))
    (text tok : string) (c : ascii) :
  ove6d_pipeline w object_type scene_name = Ok tt ->
  isfile (OVE6D.host w) OVE6D.csv_path = true ->
  OVE6D.csv_rows w OVE6D.csv_path = row :: rows ->
  Py.dict_get row "R" = Some (Some text) ->
  In tok (PyStr.split text) ->
  In c (list_ascii_of_string tok) ->
  float_character c = false ->
  OVE6D.estimate_pose w img_folder image_id object_type scene_name = Raise ValueError.
Proof.
  intros H F C D I Hc B. rewrite ove6d_loaded by assumption.
  rewrite C. unfold OVE6D.floats at 1. unfold Py.dict_item. rewrite D. simpl bind at 1.
  now rewrite (mapM_float_bad _ _ I (@py_float_bad_character tok c Hc B)).
Qed.




(** *** The shape of the rotation *)

Lemma mapM_float_length (toks : list string) :
  forallb (fun t => match PyStr.py_float t with Some _ => true | None => false end) toks
    = true ->
  exists vs, mapM OVE6D.float toks = Ok vs /\ List.length vs = List.length toks.
Proof.
  induction toks as [|t toks IH]; [now exists []|].
  cbn [forallb]. intros H. apply andb_prop in H. destruct H as [Ht Hrest].
  destruct (IH Hrest) as (vs & E & L).
  cbn [mapM]. unfold OVE6D.float at 1.
  destruct (PyStr.py_float t) as [q|]; [|discriminate].
  rewrite E. exists (Q2R q :: vs). split; [reflexivity | simpl; now rewrite L].
Qed.

(** C3 fails on the code.  The GigaPose gateway replies with a rotation
    of four numbers when the pipeline exits with status 1 and with a
    rotation of nine numbers when the pipeline succeeds; so does the OVE6D
    gateway, whose reply for a missing predictions file has nine numbers
    again. *)
Theorem rotation_shape_differs_between_replies :
  (GigaPose.estimate_pose
     (GigaPose.World (machine_with 1 true) (fun _ => Raise OSError))
     "../SharedData/WebsocketData/000000" "000000" (Some "brake") (Some "Default")
   = Ok fallback_pose /\
   GigaPose.estimate_pose
     (GigaPose.World (machine_with 0 true)
        (fun _ => Ok (GigaPose.Npz (Some [[translation_pose 1 2 3]]) (Some [[1%R]]))))
     "../SharedData/WebsocketData/000000" "000000" (Some "brake") (Some "Default")
   = Ok (reply_of (translation_pose 1 2 3)) /\
   rotation_shape fallback_pose = 4%nat /\
   rotation_shape (reply_of (translation_pose 1 2 3)) = 9%nat) /\
  (OVE6D.estimate_pose
     (OVE6D.World (machine_with 1 true) (fun _ => []))
     "../SharedData/WebsocketData/000000" "000000" (Some "brake") (Some "Default")
   = Ok fallback_pose /\
   (exists r,
       OVE6D.estimate_pose
         (OVE6D.World (machine_with 0 true)
            (fun _ => [[("R", Some "1 0 0 0 1 0 0 0 1"); ("t", Some "10 20 30")]]))
         "../SharedData/WebsocketData/000000" "000000" (Some "brake") (Some "Default")
       = Ok r /\ rotation_shape r = 9%nat) /\
   (exists r,
       OVE6D.estimate_pose
         (OVE6D.World (machine_with 0 false) (fun _ => []))
         "../SharedData/WebsocketData/000000" "000000" (Some "brake") (Some "Default")
       = Ok r /\ rotation_shape r = 9%nat)).
Proof.
  split; [repeat split | split; [|split]].
  - apply ove6d_pipeline_failed. reflexivity.
  - rewrite ove6d_loaded by reflexivity. cbn [OVE6D.csv_rows].
    unfold OVE6D.floats. cbn [Py.dict_item Py.dict_get String.eqb Ascii.eqb Bool.eqb].
    destruct (@mapM_float_length (PyStr.split "1 0 0 0 1 0 0 0 1")) as (Rs & ER & LR);
      [vm_compute; reflexivity|].
    destruct (@mapM_float_length (PyStr.split "10 20 30")) as (ts & Et & Lt);
      [vm_compute; reflexivity|].
    cbn [bind]. rewrite ER. cbn [bind]. rewrite Et. cbn [bind].
    eexists. split; [reflexivity|].
    unfold rotation_shape, nums. cbn [rotation]. rewrite !length_map, LR. reflexivity.
  - eexists. split; [reflexivity | reflexivity].
Qed.

(** *** The record the MegaPose gateway selects *)

Lemma find_entry_first (pre post : list json) (entry : list (string * json)) :
  unlabelled pre ->
  Py.dict_get entry "label" = Some (JStr MegaPose.label) ->
  MegaPose.find_entry (pre ++ JObj entry :: post) = Ok (Some entry).
Proof.
  intros U L. induction U as [|d pre (fields & -> & Hl) _ IH]; simpl.
  - rewrite L. reflexivity.
  - now rewrite Hl.
Qed.

Lemma megapose_reply (w : MegaPose.world) (img_folder image_id : string)
    (object_type scene_name : option string)
    (data : json) (items : list json) (entry : list (string * json))
    (x y z qw tx ty tz : R) :
  megapose_pipeline w object_type scene_name = Ok tt ->
  isfile (MegaPose.host w) MegaPose.json_path = true ->
  MegaPose.json_load w MegaPose.json_path = Ok data ->
  Py.iter data = Ok items ->
  MegaPose.find_entry items = Ok (Some entry) ->
  Py.dict_get entry "TWO"
    = Some (JArr [JArr (nums [x; y; z; qw]); JArr (nums [tx; ty; tz])]) ->
  (x*x + y*y + z*z + qw*qw <> 0)%R ->
  MegaPose.estimate_pose w img_folder image_id object_type scene_name
  = Ok (Reply (nums [tx * 1000; ty * 1000; tz * 1000]%R)
              (nums (let n := sqrt (x*x + y*y + z*z + qw*qw) in
                     expand (x / n) (y / n) (z / n) (qw / n))%R)).
Proof.
  intros H F L I E T N. rewrite megapose_loaded by assumption.
  rewrite L; cbn [bind]. rewrite I; cbn [bind]. rewrite E; cbn [bind].
  unfold Py.dict_item. rewrite T. cbn [bind Py.item nth_error Py.iter].
  rewrite times_1000_nums. cbn [bind Py.len nums map List.length Nat.eqb negb orb].
  unfold MegaPose.quat_to_rotm. cbn [Py.iter bind Py.number].
  rewrite (quat_to_rotm_nonzero N). reflexivity.
Qed.




End GatewayFacts.

(** * Properties of the pipeline drivers *)

Section DriverFacts.

Import Script Driver Argparse Reference.
Local Open Scope string_scope.

Lemma stages_app (run : list string -> option string -> script unit)
    (pre post : list (list string * option string)) (sys : os) (h : list event) :
  stages run (pre ++ post) sys h =
  match stages run pre sys h with
  | (Done _, h1) => stages run post sys h1
  | (Exit code, h1) => (Exit code, h1)
  | (Fault e, h1) => (Fault e, h1)
  end.
Proof.
  revert h. induction pre as [|[cmd cwd] pre IH]; intros h; [reflexivity|].
  cbn [app stages]. unfold seq.
  destruct (run cmd cwd sys h) as [[[]|code|e] h1]; [apply IH | reflexivity | reflexivity].
Qed.

(** The events of one call of [run] of the GigaPose driver. *)
Lemma gigapose_run_failure (sys : os) (h : list event) (cmd : list string)
    (cwd : option string) (rc : Z) :
  returncode sys (h ++ [Stdout ("Running: " ++ PyStr.join " " cmd)]) cmd cwd = Ok rc ->
  rc <> 0%Z ->
  GigaPosePipeline.run cmd cwd sys h
  = (Exit rc, (h ++ [ Stdout ("Running: " ++ PyStr.join " " cmd);
                      Spawn cmd cwd;
                      Stderr ("Step failed: " ++ PyStr.join " " cmd) ])%list).
Proof.
  intros Hrc Hnz. unfold GigaPosePipeline.run, seq, emit, subprocess_run, sys_exit.
  rewrite Hrc. apply Z.eqb_neq in Hnz. rewrite Hnz. cbn [negb].
  now rewrite <- !app_assoc.
Qed.

Lemma gigapose_run_success (sys : os) (h : list event) (cmd : list string)
    (cwd : option string) :
  returncode sys (h ++ [Stdout ("Running: " ++ PyStr.join " " cmd)]) cmd cwd = Ok 0%Z ->
  GigaPosePipeline.run cmd cwd sys h
  = (Done tt, (h ++ [ Stdout ("Running: " ++ PyStr.join " " cmd); Spawn cmd cwd ])%list).
Proof.
  intros Hrc. unfold GigaPosePipeline.run, seq, emit, subprocess_run, ret.
  rewrite Hrc. cbn [Z.eqb negb]. now rewrite <- !app_assoc.
Qed.

Lemma foundationpose_run_failure (sys : os) (h : list event) (cmd : list string)
    (cwd : option string) (rc : Z) :
  returncode sys
    (h ++ [Stdout ("[run] " ++ PyStr.join " " cmd ++ " (cwd=" ++ FoundationPosePipeline.announced_cwd sys cwd ++ ")")])
    cmd cwd = Ok rc ->
  rc <> 0%Z ->
  FoundationPosePipeline.run cmd cwd sys h
  = (Exit rc,
     (h ++ [ Stdout ("[run] " ++ PyStr.join " " cmd ++ " (cwd=" ++ FoundationPosePipeline.announced_cwd sys cwd ++ ")");
             Spawn cmd cwd;
             Stderr ("[error] Command failed: " ++ PyStr.join " " cmd) ])%list).
Proof.
  intros Hrc Hnz.
  unfold FoundationPosePipeline.run, seq, ask, emit, subprocess_run, sys_exit.
  rewrite Hrc. apply Z.eqb_neq in Hnz. rewrite Hnz. cbn [negb].
  now rewrite <- !app_assoc.
Qed.

(** C5. When the command of a stage exits with a non-zero status [rc]
    after the stages before it have completed, the driver ends by
    [sys.exit(rc)], the last line it writes to the standard error names the
    command of the failing stage, and the command of no later stage is
    started: the events of the run end with the start of the failing
    command and that line, whatever stages [post] follow and, more
    generally, whatever code [k] follows the call of [run].  This holds for
    [run] of the GigaPose driver and for [run] of the FoundationPose
    driver. *)
Theorem failing_stage_aborts_run
    (sys : os) (h h1 : list event)
    (pre post : list (list string * option string))
    (cmd : list string) (cwd : option string) (rc : Z) :
  rc <> 0%Z ->
  (returncode sys (h1 ++ [Stdout ("Running: " ++ PyStr.join " " cmd)]) cmd cwd = Ok rc ->
   (stages GigaPosePipeline.run pre sys h = (Done tt, h1) ->
    stages GigaPosePipeline.run (pre ++ (cmd, cwd) :: post) sys h
    = (Exit rc, (h1 ++ [ Stdout ("Running: " ++ PyStr.join " " cmd);
                         Spawn cmd cwd;
                         Stderr ("Step failed: " ++ PyStr.join " " cmd) ])%list)) /\
   (forall k : unit -> script unit,
       seq (GigaPosePipeline.run cmd cwd) k sys h1
       = (Exit rc, (h1 ++ [ Stdout ("Running: " ++ PyStr.join " " cmd);
                            Spawn cmd cwd;
                            Stderr ("Step failed: " ++ PyStr.join " " cmd) ])%list))) /\
  (returncode sys
     (h1 ++ [Stdout ("[run] " ++ PyStr.join " " cmd
                     ++ " (cwd=" ++ FoundationPosePipeline.announced_cwd sys cwd ++ ")")])
     cmd cwd = Ok rc ->
   (stages FoundationPosePipeline.run pre sys h = (Done tt, h1) ->
    stages FoundationPosePipeline.run (pre ++ (cmd, cwd) :: post) sys h
    = (Exit rc,
       (h1 ++ [ Stdout ("[run] " ++ PyStr.join " " cmd
                        ++ " (cwd=" ++ FoundationPosePipeline.announced_cwd sys cwd ++ ")");
                Spawn cmd cwd;
                Stderr ("[error] Command failed: " ++ PyStr.join " " cmd) ])%list)) /\
   (forall k : unit -> script unit,
       seq (FoundationPosePipeline.run cmd cwd) k sys h1
       = (Exit rc,
          (h1 ++ [ Stdout ("[run] " ++ PyStr.join " " cmd
                           ++ " (cwd=" ++ FoundationPosePipeline.announced_cwd sys cwd ++ ")");
                   Spawn cmd cwd;
                   Stderr ("[error] Command failed: " ++ PyStr.join " " cmd) ])%list))).
Proof.
  intros Hnz. split; intros Hrc; split.
  - intros Hpre. rewrite stages_app, Hpre; cbn [stages]; unfold seq at 1.
    now rewrite (gigapose_run_failure _ _ _ _ Hrc Hnz).
  - intros k. unfold seq at 1. now rewrite (gigapose_run_failure _ _ _ _ Hrc Hnz).
  - intros Hpre. rewrite stages_app, Hpre; cbn [stages]; unfold seq at 1.
    now rewrite (foundationpose_run_failure _ _ _ _ Hrc Hnz).
  - intros k. unfold seq at 1. now rewrite (foundationpose_run_failure _ _ _ _ Hrc Hnz).
Qed.

Lemma failing_stage_aborts_run_witness :
  stages GigaPosePipeline.run
    [ (["python"; "stage1.py"], None);
      (["python"; "stage2.py"], None);
      (["python"; "stage3.py"], None) ]
    (failing_at ["python"; "stage2.py"] 3) []
  = (Exit 3, [ Stdout "Running: python stage1.py";
               Spawn ["python"; "stage1.py"] None;
               Stdout "Running: python stage2.py";
               Spawn ["python"; "stage2.py"] None;
               Stderr "Step failed: python stage2.py" ]) /\
  stages FoundationPosePipeline.run
    [ (["python"; "stage1.py"], None);
      (["python"; "stage2.py"], None);
      (["python"; "stage3.py"], None) ]
    (failing_at ["python"; "stage2.py"] 3) []
  = (Exit 3, [ Stdout "[run] python stage1.py (cwd=/work)";
               Spawn ["python"; "stage1.py"] None;
               Stdout "[run] python stage2.py (cwd=/work)";
               Spawn ["python"; "stage2.py"] None;
               Stderr "[error] Command failed: python stage2.py" ]).
Proof.
  split.
  - apply (proj1 (proj1 (@failing_stage_aborts_run
                    (failing_at ["python"; "stage2.py"] 3) []
                    [ Stdout "Running: python stage1.py";
                      Spawn ["python"; "stage1.py"] None ]
                    [ (["python"; "stage1.py"], None) ]
                    [ (["python"; "stage3.py"], None) ]
                    ["python"; "stage2.py"] None 3 ltac:(discriminate)) eq_refl));
      reflexivity.
  - apply (proj1 (proj2 (@failing_stage_aborts_run
                    (failing_at ["python"; "stage2.py"] 3) []
                    [ Stdout "[run] python stage1.py (cwd=/work)";
                      Spawn ["python"; "stage1.py"] None ]
                    [ (["python"; "stage1.py"], None) ]
                    [ (["python"; "stage3.py"], None) ]
                    ["python"; "stage2.py"] None 3 ltac:(discriminate)) eq_refl));
      reflexivity.
Defined.

(** *** The [reuse_templates] flag *)

Lemma dict_get_set (ns : namespace) (key key' : string) (v : value) :
  Py.dict_get (set ns key v) key'
  = if String.eqb key key' then Some v else Py.dict_get ns key'.
Proof.
  induction ns as [|[k x] ns IH]; cbn [set Py.dict_get].
  - destruct (String.eqb key key'); reflexivity.
  - destruct (String.eqb_spec k key) as [-> | Hk]; cbn [Py.dict_get].
    + destruct (String.eqb key key'); reflexivity.
    + destruct (String.eqb_spec k key') as [-> | Hk'].
      * destruct (String.eqb_spec key key') as [-> | _]; [congruence | reflexivity].
      * apply IH.
Qed.

Lemma get_set (ns : namespace) (key key' : string) (v : value) :
  get (set ns key v) key' = if String.eqb key key' then v else get ns key'.
Proof.
  unfold get. rewrite dict_get_set. now destruct (String.eqb key key').
Qed.

Lemma find_option_In (p : list argument) (name : string) (a : argument) :
  find_option p name = Found a -> In a p.
Proof.
  unfold find_option.
  destruct (filter (fun a => String.eqb (flag a) name) p) as [|b l] eqn:E.
  - destruct (filter (fun a => PyStr.startswith name (flag a)) p) as [|b [|c l]] eqn:E';
      try discriminate.
    intros H; inversion H; subst b.
    apply (proj1 (filter_In (fun a => PyStr.startswith name (flag a)) a p)).
    rewrite E'. now left.
  - intros H; inversion H; subst b.
    apply (proj1 (filter_In (fun a => String.eqb (flag a) name) a p)).
    rewrite E. now left.
Qed.

(** An attribute that only [store_true] options set and that is [True]
    stays [True] while the command line is read. *)
Lemma parse_keeps_switch (p : list argument) (key : string) :
  switch_only p key ->
  forall (n : nat) (argv : list string) (ns ns' : namespace),
    (List.length argv <= n)%nat ->
    get ns key = VBool true ->
    parse p ns argv = Done ns' ->
    get ns' key = VBool true.
Proof.
  intros Hp. induction n as [|n IH]; intros argv ns ns' Hn Hns Hparse.
  - destruct argv; [|simpl in Hn; lia]. simpl in Hparse. inversion Hparse; subst; assumption.
  - destruct argv as [|tok rest]; [simpl in Hparse; inversion Hparse; subst; assumption|].
    simpl in Hn. cbn [parse] in Hparse.
    destruct (String.eqb tok "--").
    { destruct rest; [inversion Hparse; subst; assumption | discriminate]. }
    destruct (negb (looks_optional p tok)); [discriminate|].
    destruct (split_eq tok) as [name explicit].
    destruct (find_option p name) as [a| |] eqn:Ef; try discriminate.
    apply find_option_In in Ef.
    destruct (act a) eqn:Ea; destruct explicit as [v|]; try discriminate.
    + apply (@IH rest (set ns (dest a) (VStr v)) ns'); [lia | | assumption].
      rewrite get_set. destruct (String.eqb_spec (dest a) key) as [E|_]; [|assumption].
      rewrite (Hp a Ef E) in Ea. discriminate.
    + destruct rest as [|v rest']; [discriminate|].
      destruct (looks_optional p v); [discriminate|].
      apply (@IH rest' (set ns (dest a) (VStr v)) ns'); [simpl in Hn; lia | | assumption].
      rewrite get_set. destruct (String.eqb_spec (dest a) key) as [E|_]; [|assumption].
      rewrite (Hp a Ef E) in Ea. discriminate.
    + apply (@IH rest (set ns (dest a) (VBool true)) ns'); [lia | | assumption].
      rewrite get_set. now destruct (String.eqb (dest a) key).
Qed.

Lemma reuse_templates_switch_only :
  switch_only GigaPosePipeline.parser "reuse_templates".
Proof.
  assert (H : forallb (fun a => negb (String.eqb (dest a) "reuse_templates")
                                || match act a with store_true => true | _ => false end)
                      GigaPosePipeline.parser = true) by reflexivity.
  rewrite forallb_forall in H. intros a Ha Hd. specialize (H a Ha).
  rewrite Hd, String.eqb_refl in H. cbn [negb orb] in H.
  now destruct (act a).
Qed.

Lemma reuse_templates_always_true (argv : list string) (args : namespace) :
  parse_args GigaPosePipeline.parser argv = Done args ->
  get args "reuse_templates" = VBool true.
Proof.
  intros H.
  apply (@parse_keeps_switch _ _ reuse_templates_switch_only (List.length argv) argv
           (defaults GigaPosePipeline.parser)); [lia | reflexivity | assumption].
Qed.

(** *** No run renders templates *)

Lemma never_renders_ret {A : Type} (a : A) : never_renders (ret a).
Proof. intros sys h H. exact H. Qed.

Lemma never_renders_raise {A : Type} (e : exn) : never_renders (@raise A e).
Proof. intros sys h H. exact H. Qed.

Lemma never_renders_sys_exit {A : Type} (code : Z) : never_renders (@sys_exit A code).
Proof. intros sys h H. exact H. Qed.

Lemma never_renders_ask {A : Type} (f : os -> list event -> A) : never_renders (ask f).
Proof. intros sys h H. exact H. Qed.

Lemma never_renders_emit (e : event) : renders e = false -> never_renders (emit e).
Proof.
  intros He sys h H. cbn [emit snd]. apply Forall_app. split; [exact H | now constructor].
Qed.

Lemma never_renders_seq {A B : Type} (s : script A) (k : A -> script B) :
  never_renders s -> (forall a, never_renders (k a)) -> never_renders (seq s k).
Proof.
  intros Hs Hk sys h H. unfold seq. specialize (Hs sys h H).
  destruct (s sys h) as [[a|code|e] h1]; cbn [snd] in *; [now apply Hk | exact Hs | exact Hs].
Qed.

Lemma never_renders_subprocess_run (cmd : list string) (cwd : option string) :
  renders (Spawn cmd cwd) = false -> never_renders (subprocess_run cmd cwd).
Proof.
  intros He sys h H. unfold subprocess_run.
  destruct (returncode sys h cmd cwd); cbn [snd]; [|exact H].
  apply Forall_app. split; [exact H | now constructor].
Qed.

Lemma never_renders_run (cmd : list string) (cwd : option string) :
  renders (Spawn cmd cwd) = false -> never_renders (GigaPosePipeline.run cmd cwd).
Proof.
  intros He. unfold GigaPosePipeline.run.
  apply never_renders_seq; [now apply never_renders_emit | intros _].
  apply never_renders_seq; [now apply never_renders_subprocess_run | intros rc].
  destruct (negb (rc =? 0)%Z); [|apply never_renders_ret].
  apply never_renders_seq; [now apply never_renders_emit | intros _].
  apply never_renders_sys_exit.
Qed.

Lemma never_renders_makedirs (path : string) : never_renders (makedirs path).
Proof.
  unfold makedirs. destruct (PyStr.is_empty path);
    [apply never_renders_raise | now apply never_renders_emit].
Qed.

Lemma never_renders_copy_if_exists (src dst : string) (is_dir : bool) :
  never_renders (copy_if_exists src dst is_dir).
Proof.
  unfold copy_if_exists. destruct is_dir;
    (apply never_renders_seq; [apply never_renders_ask | intros []]);
    repeat first [ now apply never_renders_emit
                 | apply never_renders_makedirs
                 | apply never_renders_seq; [|intros _] ].
Qed.

Lemma never_renders_text (args : namespace) (key : string) :
  never_renders (GigaPosePipeline.text args key).
Proof.
  unfold GigaPosePipeline.text.
  destruct (get args key); first [apply never_renders_ret | apply never_renders_raise].
Qed.

Lemma never_renders_save_rgb (path : string) :
  never_renders (GigaPosePipeline.save_rgb path).
Proof.
  unfold GigaPosePipeline.save_rgb.
  apply never_renders_seq; [apply never_renders_ask | intros []];
    [now apply never_renders_emit | apply never_renders_raise].
Qed.

Lemma never_renders_shutil_copy (src dst : string) :
  never_renders (GigaPosePipeline.shutil_copy src dst).
Proof.
  unfold GigaPosePipeline.shutil_copy.
  apply never_renders_seq; [apply never_renders_ask | intros []];
    [now apply never_renders_emit | apply never_renders_raise].
Qed.

Lemma never_renders_timings_step : never_renders GigaPosePipeline.timings_step.
Proof.
  intros sys h H. unfold GigaPosePipeline.timings_step.
  now destruct (timings_fault sys h).
Qed.

Lemma never_renders_load_timings (args : namespace) :
  never_renders (GigaPosePipeline.load_timings args).
Proof.
  unfold GigaPosePipeline.load_timings.
  destruct (is_False_or_text _); [|apply never_renders_ret].
  apply never_renders_seq; [apply never_renders_text | intros primary].
  apply never_renders_seq; [apply never_renders_ask | intros found].
  destruct (_ && _); [apply never_renders_timings_step | apply never_renders_ret].
Qed.

(** One step of a proof that a script of the driver starts no renderer. *)
Ltac quiet :=
  repeat first
    [ apply never_renders_ret
    | apply never_renders_text
    | apply never_renders_copy_if_exists
    | apply never_renders_makedirs
    | apply never_renders_save_rgb
    | apply never_renders_shutil_copy
    | apply never_renders_timings_step
    | apply never_renders_load_timings
    | apply never_renders_emit; reflexivity
    | apply never_renders_run; reflexivity
    | apply never_renders_seq; [|intros ?]
    | match goal with
      | |- never_renders (if ?c then _ else _) => destruct c
      end ].

Lemma never_renders_copy_templates (args : namespace) :
  never_renders (GigaPosePipeline.copy_templates args).
Proof. unfold GigaPosePipeline.copy_templates. quiet. Qed.

Lemma never_renders_segmentation (args : namespace) :
  never_renders (GigaPosePipeline.segmentation args).
Proof. unfold GigaPosePipeline.segmentation. quiet. Qed.

Lemma never_renders_copy_results (args : namespace) :
  never_renders (GigaPosePipeline.copy_results args).
Proof. unfold GigaPosePipeline.copy_results. quiet. Qed.

Lemma never_renders_other_pipeline (args : namespace) (result_dst env cwd : string) :
  never_renders (GigaPosePipeline.other_pipeline args result_dst env cwd).
Proof. unfold GigaPosePipeline.other_pipeline. quiet. Qed.

Lemma never_renders_main_parsed (args : namespace) :
  get args "reuse_templates" = VBool true ->
  never_renders (GigaPosePipeline.main_parsed args).
Proof.
  intros H. unfold GigaPosePipeline.main_parsed,
    GigaPosePipeline.templates, GigaPosePipeline.model_info,
    GigaPosePipeline.collapse_timings.
  rewrite H. cbn [truthy negb].
  pose proof (never_renders_copy_templates args).
  pose proof (never_renders_segmentation args).
  pose proof (never_renders_copy_results args).
  pose proof (never_renders_other_pipeline args).
  quiet; auto.
Qed.

(** *** What the parser can store *)

(** A property of the value of [key] that every action of the parser on
    [key] establishes is kept while the command line is read. *)
Lemma parse_invariant (p : list argument) (key : string) (Q : value -> Prop) :
  (forall a, In a p -> dest a = key ->
     match act a with
     | store => forall s, Q (VStr s)
     | store_true => Q (VBool true)
     | help => True
     end) ->
  forall (n : nat) (argv : list string) (ns ns' : namespace),
    (List.length argv <= n)%nat ->
    Q (get ns key) ->
    parse p ns argv = Done ns' ->
    Q (get ns' key).
Proof.
  intros Hp. induction n as [|n IH]; intros argv ns ns' Hn Hns Hparse.
  - destruct argv; [|simpl in Hn; lia]. simpl in Hparse. inversion Hparse; subst; assumption.
  - destruct argv as [|tok rest]; [simpl in Hparse; inversion Hparse; subst; assumption|].
    simpl in Hn. cbn [parse] in Hparse.
    destruct (String.eqb tok "--").
    { destruct rest; [inversion Hparse; subst; assumption | discriminate]. }
    destruct (negb (looks_optional p tok)); [discriminate|].
    destruct (split_eq tok) as [name explicit].
    destruct (find_option p name) as [a| |] eqn:Ef; try discriminate.
    apply find_option_In in Ef. specialize (Hp a Ef).
    destruct (act a) eqn:Ea; destruct explicit as [v|]; try discriminate.
    + apply (@IH rest (set ns (dest a) (VStr v)) ns'); [lia | | assumption].
      rewrite get_set. destruct (String.eqb_spec (dest a) key) as [E|_]; [|assumption].
      now apply Hp.
    + destruct rest as [|v rest']; [discriminate|].
      destruct (looks_optional p v); [discriminate|].
      apply (@IH rest' (set ns (dest a) (VStr v)) ns'); [simpl in Hn; lia | | assumption].
      rewrite get_set. destruct (String.eqb_spec (dest a) key) as [E|_]; [|assumption].
      now apply Hp.
    + apply (@IH rest (set ns (dest a) (VBool true)) ns'); [lia | | assumption].
      rewrite get_set. destruct (String.eqb_spec (dest a) key) as [E|_]; [|assumption].
      now apply Hp.
Qed.

(** Every option of the parser [p] that sets [key] has the action
    [store]. *)
Lemma stored_text (p : list argument) (key : string) (Q : value -> Prop) :
  forallb (fun a => negb (String.eqb (dest a) key)
                    || match act a with store => true | _ => false end) p = true ->
  (forall s, Q (VStr s)) ->
  forall argv args,
    Q (get (defaults p) key) ->
    parse_args p argv = Done args ->
    Q (get args key).
Proof.
  intros Hp HQ argv args H0 Hparse.
  apply (@parse_invariant p key Q) with (n := List.length argv) (argv := argv)
                                        (ns := defaults p); try assumption; [|lia].
  intros a Ha Hd. rewrite forallb_forall in Hp. specialize (Hp a Ha).
  rewrite Hd, String.eqb_refl in Hp. cbn [negb orb] in Hp.
  destruct (act a); try discriminate. exact HQ.
Qed.

Lemma stored_values (argv : list string) (args : namespace) :
  parse_args GigaPosePipeline.parser argv = Done args ->
  exists raw_cache object_type bopm_output,
    get args "raw_cache" = VStr raw_cache /\
    get args "object_type" = VStr object_type /\
    get args "bopm_output" = VStr bopm_output.
Proof.
  intros H.
  pose proof (@stored_text GigaPosePipeline.parser "raw_cache"
                (fun v => exists s, v = VStr s) eq_refl
                (fun s => ex_intro _ s eq_refl) argv args
                (ex_intro _ _ eq_refl) H) as [rc Hrc].
  pose proof (@stored_text GigaPosePipeline.parser "object_type"
                (fun v => exists s, v = VStr s) eq_refl
                (fun s => ex_intro _ s eq_refl) argv args
                (ex_intro _ _ eq_refl) H) as [ot Hot].
  pose proof (@stored_text GigaPosePipeline.parser "bopm_output"
                (fun v => exists s, v = VStr s) eq_refl
                (fun s => ex_intro _ s eq_refl) argv args
                (ex_intro _ _ eq_refl) H) as [bo Hbo].
  now exists rc, ot, bo.
Qed.

(** *** What the copy step does *)

Lemma copy_file_events (sys : os) (file dir : string -> bool)
    (src dst : string) (h : list event) :
  static sys file dir ->
  PyStr.is_empty (dirname dst) = false ->
  copy_if_exists src dst false sys h = (Done tt, (h ++ file_copy (file src) src dst)%list).
Proof.
  intros [Hfile _] Hdst. unfold copy_if_exists, seq, ask, makedirs, emit, file_copy.
  rewrite Hfile. destruct (file src); [|reflexivity].
  rewrite Hdst. now rewrite <- !app_assoc.
Qed.

Lemma copy_tree_events (sys : os) (file dir : string -> bool)
    (src dst : string) (h : list event) :
  static sys file dir ->
  copy_if_exists src dst true sys h = (Done tt, (h ++ tree_copy (dir src) src dst)%list).
Proof.
  intros [_ Hdir]. unfold copy_if_exists, seq, ask, emit, tree_copy.
  rewrite Hdir. destruct (dir src); [|reflexivity].
  now rewrite <- !app_assoc.
Qed.

Lemma seq_run {A B : Type} (s : script A) (k : A -> script B)
    (sys : os) (h : list event) :
  seq s k sys h
  = match s sys h with
    | (Done a, h1) => k a sys h1
    | (Exit code, h1) => (Exit code, h1)
    | (Fault e, h1) => (Fault e, h1)
    end.
Proof. reflexivity. Qed.

(** Runs a script of the driver through its prints and its copies. *)
Ltac advance Hs :=
  repeat first
    [ progress cbn [seq emit ret]
    | rewrite seq_run, (copy_file_events _ _ _ Hs) by reflexivity
    | rewrite seq_run, (copy_tree_events _ _ _ Hs)
    | rewrite (copy_file_events _ _ _ Hs) by reflexivity
    | rewrite (copy_tree_events _ _ _ Hs)
    | rewrite seq_run ].

Lemma copy_templates_events (args : namespace)
    (raw_cache object_type bopm_output : string)
    (sys : os) (file dir : string -> bool) (h : list event) :
  get args "raw_cache" = VStr raw_cache ->
  get args "object_type" = VStr object_type ->
  get args "bopm_output" = VStr bopm_output ->
  static sys file dir ->
  GigaPosePipeline.copy_templates args sys h
  = (Done tt,
     (h ++ copied_assets file dir raw_cache object_type bopm_output
             (is_True (get args "test_all_primary")))%list).
Proof.
  intros Hrc Hot Hbo Hs.
  unfold GigaPosePipeline.copy_templates, GigaPosePipeline.text, copied_assets.
  rewrite Hrc, Hot, Hbo.
  destruct (is_True (get args "test_all_primary")); advance Hs;
    rewrite <- !app_assoc; reflexivity.
Qed.

(** C10, as the spec states it, fails in its last part: not every run
    copies precomputed template assets.  With the default arguments, a run
    whose first stage exits with status 1 ends there, and a run on a
    machine whose raw cache holds none of the assets goes through the
    template step with warnings only; neither copies anything. *)
Lemma every_run_copies_assets_counterexample :
  (exists h,
      GigaPosePipeline.main []
        (failing_at [ "python"; "convert_to_bopm.py";
                      "--input_dir"; "../SharedData/WebsocketData/000000";
                      "--output_dir"; "./gigaPose_datasets/datasets/lmo" ] 1) []
      = (Exit 1, h) /\
      Forall (fun e => copies e = false) h) /\
  (exists h,
      GigaPosePipeline.main [] without_assets [] = (Fault OSError, h) /\
      In (Stdout "[warning] missing dir ../SharedData/ObjectModelsM/brake/bop_templates, skipping copy") h /\
      Forall (fun e => copies e = false) h).
Proof.
  split; eexists; (split; [vm_compute; reflexivity|]).
  - repeat constructor.
  - split; [cbn; tauto | repeat constructor].
Qed.



End DriverFacts.

(** * Further properties of the pose math *)

Section PoseMathMore.

Import PoseMath Shepperd Linear.
Local Open Scope R_scope.

Ltac entries9 :=
  repeat match goal with
         | |- Ok _ = Ok _ => apply f_equal
         | |- cons _ _ = cons _ _ => apply f_equal2
         | |- nil = nil => reflexivity
         end.

Lemma expand_is_rotation (x y z w : R) :
  x*x + y*y + z*z + w*w = 1 ->
  is_rotation (Mat3 (1 - 2*(y*y + z*z)) (2*(x*y - w*z)) (2*(x*z + w*y))
                    (2*(x*y + w*z)) (1 - 2*(x*x + z*z)) (2*(y*z - w*x))
                    (2*(x*z - w*y)) (2*(y*z + w*x)) (1 - 2*(x*x + y*y))).
Proof.
  intros H. constructor; unfold det; simpl; nsatz.
Qed.





Ltac no_decimals := rewrite ?dec_half, ?dec_quarter, ?dec_one, ?dec_two in *.

Ltac rotation_equations HR :=
  destruct HR as [H1 H2 H3 H4 H5 H6 HD]; unfold det in HD; simpl in *.

Ltac root r e :=
  set (r := sqrt e);
  assert (Hr : r * r = e) by (unfold r; rewrite sqrt_sqrt; lra);
  assert (Hr0 : 0 < r) by (apply sqrt_lt_R0; lra).

Ltac unit_branch :=
  do 4 eexists; split; [reflexivity|];
  (field_simplify_eq; [|lra]); cbn [pow]; nsatz.

(** X3. The quaternion [rotation_matrix_to_quaternion] computes from a
    rotation matrix has norm one, although the function does not normalise
    its result. *)
Theorem rotation_matrix_to_quaternion_unit (M : mat3) :
  is_rotation M ->
  exists x y z w,
    rotation_matrix_to_quaternion M = [x; y; z; w] /\
    x*x + y*y + z*z + w*w = 1.
Proof.
  destruct M as [a b c d e f g h i]. intros HR. rotation_equations HR.
  unfold rotation_matrix_to_quaternion; simpl. no_decimals.
  unfold Rgtb. destruct (Rgt_dec (a + e + i) 0) as [Ht|Ht].
  - root r (a + e + i + 1). unit_branch.
  - destruct (Rgt_dec a e) as [Hae|Hae]; [destruct (Rgt_dec a i) as [Hai|Hai]|];
      cbn [andb].
    + root r (1 + a - e - i). unit_branch.
    + destruct (Rgt_dec e i) as [Hei|Hei].
      * root r (1 + e - a - i). unit_branch.
      * root r (1 + i - a - e). unit_branch.
    + destruct (Rgt_dec e i) as [Hei|Hei].
      * root r (1 + e - a - i). unit_branch.
      * root r (1 + i - a - e). unit_branch.
Qed.

Lemma rotation_matrix_to_quaternion_unit_witness :
  exists x y z w,
    rotation_matrix_to_quaternion (Mat3 0 (-1) 0  1 0 0  0 0 1) = [x; y; z; w] /\
    x*x + y*y + z*z + w*w = 1.
Proof.
  apply rotation_matrix_to_quaternion_unit.
  constructor; unfold det; simpl; lra.
Defined.

Lemma sqrt_four_squares (c e : R) :
  e = (2 * c) * (2 * c) ->
  (0 < c -> sqrt e = 2 * c) /\ (c < 0 -> sqrt e = - (2 * c)).
Proof.
  intros ->. split; intros Hc.
  - apply sqrt_square. lra.
  - replace (2 * c * (2 * c)) with ((- (2 * c)) * (- (2 * c))) by ring.
    apply sqrt_square. lra.
Qed.

(** Closes a branch in which the leading component [c] is not zero and
    the radicand is the square of its double. *)
Ltac sign_branch c e :=
  let Hp := fresh "Hp" in let Hn := fresh "Hn" in
  destruct (@sqrt_four_squares c e) as [Hp Hn]; [nra|];
  destruct (Rtotal_order c 0) as [Hc | [Hc | Hc]]; [ | exfalso; nra | ];
  [ right; rewrite (Hn Hc); entries9; field; lra
  | left; rewrite (Hp Hc); entries9; field; lra ].

(** X4. For a quaternion of norm one, [rotation_matrix_to_quaternion]
    applied to the matrix [quat_to_rotm] returns gives back the quaternion
    or its opposite. *)
Theorem rotation_matrix_to_quaternion_right_inverse (x y z w : R) :
  x*x + y*y + z*z + w*w = 1 ->
  exists M,
    (do l <- quat_to_rotm [x; y; z; w]; reshape_3_3 l) = Ok M /\
    (rotation_matrix_to_quaternion M = [x; y; z; w] \/
     rotation_matrix_to_quaternion M = [- x; - y; - z; - w]).
Proof.
  intros Hu. rewrite (quat_to_rotm_unit Hu). cbn [bind]. unfold expand, reshape_3_3.
  eexists. split; [reflexivity|].
  unfold rotation_matrix_to_quaternion; simpl. no_decimals.
  unfold Rgtb.
  destruct (Rgt_dec (1 - 2 * (y * y + z * z) + (1 - 2 * (x * x + z * z))
                     + (1 - 2 * (x * x + y * y))) 0) as [Ht|Ht].
  - sign_branch w (1 - 2 * (y * y + z * z) + (1 - 2 * (x * x + z * z))
                   + (1 - 2 * (x * x + y * y)) + 1).
  - destruct (Rgt_dec (1 - 2 * (y * y + z * z)) (1 - 2 * (x * x + z * z))) as [Hae|Hae];
      [destruct (Rgt_dec (1 - 2 * (y * y + z * z)) (1 - 2 * (x * x + y * y))) as [Hai|Hai]|];
      cbn [andb].
    + sign_branch x (1 + (1 - 2 * (y * y + z * z)) - (1 - 2 * (x * x + z * z))
                     - (1 - 2 * (x * x + y * y))).
    + destruct (Rgt_dec (1 - 2 * (x * x + z * z)) (1 - 2 * (x * x + y * y))) as [Hei|Hei].
      * sign_branch y (1 + (1 - 2 * (x * x + z * z)) - (1 - 2 * (y * y + z * z))
                       - (1 - 2 * (x * x + y * y))).
      * sign_branch z (1 + (1 - 2 * (x * x + y * y)) - (1 - 2 * (y * y + z * z))
                       - (1 - 2 * (x * x + z * z))).
    + destruct (Rgt_dec (1 - 2 * (x * x + z * z)) (1 - 2 * (x * x + y * y))) as [Hei|Hei].
      * sign_branch y (1 + (1 - 2 * (x * x + z * z)) - (1 - 2 * (y * y + z * z))
                       - (1 - 2 * (x * x + y * y))).
      * sign_branch z (1 + (1 - 2 * (x * x + y * y)) - (1 - 2 * (y * y + z * z))
                       - (1 - 2 * (x * x + z * z))).
Qed.

Lemma rotation_matrix_to_quaternion_right_inverse_witness :
  exists M,
    (do l <- quat_to_rotm [0; 0; -1; 0]; reshape_3_3 l) = Ok M /\
    (rotation_matrix_to_quaternion M = [0; 0; -1; 0] \/
     rotation_matrix_to_quaternion M = [- 0; - 0; - -1; - 0]).
Proof. apply rotation_matrix_to_quaternion_right_inverse. lra. Defined.

(** X5. [axis_angle_rotmat] raises [ValueError] for every axis label other
    than x, y and z; for these three, the angle 0 gives the identity matrix
    and the product of the matrices of two angles is the matrix of their
    sum. *)
Theorem axis_angle_rotmat_composes (axis : string) (a b : R) :
  (axis <> "x"%string -> axis <> "y"%string -> axis <> "z"%string ->
   axis_angle_rotmat axis a = Raise ValueError) /\
  (axis = "x"%string \/ axis = "y"%string \/ axis = "z"%string ->
   axis_angle_rotmat axis 0 = Ok eye3 /\
   exists A B,
     axis_angle_rotmat axis a = Ok A /\
     axis_angle_rotmat axis b = Ok B /\
     axis_angle_rotmat axis (a + b) = Ok (matmul A B)).
Proof.
  split.
  - intros Hx Hy Hz. unfold axis_angle_rotmat.
    apply String.eqb_neq in Hx, Hy, Hz. now rewrite Hx, Hy, Hz.
  - intros H.
    assert (E0 : 0 * (PI / 180) = 0) by ring.
    assert (Es : (a + b) * (PI / 180) = a * (PI / 180) + b * (PI / 180)) by ring.
    unfold axis_angle_rotmat. rewrite E0, Es, cos_0, sin_0, cos_plus, sin_plus.
    set (ca := cos (a * (PI / 180))). set (sa := sin (a * (PI / 180))).
    set (cb := cos (b * (PI / 180))). set (sb := sin (b * (PI / 180))).
    destruct H as [-> | [-> | ->]]; cbn [String.eqb Ascii.eqb Bool.eqb];
      (split; [unfold eye3; do 2 f_equal; ring|]);
      do 2 eexists; (split; [reflexivity|]); (split; [reflexivity|]);
      unfold matmul; cbn [m00 m01 m02 m10 m11 m12 m20 m21 m22];
      f_equal; f_equal; ring.
Qed.

Lemma axis_angle_rotmat_composes_witness :
  axis_angle_rotmat "w" 90 = Raise ValueError /\
  exists A B,
    axis_angle_rotmat "y" 30 = Ok A /\
    axis_angle_rotmat "y" 60 = Ok B /\
    axis_angle_rotmat "y" (30 + 60) = Ok (matmul A B).
Proof.
  split.
  - apply (proj1 (axis_angle_rotmat_composes "w" 90 0)); discriminate.
  - apply (proj2 (axis_angle_rotmat_composes "y" 30 60)). right. left. reflexivity.
Defined.

End PoseMathMore.

(** * Further properties of the intrinsics reader *)

Section IntrinsicsMore.

Import PyStr Intrinsics Reference Stager.
Local Open Scope string_scope.

(** X6. [read_intrinsics_txt] does not depend on the layout of the text:
    one white-space character may be replaced by any other (a line break
    by a space), and white space at the start or at the end is ignored. *)
Theorem read_intrinsics_txt_layout (a b : string) (c d : ascii) :
  isspace c = true -> isspace d = true ->
  read_intrinsics_txt (Some (a ++ String c b))
    = read_intrinsics_txt (Some (a ++ String d b)) /\
  read_intrinsics_txt (Some (String c b)) = read_intrinsics_txt (Some b) /\
  read_intrinsics_txt (Some (a ++ String c "")) = read_intrinsics_txt (Some a).
Proof.
  intros Hc Hd. unfold read_intrinsics_txt. repeat split.
  - now rewrite !split_space.
  - change (String c b) with ("" ++ String c b). now rewrite split_space.
  - rewrite split_space by assumption. change (split "") with (@nil string).
    now rewrite app_nil_r.
Qed.

Lemma read_intrinsics_txt_layout_witness :
  read_intrinsics_txt (Some ("1 0 0" ++ String (ascii_of_nat 10) "0 1 0 0 0 1"))
    = read_intrinsics_txt (Some ("1 0 0" ++ String " " "0 1 0 0 0 1")).
Proof.
  apply (proj1 (@read_intrinsics_txt_layout "1 0 0" "0 1 0 0 0 1"
                  (ascii_of_nat 10) " " eq_refl eq_refl)).
Defined.

Lemma replace_append (s t : string) :
  replace "," "." (s ++ t) = replace "," "." s ++ replace "," "." t.
Proof. induction s as [|c s IH]; [reflexivity|]. cbn [append replace]. now rewrite IH. Qed.

Lemma replace_idempotent (s : string) :
  replace "," "." (replace "," "." s) = replace "," "." s.
Proof.
  induction s as [|c s IH]; [reflexivity|]. cbn [replace]. rewrite IH. f_equal.
  destruct (Ascii.eqb c ",") eqn:E; [reflexivity | now rewrite E].
Qed.

Lemma isspace_replace (c : ascii) :
  isspace (if Ascii.eqb c "," then "."%char else c) = isspace c.
Proof.
  destruct (Ascii.eqb_spec c ","%char) as [-> | _]; reflexivity.
Qed.

Lemma split_from_replace (s tok : string) :
  split_from (replace "," "." tok) (replace "," "." s)
  = map (replace "," ".") (split_from tok s).
Proof.
  revert tok. induction s as [|c s IH]; intros tok; cbn [replace split_from].
  - destruct tok; reflexivity.
  - rewrite isspace_replace. destruct (isspace c).
    + destruct tok; cbn [replace is_empty map]; [apply (IH "") | f_equal; apply (IH "")].
    + rewrite <- IH, replace_append. reflexivity.
Qed.

(** X7. Replacing the commas of the whole text by dots first, as [main] of
    the FoundationPose driver does with [cam_K.txt], does not change what
    [read_intrinsics_txt] returns. *)
Theorem read_intrinsics_txt_normalized (text : string) :
  read_intrinsics_txt (Some (replace "," "." text)) = read_intrinsics_txt (Some text).
Proof.
  unfold read_intrinsics_txt, split.
  pose proof (split_from_replace text "") as H. cbn [replace] in H.
  rewrite H, map_map.
  f_equal. f_equal. apply map_ext. intros t. apply replace_idempotent.
Qed.

Lemma split_token_space (t : string) (c : ascii) (rest : string) :
  is_token t -> isspace c = true -> split (t ++ String c rest) = t :: split rest.
Proof. intros Ht Hc. now rewrite split_space, split_token. Qed.

(** X8. The text a gateway writes to [cam_K.txt] for a 3x3 matrix is read
    back by [read_intrinsics_txt] as the same matrix, row by row, as soon
    as the format of each number is a token that converts back to the
    number. *)
Theorem cam_K_text_round_trip (fmt : Q -> string) (a0 a1 a2 a3 a4 a5 a6 a7 a8 : Q) :
  Forall (fun v => is_token (fmt v) /\
                   py_float (replace "," "." (fmt v)) = Some v)
         [a0; a1; a2; a3; a4; a5; a6; a7; a8] ->
  read_intrinsics_txt
    (Some (cam_K_text fmt [[a0; a1; a2]; [a3; a4; a5]; [a6; a7; a8]]))
  = Ok [[a0; a1; a2]; [a3; a4; a5]; [a6; a7; a8]].
Proof.
  intros H.
  repeat match goal with
         | H : Forall _ (_ :: _) |- _ => inversion H; clear H; subst
         | H : _ /\ _ |- _ => destruct H
         end.
  unfold read_intrinsics_txt, cam_K_text, line_feed.
  cbn [map join]. rewrite !string_app_assoc. cbn [append].
  rewrite !split_token_space by (assumption || reflexivity).
  rewrite split_token by assumption.
  unfold np_array_float. cbn [map mapM].
  repeat match goal with
         | H : py_float _ = Some _ |- _ => rewrite H; clear H
         end.
  reflexivity.
Qed.

Lemma cam_K_text_round_trip_witness :
  read_intrinsics_txt
    (Some (cam_K_text example_format
             [[525#1; 0#1; 320#1]; [0#1; 525#1; 240#1]; [0#1; 0#1; 1#1]]))
  = Ok [[525#1; 0#1; 320#1]; [0#1; 525#1; 240#1]; [0#1; 0#1; 1#1]].
Proof.
  apply cam_K_text_round_trip.
  repeat constructor; try discriminate;
    try (intros c Hc; vm_compute in Hc;
         repeat (destruct Hc as [<- | Hc]; [reflexivity|]); contradiction).
Defined.

End IntrinsicsMore.

(** * Further properties of the gateways *)

Section GatewayMore.

Import PoseMath Shepperd Reference Linear.
Local Open Scope R_scope.
Local Open Scope string_scope.

(** X9. A session whose header has no [objectType] or no [sceneName] gets
    no reply: the pipeline is not started, [estimate_pose] of the MegaPose
    and OVE6D gateways raises [TypeError] and that of the GigaPose gateway
    raises [NameError] (its handler uses the unbound name [ws]).  The same
    happens when the pipeline cannot be started for another reason: the
    exception leaves MegaPose and OVE6D unchanged and becomes [NameError]
    in GigaPose. *)
Theorem no_reply_when_pipeline_does_not_start
    (g : GigaPose.world) (m : MegaPose.world) (o : OVE6D.world)
    (img_folder image_id : string) (object_type scene_name : option string) :
  (object_type = None \/ scene_name = None ->
   GigaPose.estimate_pose g img_folder image_id object_type scene_name
     = Raise NameError /\
   MegaPose.estimate_pose m img_folder image_id object_type scene_name
     = Raise TypeError /\
   OVE6D.estimate_pose o img_folder image_id object_type scene_name
     = Raise TypeError) /\
  (forall e, e <> CalledProcessError ->
     (gigapose_pipeline g img_folder image_id object_type scene_name = Raise e ->
      GigaPose.estimate_pose g img_folder image_id object_type scene_name
        = Raise NameError) /\
     (megapose_pipeline m object_type scene_name = Raise e ->
      MegaPose.estimate_pose m img_folder image_id object_type scene_name = Raise e) /\
     (ove6d_pipeline o object_type scene_name = Raise e ->
      OVE6D.estimate_pose o img_folder image_id object_type scene_name = Raise e)).
Proof.
  split.
  - intros H.
    assert (G : gigapose_pipeline g img_folder image_id object_type scene_name
                = Raise TypeError).
    { unfold gigapose_pipeline, run_checked, GigaPose.pipeline_cmd.
      destruct H as [-> | ->]; [|destruct object_type]; reflexivity. }
    assert (M : forall mach, run_checked mach
                  (MegaPose.pipeline_cmd (sys_executable mach) object_type scene_name)
                = Raise TypeError).
    { intros mach. unfold run_checked, MegaPose.pipeline_cmd.
      destruct H as [-> | ->]; [|destruct object_type]; reflexivity. }
    unfold gigapose_pipeline in G.
    unfold GigaPose.estimate_pose, MegaPose.estimate_pose, OVE6D.estimate_pose.
    rewrite G, M. unfold OVE6D.pipeline_cmd. 
    change (run_checked (OVE6D.host o) _) with
      (run_checked (OVE6D.host o)
         (MegaPose.pipeline_cmd (sys_executable (OVE6D.host o)) object_type scene_name)).
    rewrite M. repeat split.
  - intros e He. repeat split; intros H.
    + unfold gigapose_pipeline in H. unfold GigaPose.estimate_pose. rewrite H.
      destruct e; congruence.
    + unfold megapose_pipeline in H. unfold MegaPose.estimate_pose. rewrite H.
      destruct e; congruence.
    + unfold ove6d_pipeline in H. unfold OVE6D.estimate_pose. rewrite H.
      destruct e; congruence.
Qed.

Lemma no_reply_when_pipeline_does_not_start_witness :
  GigaPose.estimate_pose
    (GigaPose.World (machine_with 0 true) (fun _ => Raise OSError))
    "../SharedData/WebsocketData/000000" "000000" None (Some "Default")
  = Raise NameError /\
  MegaPose.estimate_pose
    (MegaPose.World (machine_with 0 true) (fun _ => Raise OSError))
    "../SharedData/WebsocketData/000000" "000000" None (Some "Default")
  = Raise TypeError /\
  OVE6D.estimate_pose
    (OVE6D.World (machine_with 0 true) (fun _ => []))
    "../SharedData/WebsocketData/000000" "000000" None (Some "Default")
  = Raise TypeError.
Proof.
  apply (proj1 (no_reply_when_pipeline_does_not_start
                  (GigaPose.World (machine_with 0 true) (fun _ => Raise OSError))
                  (MegaPose.World (machine_with 0 true) (fun _ => Raise OSError))
                  (OVE6D.World (machine_with 0 true) (fun _ => []))
                  "../SharedData/WebsocketData/000000" "000000" None (Some "Default"))).
  left. reflexivity.
Defined.

Lemma first_maximum_unique (l : list R) (i j : nat) :
  first_maximum l i -> first_maximum l j -> i = j.
Proof.
  intros (v & Hv & Hall & Hlow) (u & Hu & Hall' & Hlow').
  destruct (Nat.lt_trichotomy i j) as [L | [E | L]]; [|exact E|].
  - pose proof (Hlow' _ _ L Hv). pose proof (Hall _ _ Hu). lra.
  - pose proof (Hlow _ _ L Hu). pose proof (Hall' _ _ Hv). lra.
Qed.

Lemma argmax_of_first_maximum (l : list R) (i : nat) :
  first_maximum l i -> GigaPose.argmax l = Ok i.
Proof.
  intros H.
  assert (Hne : l <> []).
  { destruct H as (v & Hv & _). intros ->. destruct i; discriminate. }
  destruct (argmax_first_maximum Hne) as (j & Hj & Hmax).
  now rewrite (first_maximum_unique H Hmax).
Qed.

(** X10. What the GigaPose gateway does with a predictions archive that
    loads but is incomplete.  None of these cases is answered with the
    fallback pose; each leaves [estimate_pose] as an exception: a missing
    ["poses"] or ["scores"] array raises [KeyError], an array without a
    first image raises [IndexError], an image without scores makes
    [np.argmax] raise [ValueError], and when the best score stands at an
    index for which the archive has no pose the lookup raises
    [IndexError]. *)
Theorem gigapose_incomplete_archive
    (w : GigaPose.world) (img_folder image_id : string)
    (object_type scene_name : option string) (data : GigaPose.npz) :
  gigapose_pipeline w img_folder image_id object_type scene_name = Ok tt ->
  isfile (GigaPose.host w) (GigaPose.npz_path image_id) = true ->
  GigaPose.np_load w (GigaPose.npz_path image_id) = Ok data ->
  let reply := GigaPose.estimate_pose w img_folder image_id object_type scene_name in
  (GigaPose.poses data = None -> reply = Raise KeyError) /\
  (GigaPose.poses data = Some [] -> reply = Raise IndexError) /\
  (forall ps other_poses,
      GigaPose.poses data = Some (ps :: other_poses) ->
      (GigaPose.scores data = None -> reply = Raise KeyError) /\
      (GigaPose.scores data = Some [] -> reply = Raise IndexError) /\
      (forall other_scores,
          GigaPose.scores data = Some ([] :: other_scores) ->
          reply = Raise ValueError) /\
      (forall ss other_scores i,
          GigaPose.scores data = Some (ss :: other_scores) ->
          first_maximum ss i -> (List.length ps <= i)%nat ->
          reply = Raise IndexError)).
Proof.
  intros Hrun Hfile Hload reply.
  assert (E : reply =
            do all_poses <- GigaPose.array (GigaPose.poses data);
            do poses <- GigaPose.index all_poses 0;
            do all_scores <- GigaPose.array (GigaPose.scores data);
            do scores <- GigaPose.index all_scores 0;
            do best_idx <- GigaPose.argmax scores;
            do best_mat <- GigaPose.index poses best_idx;
            Ok (reply_of best_mat)).
  { unfold reply, GigaPose.estimate_pose. unfold gigapose_pipeline in Hrun.
    rewrite Hrun, Hfile. cbn [negb]. rewrite Hload. reflexivity. }
  rewrite E. clear E.
  split; [intros ->; reflexivity|].
  split; [intros ->; reflexivity|].
  intros ps other_poses ->. cbn [GigaPose.array GigaPose.index nth_error bind].
  split; [intros ->; reflexivity|].
  split; [intros ->; reflexivity|].
  split; [intros other_scores ->; reflexivity|].
  intros ss other_scores i -> Hmax Hlen.
  cbn [GigaPose.array GigaPose.index nth_error bind].
  rewrite (argmax_of_first_maximum Hmax). cbn [bind].
  apply nth_error_None in Hlen. unfold GigaPose.index. now rewrite Hlen.
Qed.

Lemma gigapose_incomplete_archive_witness :
  GigaPose.estimate_pose
    (GigaPose.World (machine_with 0 true)
       (fun _ => Ok (GigaPose.Npz (Some [[translation_pose 1 2 3]])
                                  (Some [[0.2; 0.9]%R]))))
    "../SharedData/WebsocketData/000000" "000000" (Some "brake") (Some "Default")
  = Raise IndexError.
Proof.
  refine (proj2 (proj2 (proj2
            (proj2 (proj2
               (@gigapose_incomplete_archive
                  (GigaPose.World (machine_with 0 true)
                     (fun _ => Ok (GigaPose.Npz (Some [[translation_pose 1 2 3]])
                                                (Some [[0.2; 0.9]%R]))))
                  "../SharedData/WebsocketData/000000" "000000"
                  (Some "brake") (Some "Default") _
                  eq_refl eq_refl eq_refl))
               _ _ eq_refl)))
            [0.2; 0.9]%R [] 1%nat eq_refl _ _).
  - exists 0.9%R. split; [reflexivity|]. split.
    + intros [ | [ | [ | j ] ] ] u E; simpl in E; inversion E; subst; lra.
    + intros [ | [ | j ] ] u L E; simpl in E; inversion E; subst; try lia; lra.
  - simpl. lia.
Defined.



Lemma mapM_float_values (toks : list string) (vals : list Q) :
  Forall2 (fun tok v => PyStr.py_float tok = Some v) toks vals ->
  mapM OVE6D.float toks = Ok (map Q2R vals).
Proof.
  induction 1 as [|tok v toks vals Hv _ IH]; [reflexivity|].
  cbn [mapM map]. unfold OVE6D.float at 1. rewrite Hv. cbn [bind]. now rewrite IH.
Qed.



Lemma quat_to_rotm_nine (q l : list R) :
  quat_to_rotm q = Ok l -> List.length l = 9%nat.
Proof.
  destruct q as [|x [|y [|z [|w [|? ?]]]]]; try discriminate.
  unfold quat_to_rotm.
  destruct (py_div x _); [|discriminate].
  destruct (py_div y _); [|discriminate].
  destruct (py_div z _); [|discriminate].
  destruct (py_div w _); [|discriminate].
  cbn [bind]. now intros [= <-].
Qed.

Lemma megapose_quat_to_rotm_nine (q : json) (l : list R) :
  MegaPose.quat_to_rotm q = Ok l -> List.length l = 9%nat.
Proof.
  unfold MegaPose.quat_to_rotm.
  destruct (Py.iter q) as [items|]; [|discriminate]. cbn [bind].
  destruct items as [|x [|y [|z [|w [|? ?]]]]]; try discriminate.
  destruct (Py.number x); [|discriminate].
  destruct (Py.number y); [|discriminate].
  destruct (Py.number z); [|discriminate].
  destruct (Py.number w); [|discriminate].
  cbn [bind]. apply quat_to_rotm_nine.
Qed.

Ltac bound :=
  match goal with
  | |- bind ?e _ = Ok _ -> _ => destruct e eqn:?; cbn [bind]; [|discriminate]
  end.



End GatewayMore.

(** * Further properties of the pipeline drivers *)

Section DriverMore.

Import Script Driver Argparse Reference Trace Copies.
Local Open Scope string_scope.

Lemma test_all_never_True (argv : list string) (args : namespace) :
  parse_args GigaPosePipeline.parser argv = Done args ->
  is_True (get args "test_all") = false.
Proof.
  apply (@stored_text GigaPosePipeline.parser "test_all"
           (fun v => is_True v = false)); reflexivity.
Qed.

Lemma test_all_primary_values (argv : list string) (args : namespace) :
  parse_args GigaPosePipeline.parser argv = Done args ->
  get args "test_all_primary" = VBool true \/
  exists s, get args "test_all_primary" = VStr s.
Proof.
  apply (@stored_text GigaPosePipeline.parser "test_all_primary"
           (fun v => v = VBool true \/ exists s, v = VStr s)).
  - reflexivity.
  - intros s. right. now exists s.
  - left. reflexivity.
Qed.

(** *** Which commands a run starts *)

Lemma confined_ret {A : Type} (allowed : event -> bool) (a : A) :
  confined allowed (ret a).
Proof. intros sys h H. exact H. Qed.

Lemma confined_raise {A : Type} (allowed : event -> bool) (e : exn) :
  confined allowed (@raise A e).
Proof. intros sys h H. exact H. Qed.

Lemma confined_sys_exit {A : Type} (allowed : event -> bool) (code : Z) :
  confined allowed (@sys_exit A code).
Proof. intros sys h H. exact H. Qed.

Lemma confined_ask {A : Type} (allowed : event -> bool) (f : os -> list event -> A) :
  confined allowed (ask f).
Proof. intros sys h H. exact H. Qed.

Lemma confined_emit (allowed : event -> bool) (e : event) :
  allowed e = true -> confined allowed (emit e).
Proof.
  intros He sys h H. cbn [emit snd]. apply Forall_app. split; [exact H | now constructor].
Qed.

Lemma confined_seq {A B : Type} (allowed : event -> bool)
    (s : script A) (k : A -> script B) :
  confined allowed s -> (forall a, confined allowed (k a)) -> confined allowed (seq s k).
Proof.
  intros Hs Hk sys h H. unfold seq. specialize (Hs sys h H).
  destruct (s sys h) as [[a|code|e] h1]; cbn [snd] in *; [now apply Hk | exact Hs | exact Hs].
Qed.

Lemma confined_subprocess_run (allowed : event -> bool)
    (cmd : list string) (cwd : option string) :
  allowed (Spawn cmd cwd) = true -> confined allowed (subprocess_run cmd cwd).
Proof.
  intros He sys h H. unfold subprocess_run.
  destruct (returncode sys h cmd cwd); cbn [snd]; [|exact H].
  apply Forall_app. split; [exact H | now constructor].
Qed.

Lemma confined_timings_step (allowed : event -> bool) :
  confined allowed GigaPosePipeline.timings_step.
Proof.
  intros sys h H. unfold GigaPosePipeline.timings_step.
  now destruct (timings_fault sys h).
Qed.

Lemma confined_parsed {A : Type} (allowed : event -> bool) (o : outcome A) :
  confined allowed (fun (_ : os) (h : list event) => (o, h)).
Proof. intros sys h H. exact H. Qed.

(** One step of a proof that a script adds allowed events only. *)
Ltac within :=
  repeat first
    [ apply confined_ret
    | apply confined_raise
    | apply confined_sys_exit
    | apply confined_ask
    | apply confined_timings_step
    | apply confined_emit; reflexivity
    | apply confined_subprocess_run; reflexivity
    | apply confined_seq; [|intros ?]
    | match goal with
      | |- confined _ (if ?c then _ else _) => destruct c
      | |- confined _ (match ?v with _ => _ end) => destruct v
      end ].

Ltac driver_code :=
  unfold GigaPosePipeline.main_parsed,
    GigaPosePipeline.templates, GigaPosePipeline.copy_templates,
    GigaPosePipeline.render_templates, GigaPosePipeline.model_info,
    GigaPosePipeline.segmentation, GigaPosePipeline.load_timings,
    GigaPosePipeline.collapse_timings, GigaPosePipeline.copy_results,
    GigaPosePipeline.other_pipeline, GigaPosePipeline.save_rgb,
    GigaPosePipeline.shutil_copy, GigaPosePipeline.text,
    GigaPosePipeline.run, copy_if_exists, makedirs.

Lemma python_only_main_parsed (args : namespace) :
  get args "reuse_templates" = VBool true ->
  is_True (get args "test_all") = false ->
  confined python_only (GigaPosePipeline.main_parsed args).
Proof.
  intros Hr Ht. driver_code. rewrite Hr, Ht. cbn [truthy negb].
  within.
Qed.

(** X14. Whatever command line the parser of the GigaPose driver accepts,
    [args.test_all == True] is false: the option [--test_all] stores the
    string it is given, and no string equals [True].  So the calls of the
    other pipelines at the end of [main] are never reached, and every
    program a run of [main] starts is [python]: [conda] is never
    started. *)
Theorem main_starts_only_python (argv : list string) :
  (forall args,
      parse_args GigaPosePipeline.parser argv = Done args ->
      is_True (get args "test_all") = false) /\
  confined python_only (GigaPosePipeline.main argv).
Proof.
  split.
  - intros args. apply test_all_never_True.
  - intros sys h Hh. unfold GigaPosePipeline.main, seq.
    destruct (parse_args GigaPosePipeline.parser argv) as [args|code|e] eqn:E;
      cbn [snd]; try exact Hh.
    apply python_only_main_parsed; [| |exact Hh].
    + now apply reuse_templates_always_true in E.
    + now apply test_all_never_True in E.
Qed.

Lemma main_starts_only_python_witness :
  exists args,
    parse_args GigaPosePipeline.parser ["--test_all"; "True"] = Done args /\
    get args "test_all" = VStr "True" /\
    is_True (get args "test_all") = false.
Proof.
  eexists. split; [vm_compute; reflexivity|]. split; [reflexivity|].
  apply (proj1 (main_starts_only_python ["--test_all"; "True"])).
  vm_compute. reflexivity.
Defined.

Lemma no_segmentation_main_parsed (args : namespace) :
  is_True (get args "test_all_primary") = false ->
  confined (not_running "batch_inference.py") (GigaPosePipeline.main_parsed args).
Proof.
  intros Hp. driver_code. rewrite Hp. within.
Qed.

(** Runs a script of the driver through its prints and its copies. *)
Ltac copying Hs :=
  repeat first
    [ progress cbn [seq emit ret]
    | rewrite seq_run, (copy_file_events _ _ _ Hs) by reflexivity
    | rewrite (copy_file_events _ _ _ Hs) by reflexivity
    | rewrite seq_run ].

Lemma primary_result_file_values (argv : list string) (args : namespace) :
  parse_args GigaPosePipeline.parser argv = Done args ->
  get args "primary_result_file" = VNone \/
  exists primary, get args "primary_result_file" = VStr primary.
Proof.
  apply (@stored_text GigaPosePipeline.parser "primary_result_file"
           (fun v => v = VNone \/ exists primary, v = VStr primary)).
  - reflexivity.
  - intros s. right. now exists s.
  - left. reflexivity.
Qed.

Lemma segmentation_without_primary (args : namespace) (s : string)
    (sys : os) (h : list event) :
  get args "test_all_primary" = VStr s ->
  get args "primary_result_file" = VNone ->
  GigaPosePipeline.segmentation args sys h
  = (Fault TypeError, (h ++ [Stdout "Copy Segmentation Result"])%list).
Proof.
  intros Hs Hp. unfold GigaPosePipeline.segmentation, GigaPosePipeline.text.
  rewrite Hs, Hp. reflexivity.
Qed.

Lemma segmentation_copied (args : namespace) (s primary : string)
    (sys : os) (file dir : string -> bool) (h : list event) :
  get args "test_all_primary" = VStr s ->
  get args "primary_result_file" = VStr primary ->
  static sys file dir ->
  GigaPosePipeline.segmentation args sys h
  = (Done tt, (h ++ copied_segmentation file primary)%list).
Proof.
  intros Hs Hp Hst. unfold GigaPosePipeline.segmentation, GigaPosePipeline.text,
    copied_segmentation.
  rewrite Hs, Hp. cbn [is_True]. copying Hst.
  rewrite <- !app_assoc. reflexivity.
Qed.

(** X15. After parsing, [args.test_all_primary] is [True] (the default)
    or a string, and [args.primary_result_file] is [None] (the default)
    or a string: giving an option on the command line, with whatever
    value, stores a string.  So with [--test_all_primary], also with the
    value [True], [args.test_all_primary == True] is false and a run of
    [main] never starts [batch_inference.py]; the segmentation step then
    takes the instance segmentation from the primary result: it raises
    [TypeError] when no [--primary_result_file] was given, and otherwise
    copies each of the three files of the primary result that exists,
    with a warning for each that does not. *)
Theorem segmentation_runs_only_by_default (argv : list string) (args : namespace) :
  parse_args GigaPosePipeline.parser argv = Done args ->
  (get args "test_all_primary" = VBool true \/
   exists s, get args "test_all_primary" = VStr s) /\
  (get args "primary_result_file" = VNone \/
   exists primary, get args "primary_result_file" = VStr primary) /\
  (forall s, get args "test_all_primary" = VStr s ->
     confined (not_running "batch_inference.py") (GigaPosePipeline.main argv) /\
     (get args "primary_result_file" = VNone ->
      forall sys h,
        GigaPosePipeline.segmentation args sys h
        = (Fault TypeError, (h ++ [Stdout "Copy Segmentation Result"])%list)) /\
     (forall primary,
         get args "primary_result_file" = VStr primary ->
         forall sys file dir h,
           static sys file dir ->
           GigaPosePipeline.segmentation args sys h
           = (Done tt, (h ++ copied_segmentation file primary)%list))).
Proof.
  intros Hparse. split; [now apply test_all_primary_values in Hparse|].
  split; [now apply primary_result_file_values in Hparse|].
  intros s Hs. split; [|split].
  - intros sys h Hh. unfold GigaPosePipeline.main, seq. rewrite Hparse.
    apply no_segmentation_main_parsed; [|exact Hh]. now rewrite Hs.
  - intros Hp sys h. now apply segmentation_without_primary with (s := s).
  - intros primary Hp sys file dir h Hst.
    now apply segmentation_copied with (s := s) (dir := dir).
Qed.

Lemma segmentation_runs_only_by_default_witness :
  exists args,
    parse_args GigaPosePipeline.parser ["--test_all_primary"; "True"] = Done args /\
    confined (not_running "batch_inference.py")
      (GigaPosePipeline.main ["--test_all_primary"; "True"]) /\
    forall sys h,
      GigaPosePipeline.segmentation args sys h
      = (Fault TypeError, (h ++ [Stdout "Copy Segmentation Result"])%list).
Proof.
  eexists. split; [vm_compute; reflexivity|].
  match goal with
  | |- context [GigaPosePipeline.segmentation ?a] =>
      pose proof (proj2 (proj2 (@segmentation_runs_only_by_default
                                  ["--test_all_primary"; "True"] a eq_refl))
                    "True" eq_refl) as (Hc & Hn & _)
  end.
  split; [exact Hc | exact (Hn eq_refl)].
Defined.

(** *** A run in which every stage succeeds *)

Lemma spawned_app (h1 h2 : list event) :
  spawned (h1 ++ h2) = (spawned h1 ++ spawned h2)%list.
Proof.
  induction h1 as [|e h1 IH]; [reflexivity|].
  destruct e; cbn [app spawned]; rewrite ?IH; reflexivity.
Qed.

Lemma complaints_app (h1 h2 : list event) :
  complaints (h1 ++ h2) = (complaints h1 ++ complaints h2)%list.
Proof.
  induction h1 as [|e h1 IH]; [reflexivity|].
  destruct e; cbn [app complaints]; rewrite ?IH; reflexivity.
Qed.

Lemma foundationpose_run_success (sys : os) (h : list event) (cmd : list string)
    (cwd : option string) :
  returncode sys
    (h ++ [Stdout ("[run] " ++ PyStr.join " " cmd ++ " (cwd=" ++ FoundationPosePipeline.announced_cwd sys cwd ++ ")")])
    cmd cwd = Ok 0%Z ->
  FoundationPosePipeline.run cmd cwd sys h
  = (Done tt,
     (h ++ [ Stdout ("[run] " ++ PyStr.join " " cmd ++ " (cwd=" ++ FoundationPosePipeline.announced_cwd sys cwd ++ ")");
             Spawn cmd cwd ])%list).
Proof.
  intros Hrc.
  unfold FoundationPosePipeline.run, seq, ask, emit, subprocess_run, ret.
  rewrite Hrc. cbn [Z.eqb negb]. now rewrite <- !app_assoc.
Qed.

(** X16. When every command of a list of stages exits with status 0, the
    driver runs the whole list: it ends normally, the commands it has
    started are those of the stages, each once and in their order, and it
    has written nothing to the standard error.  This holds for [run] of
    the GigaPose driver and for [run] of the FoundationPose driver. *)
Theorem stages_all_succeed
    (sys : os) (cmds : list (list string * option string)) (h : list event) :
  (forall h' cmd cwd, In (cmd, cwd) cmds -> returncode sys h' cmd cwd = Ok 0%Z) ->
  (exists h',
      stages GigaPosePipeline.run cmds sys h = (Done tt, h') /\
      spawned h' = (spawned h ++ cmds)%list /\
      complaints h' = complaints h) /\
  (exists h',
      stages FoundationPosePipeline.run cmds sys h = (Done tt, h') /\
      spawned h' = (spawned h ++ cmds)%list /\
      complaints h' = complaints h).
Proof.
  revert h. induction cmds as [|[cmd cwd] cmds IH]; intros h Hrc.
  - split; exists h; cbn [stages ret]; rewrite app_nil_r; repeat split.
  - assert (Hrest : forall h' cmd' cwd', In (cmd', cwd') cmds ->
                      returncode sys h' cmd' cwd' = Ok 0%Z).
    { intros h' cmd' cwd' Hin. apply Hrc. now right. }
    split.
    + cbn [stages]. unfold seq.
      rewrite gigapose_run_success by (apply Hrc; now left).
      destruct (proj1 (IH (h ++ [Stdout ("Running: " ++ PyStr.join " " cmd);
                                 Spawn cmd cwd])%list Hrest))
        as (h' & E & Hs & Hc).
      exists h'. split; [exact E|]. rewrite Hs, Hc, spawned_app, complaints_app.
      cbn [spawned complaints]. rewrite <- app_assoc, app_nil_r. split; reflexivity.
    + cbn [stages]. unfold seq.
      rewrite foundationpose_run_success by (apply Hrc; now left).
      match goal with
      | |- context [stages _ cmds sys ?h1] =>
          destruct (proj2 (IH h1 Hrest)) as (h' & E & Hs & Hc)
      end.
      exists h'. split; [exact E|]. rewrite Hs, Hc, spawned_app, complaints_app.
      cbn [spawned complaints]. rewrite <- app_assoc, app_nil_r. split; reflexivity.
Qed.

Lemma stages_all_succeed_witness :
  exists h',
    stages GigaPosePipeline.run
      [ (["python"; "display_result.py"], None);
        (["python"; "-m"; "src.scripts.eval_bop"], None) ]
      (obliging "") [] = (Done tt, h') /\
    spawned h' = [ (["python"; "display_result.py"], None);
                   (["python"; "-m"; "src.scripts.eval_bop"], None) ] /\
    complaints h' = [].
Proof.
  apply (proj1 (@stages_all_succeed (obliging "")
                  [ (["python"; "display_result.py"], None);
                    (["python"; "-m"; "src.scripts.eval_bop"], None) ] []
                  (fun _ _ _ _ => eq_refl))).
Defined.

(** *** The directory [copy_if_exists] creates *)

Lemma head_to_last_slash_none (name : string) :
  contains "/" name = false -> head_to_last_slash name = None.
Proof.
  induction name as [|c name IH]; [reflexivity|].
  cbn [contains head_to_last_slash]. intros H. apply orb_false_elim in H.
  destruct H as [Hc Hrest]. rewrite (IH Hrest).
  rewrite Ascii.eqb_sym in Hc. now rewrite Hc.
Qed.

Lemma head_to_last_slash_join (dir name : string) :
  contains "/" name = false ->
  head_to_last_slash (dir ++ String "/" name) = Some (dir ++ "/").
Proof.
  intros H. induction dir as [|c dir IH].
  - cbn [append head_to_last_slash]. now rewrite (@head_to_last_slash_none name H).
  - cbn [append head_to_last_slash]. now rewrite IH.
Qed.

Lemma rstrip_slash_append (dir : string) :
  rstrip_slash (dir ++ "/") = rstrip_slash dir.
Proof.
  induction dir as [|c dir IH]; [reflexivity|].
  cbn [append rstrip_slash]. now rewrite IH.
Qed.

Lemma no_final_slash (dir : string) :
  dir <> "" -> rstrip_slash dir = dir -> PyStr.ends_with_slash dir = false.
Proof.
  induction dir as [|c dir IH]; [congruence|]. intros _ H.
  cbn [rstrip_slash] in H.
  destruct (Ascii.eqb c "/" && PyStr.is_empty (rstrip_slash dir)) eqn:E; [discriminate|].
  injection H as H. destruct dir as [|d dir].
  - cbn [PyStr.ends_with_slash]. cbn [rstrip_slash PyStr.is_empty] in E.
    now rewrite andb_true_r in E.
  - change (PyStr.ends_with_slash (String c (String d dir)))
      with (PyStr.ends_with_slash (String d dir)).
    apply IH; [discriminate | exact H].
Qed.

Lemma path_join_two (dir name : string) :
  dir <> "" -> rstrip_slash dir = dir -> contains "/" name = false ->
  PyStr.path_join [dir; name] = dir ++ "/" ++ name.
Proof.
  intros Hne Hd Hn. unfold PyStr.path_join. cbn [fold_left]. unfold PyStr.join_path.
  rewrite (@no_final_slash dir Hne Hd).
  assert (Hs : PyStr.startswith "/" name = false).
  { destruct name as [|c name]; [reflexivity|]. cbn [contains] in Hn.
    apply orb_false_elim in Hn. destruct Hn as [Hc _].
    unfold PyStr.startswith. cbn [prefix].
    destruct (ascii_dec "/" c) as [<- | _]; [discriminate | reflexivity]. }
  rewrite Hs. destruct dir; [congruence | reflexivity].
Qed.

Lemma dirname_join (dir name : string) :
  dir <> "" -> rstrip_slash dir = dir -> contains "/" name = false ->
  dirname (PyStr.path_join [dir; name]) = dir.
Proof.
  intros Hne Hd Hn. rewrite (@path_join_two dir name Hne Hd Hn). unfold dirname.
  change (dir ++ "/" ++ name) with (dir ++ String "/" name).
  rewrite (@head_to_last_slash_join dir name Hn), rstrip_slash_append, Hd.
  destruct dir; [congruence | reflexivity].
Qed.

(** X17. For a destination [dir/name], with [name] free of slashes and
    [dir] not empty and not ending in a slash, [os.path.dirname] gives
    back [dir]; so [copy_if_exists], for a source file that exists,
    creates the directory [dir], announces the copy and copies the file
    to [dir/name], and for a source file that does not exist only prints
    a warning: it creates no directory and copies nothing. *)
Theorem copy_if_exists_creates_parent
    (src dir name : string) (sys : os) (h : list event) :
  dir <> "" -> rstrip_slash dir = dir -> contains "/" name = false ->
  let dst := PyStr.path_join [dir; name] in
  dirname dst = dir /\
  (isfile sys h src = true ->
   copy_if_exists src dst false sys h
   = (Done tt, (h ++ [ MakeDirs dir;
                       Stdout ("Copying file " ++ src ++ " → " ++ dst);
                       CopyFile src dst ])%list)) /\
  (isfile sys h src = false ->
   copy_if_exists src dst false sys h
   = (Done tt, (h ++ [ Stdout ("[warning] missing file " ++ src ++ ", skipping copy") ])%list)).
Proof.
  intros Hne Hd Hn dst. pose proof (@dirname_join dir name Hne Hd Hn) as E. fold dst in E.
  split; [exact E|]. split; intros Hf.
  - unfold copy_if_exists, seq, ask, makedirs, emit. rewrite Hf, E.
    destruct dir; [congruence|]. cbn [PyStr.is_empty].
    now rewrite <- !app_assoc.
  - unfold copy_if_exists, seq, ask, emit. now rewrite Hf.
Qed.

Lemma copy_if_exists_creates_parent_witness :
  copy_if_exists "mesh_visualizations/mesh_with_corners.png"
    (PyStr.path_join ["../Result/brake/Visualizaztion"; "VisPoseEstimation.png"]) false
    (obliging "mesh_visualizations/mesh_with_corners.png") []
  = (Done tt,
     [ MakeDirs "../Result/brake/Visualizaztion";
       Stdout ("Copying file mesh_visualizations/mesh_with_corners.png → "
               ++ PyStr.path_join ["../Result/brake/Visualizaztion"; "VisPoseEstimation.png"]);
       CopyFile "mesh_visualizations/mesh_with_corners.png"
         (PyStr.path_join ["../Result/brake/Visualizaztion"; "VisPoseEstimation.png"]) ]).
Proof.
  refine (proj1 (proj2 (@copy_if_exists_creates_parent
            "mesh_visualizations/mesh_with_corners.png"
            "../Result/brake/Visualizaztion" "VisPoseEstimation.png"
            (obliging "mesh_visualizations/mesh_with_corners.png") [] _ _ _)) _).
  - discriminate.
  - reflexivity.
  - reflexivity.
  - reflexivity.
Defined.

(** *** The template step of the FoundationPose driver *)

Lemma novel_values (argv : list string) (args : namespace) :
  parse_args FoundationPoseMain.parser argv = Done args ->
  get args "novel" = VBool false \/ exists s, get args "novel" = VStr s.
Proof.
  apply (@stored_text FoundationPoseMain.parser "novel"
           (fun v => v = VBool false \/ exists s, v = VStr s)).
  - reflexivity.
  - intros s. right. now exists s.
  - left. reflexivity.
Qed.

Lemma template_sources (argv : list string) (args : namespace) :
  parse_args FoundationPoseMain.parser argv = Done args ->
  exists raw_models object_type,
    get args "raw_models" = VStr raw_models /\
    get args "object_type" = VStr object_type.
Proof.
  intros H.
  pose proof (@stored_text FoundationPoseMain.parser "raw_models"
                (fun v => exists s, v = VStr s) eq_refl
                (fun s => ex_intro _ s eq_refl) argv args
                (ex_intro _ _ eq_refl) H) as [rm Hrm].
  pose proof (@stored_text FoundationPoseMain.parser "object_type"
                (fun v => exists s, v = VStr s) eq_refl
                (fun s => ex_intro _ s eq_refl) argv args
                (ex_intro _ _ eq_refl) H) as [ot Hot].
  now exists rm, ot.
Qed.

Lemma templates_copied (args : namespace) (dst cad_ply raw_models object_type : string)
    (sys : os) (file dir : string -> bool) (h : list event) :
  is_True (get args "test_all_primary") = true ->
  get args "novel" = VBool false ->
  get args "raw_models" = VStr raw_models ->
  get args "object_type" = VStr object_type ->
  static sys file dir ->
  FoundationPoseMain.templates args dst cad_ply sys h
  = (Done tt, (h ++ copied_templates dir raw_models object_type dst)%list).
Proof.
  intros Hp Hn Hrm Hot [_ Hdir].
  unfold FoundationPoseMain.templates, FoundationPoseMain.copy_tree,
    GigaPosePipeline.text, copied_templates.
  rewrite Hp, Hn, Hrm, Hot. cbn [truthy]. unfold seq, emit, ret, ask.
  rewrite Hdir.
  destruct (dir (Session.os_path_join raw_models [object_type; "segmentation_templates"]));
    cbn [negb]; rewrite <- !app_assoc; reflexivity.
Qed.

(** X29. After parsing, [args.novel] of the FoundationPose driver is
    [False] (the default) or the string given with [--novel]; the
    template step tests its truth value, and every string but the empty
    one is true.  So in a primary run the step starts [blenderproc] as
    soon as [--novel] is given a value that is not empty, also for
    [--novel False].  Without the option it starts no renderer: it
    copies the folder of the precomputed templates of the object if the
    folder exists, and prints a warning if it does not. *)
Theorem novel_renders_for_any_text
    (argv : list string) (args : namespace) (dst cad_ply : string) :
  parse_args FoundationPoseMain.parser argv = Done args ->
  (get args "novel" = VBool false \/ exists s, get args "novel" = VStr s) /\
  (is_True (get args "test_all_primary") = true ->
   (get args "novel" = VBool false ->
    confined (fun e => negb (renders e))
             (FoundationPoseMain.templates args dst cad_ply) /\
    exists raw_models object_type,
      get args "raw_models" = VStr raw_models /\
      get args "object_type" = VStr object_type /\
      forall sys file dir h,
        static sys file dir ->
        FoundationPoseMain.templates args dst cad_ply sys h
        = (Done tt, (h ++ copied_templates dir raw_models object_type dst)%list)) /\
   (forall s,
       get args "novel" = VStr s -> s <> "" ->
       FoundationPoseMain.templates args dst cad_ply
       = (emit (Stdout (line_feed ++ "==> Step 3: Render templates via BlenderProc")) ;;
          FoundationPosePipeline.run
            (FoundationPoseMain.render_command dst cad_ply) (Some "Render")))).
Proof.
  intros Hparse. split; [now apply novel_values in Hparse|].
  intros Hprimary. split.
  - intros Hn. split.
    + unfold FoundationPoseMain.templates. rewrite Hprimary, Hn. cbn [truthy].
      unfold FoundationPoseMain.copy_tree, GigaPosePipeline.text. within.
    + destruct (template_sources _ Hparse) as (rm & ot & Hrm & Hot).
      exists rm, ot. split; [exact Hrm|]. split; [exact Hot|].
      intros sys file dir h Hst. now apply templates_copied with (file := file).
  - intros s Hs Hne. unfold FoundationPoseMain.templates.
    rewrite Hprimary, Hs. cbn [truthy].
    destruct s; [congruence | reflexivity].
Qed.

Lemma novel_renders_for_any_text_witness :
  (exists args,
      parse_args FoundationPoseMain.parser ["--novel"; "False"] = Done args /\
      FoundationPoseMain.templates args "./Data/Example" "./Data/Example/obj_000001.ply"
      = (emit (Stdout (line_feed ++ "==> Step 3: Render templates via BlenderProc")) ;;
         FoundationPosePipeline.run
           (FoundationPoseMain.render_command "./Data/Example"
              "./Data/Example/obj_000001.ply") (Some "Render"))) /\
  (exists args,
      parse_args FoundationPoseMain.parser ["--object_type"; "brake"] = Done args /\
      confined (fun e => negb (renders e))
        (FoundationPoseMain.templates args "./Data/Example"
           "./Data/Example/obj_000001.ply")).
Proof.
  split.
  - eexists. split; [vm_compute; reflexivity|].
    refine (proj2 (proj2 (@novel_renders_for_any_text ["--novel"; "False"] _
                            "./Data/Example" "./Data/Example/obj_000001.ply" _) _)
              "False" _ _).
    + vm_compute. reflexivity.
    + reflexivity.
    + reflexivity.
    + discriminate.
  - eexists. split; [vm_compute; reflexivity|].
    refine (proj1 (proj1 (proj2 (@novel_renders_for_any_text ["--object_type"; "brake"] _
                                   "./Data/Example" "./Data/Example/obj_000001.ply" _) _)
                     _)).
    + vm_compute. reflexivity.
    + reflexivity.
    + reflexivity.
Defined.

End DriverMore.

(** * The timings the drivers record *)

Section TimingsFacts.

Import Argparse Timings.
Local Open Scope string_scope.
Local Open Scope R_scope.

(** *** Strings and their ends *)

Lemma length_append (p q : string) :
  String.length (p ++ q) = (String.length p + String.length q)%nat.
Proof. induction p as [|c p IH]; [reflexivity|]. cbn [append String.length]. now rewrite IH. Qed.

Lemma substring_prefix (p q : string) :
  String.substring 0 (String.length p) (p ++ q) = p.
Proof. induction p as [|c p IH]; [now destruct q|]. cbn [append String.length String.substring]. now rewrite IH. Qed.

Lemma but_last_six_start (p : string) : but_last_six (p ++ "_start") = p.
Proof.
  unfold but_last_six. rewrite length_append. cbn [String.length].
  replace (String.length p + 6 - 6)%nat with (String.length p) by lia.
  apply substring_prefix.
Qed.

Lemma endswith_spec (suffix s : string) :
  endswith suffix s = true <-> exists p, s = p ++ suffix.
Proof.
  induction s as [|c s IH].
  - cbn [endswith]. rewrite orb_false_r. split.
    + intros H. apply String.eqb_eq in H. subst. now exists "".
    + intros [p H]. destruct p; cbn [append] in H; [subst; apply String.eqb_refl | discriminate].
  - cbn [endswith]. split.
    + intros H. apply orb_prop in H. destruct H as [H|H].
      * apply String.eqb_eq in H. subst. now exists "".
      * apply IH in H. destruct H as [p ->]. now exists (String c p).
    + intros [p H]. destruct p as [|a p]; cbn [append] in H.
      * subst. now rewrite String.eqb_refl.
      * injection H as -> ->. apply orb_true_intro. right. apply IH. now exists p.
Qed.

Lemma endswith_append (suffix p : string) : endswith suffix (p ++ suffix) = true.
Proof. apply endswith_spec. now exists p. Qed.

Lemma endswith_start (key : string) :
  endswith "_start" key = true -> key = but_last_six key ++ "_start".
Proof.
  intros H. apply endswith_spec in H. destruct H as [p ->].
  now rewrite but_last_six_start.
Qed.

Lemma append_inv_tail (p q t : string) : p ++ t = q ++ t -> p = q.
Proof.
  revert q. induction p as [|a p IH]; intros [|b q] H; cbn [append] in H.
  - reflexivity.
  - apply (f_equal String.length) in H. cbn [String.length] in H.
    rewrite length_append in H. lia.
  - apply (f_equal String.length) in H. cbn [String.length] in H.
    rewrite length_append in H. lia.
  - injection H as -> H. now rewrite (IH _ H).
Qed.

Lemma last_character (p q : string) (a b : ascii) :
  p ++ String a "" = q ++ String b "" -> a = b.
Proof.
  revert q. induction p as [|c p IH]; intros [|e q] H; cbn [append] in H.
  - now injection H.
  - injection H as _ H. destruct q; discriminate.
  - injection H as _ H. destruct p; discriminate.
  - injection H as _ H. now apply IH in H.
Qed.

Lemma start_is_no_end (p q : string) : p ++ "_start" <> q ++ "_end".
Proof.
  intros H.
  change "_start" with ("_star" ++ "t") in H. change "_end" with ("_en" ++ "d") in H.
  rewrite <- !string_app_assoc in H. apply last_character in H. discriminate.
Qed.

Lemma endswith_start_end (p : string) : endswith "_start" (p ++ "_end") = false.
Proof.
  destruct (endswith "_start" (p ++ "_end")) eqn:E; [|reflexivity].
  apply endswith_spec in E. destruct E as [q E]. symmetry in E.
  now apply start_is_no_end in E.
Qed.

Lemma not_own_suffix (p t : string) : t <> "" -> p <> p ++ t.
Proof.
  intros Ht H. apply (f_equal String.length) in H. rewrite length_append in H.
  destruct t; [congruence | cbn [String.length] in H; lia].
Qed.

(** *** Dicts *)

Lemma dict_get_setitem (d : dict) (a k : string) (v : json) :
  Py.dict_get (setitem d a v) k = if String.eqb a k then Some v else Py.dict_get d k.
Proof.
  induction d as [|[k0 x] d IH]; cbn [setitem Py.dict_get].
  - destruct (String.eqb a k); reflexivity.
  - destruct (String.eqb_spec k0 a) as [-> | Hk]; cbn [Py.dict_get].
    + destruct (String.eqb a k); reflexivity.
    + destruct (String.eqb_spec k0 k) as [-> | Hk'].
      * destruct (String.eqb_spec a k) as [-> | _]; [congruence | reflexivity].
      * apply IH.
Qed.

Lemma dict_get_filter (d : dict) (a k : string) :
  Py.dict_get (filter (fun kv => negb (String.eqb (fst kv) a)) d) k
  = if String.eqb a k then None else Py.dict_get d k.
Proof.
  induction d as [|[k0 x] d IH]; cbn [filter Py.dict_get fst].
  - destruct (String.eqb a k); reflexivity.
  - destruct (String.eqb_spec k0 a) as [-> | Hk]; cbn [negb Py.dict_get].
    + rewrite IH. destruct (String.eqb a k); reflexivity.
    + rewrite IH. destruct (String.eqb_spec k0 k) as [-> | Hk'].
      * destruct (String.eqb_spec a k) as [-> | _]; [congruence | reflexivity].
      * reflexivity.
Qed.

Lemma delitem_present (d : dict) (a : string) :
  Py.dict_get d a <> None ->
  exists d', delitem d a = Ok d' /\
             forall k, Py.dict_get d' k = if String.eqb a k then None else Py.dict_get d k.
Proof.
  intros H. unfold delitem. destruct (Py.dict_get d a); [|congruence].
  eexists. split; [reflexivity|]. intros k. apply dict_get_filter.
Qed.

Lemma delitem_absent (d : dict) (a : string) :
  Py.dict_get d a = None -> delitem d a = Raise KeyError.
Proof. intros H. unfold delitem. now rewrite H. Qed.

Lemma in_keys (d : dict) (k : string) :
  In k (map fst d) <-> Py.dict_get d k <> None.
Proof.
  induction d as [|[k0 x] d IH]; cbn [map fst In Py.dict_get].
  - split; [contradiction | congruence].
  - destruct (String.eqb_spec k0 k) as [-> | Hk].
    + split; [discriminate | now left].
    + rewrite <- IH. split; [intros [H|H]; [congruence | exact H] | now right].
Qed.

(** *** The loop that turns starts and ends into durations *)

Lemma settled_skip (d : dict) (done : list string) (key : string) (c : dict) :
  endswith "_start" key = false ->
  settled d done c -> settled d (done ++ [key]) c.
Proof.
  intros Hkey (S1 & S2 & S3).
  assert (Hin : forall step, In (step ++ "_start") (done ++ [key]) ->
                             In (step ++ "_start") done).
  { intros step H. apply in_app_or in H. destruct H as [H | [H | []]]; [exact H|].
    subst key. now rewrite endswith_append in Hkey. }
  repeat split.
  - intros step b e H. apply S1. now apply Hin.
  - apply S2. now apply Hin.
  - apply S2. now apply Hin.
  - intros key' Hn Hfree. apply S3.
    + intros H. apply Hn. apply in_or_app. now left.
    + intros step H. apply Hfree. apply in_or_app. now left.
Qed.

Lemma settled_step (d : dict) (done : list string) (step : string) (c : dict) :
  paired d ->
  Py.dict_get d (step ++ "_start") <> None ->
  ~ In (step ++ "_start") done ->
  (forall k, In k done -> Py.dict_get d k <> None) ->
  settled d done c ->
  exists b e c',
    Py.dict_get c (step ++ "_end") = Some (JNum e) /\
    Py.dict_get c (step ++ "_start") = Some (JNum b) /\
    (do c1 <- delitem (setitem c step (JNum (e - b))) (step ++ "_start");
     delitem c1 (step ++ "_end")) = Ok c' /\
    settled d (done ++ [step ++ "_start"]) c'.
Proof.
  intros Hp Hkey Hnew Hdone (S1 & S2 & S3).
  destruct (Hp step Hkey) as ((b & e & Hb & He) & Hplain1 & Hplain2).
  assert (Hother : forall step', In (step' ++ "_start") done -> step' <> step).
  { intros step' H ->. now apply Hnew. }
  assert (Hplain : forall step', Py.dict_get d (step' ++ "_start") <> None ->
                     forall q, step' <> q ++ "_start" /\ step' <> q ++ "_end").
  { intros step' H q. destruct (Hp step' H) as (_ & P1 & P2).
    split; intros ->; now rewrite endswith_append in *. }
  assert (Hend : Py.dict_get c (step ++ "_end") = Some (JNum e)).
  { rewrite S3; [exact He | |].
    - intros H. apply Hdone in H. now destruct (proj2 (Hplain _ H step)).
    - intros step' H. split.
      + intros E. symmetry in E. now apply start_is_no_end in E.
      + intros E. apply append_inv_tail in E. now apply (Hother step' H). }
  assert (Hstart : Py.dict_get c (step ++ "_start") = Some (JNum b)).
  { rewrite S3; [exact Hb | |].
    - intros H. apply Hdone in H. now destruct (proj1 (Hplain _ H step)).
    - intros step' H. split.
      + intros E. apply append_inv_tail in E. now apply (Hother step' H).
      + now apply start_is_no_end. }
  set (c0 := setitem c step (JNum (e - b))).
  assert (H0 : forall k, Py.dict_get c0 k
                         = if String.eqb step k then Some (JNum (e - b)) else Py.dict_get c k).
  { intros k. apply dict_get_setitem. }
  destruct (@delitem_present c0 (step ++ "_start")) as (c1 & E1 & H1).
  { rewrite H0, Hstart. destruct (String.eqb step (step ++ "_start")); discriminate. }
  destruct (@delitem_present c1 (step ++ "_end")) as (c2 & E2 & H2).
  { rewrite H1, H0, Hend.
    destruct (String.eqb_spec (step ++ "_start") (step ++ "_end")) as [E|_].
    - now apply start_is_no_end in E.
    - destruct (String.eqb step (step ++ "_end")); discriminate. }
  assert (Hc2 : forall k, Py.dict_get c2 k
                  = if String.eqb (step ++ "_end") k then None
                    else if String.eqb (step ++ "_start") k then None
                    else if String.eqb step k then Some (JNum (e - b))
                    else Py.dict_get c k).
  { intros k. now rewrite H2, H1, H0. }
  exists b, e, c2. split; [exact Hend|]. split; [exact Hstart|].
  split; [fold c0; rewrite E1; cbn [bind]; exact E2|].
  repeat split.
  - (* durations *)
    intros step' b' e' Hin Hb' He'. rewrite Hc2.
    assert (Hk : Py.dict_get d (step' ++ "_start") <> None) by congruence.
    destruct (String.eqb_spec (step ++ "_end") step') as [E|_];
      [symmetry in E; now destruct (proj2 (Hplain _ Hk step))|].
    destruct (String.eqb_spec (step ++ "_start") step') as [E|_];
      [symmetry in E; now destruct (proj1 (Hplain _ Hk step))|].
    apply in_app_or in Hin. destruct Hin as [Hin | [Hin | []]].
    + destruct (String.eqb_spec step step') as [E|_]; [now elim (Hother step' Hin)|].
      now apply S1.
    + apply append_inv_tail in Hin. subst step'. rewrite String.eqb_refl.
      congruence.
  - (* starts are gone *)
    rewrite Hc2. apply in_app_or in H. destruct H as [H | [H | []]].
    + destruct (String.eqb (step ++ "_end") (step0 ++ "_start")); [reflexivity|].
      destruct (String.eqb (step ++ "_start") (step0 ++ "_start")); [reflexivity|].
      destruct (String.eqb_spec step (step0 ++ "_start")) as [E|_].
      * rewrite E in Hplain1. now rewrite endswith_append in Hplain1.
      * apply S2. exact H.
    + apply append_inv_tail in H. subst step0. rewrite String.eqb_refl.
      now destruct (String.eqb (step ++ "_end") (step ++ "_start")).
  - (* ends are gone *)
    rewrite Hc2. apply in_app_or in H. destruct H as [H | [H | []]].
    + destruct (String.eqb (step ++ "_end") (step0 ++ "_end")); [reflexivity|].
      destruct (String.eqb (step ++ "_start") (step0 ++ "_end")); [reflexivity|].
      destruct (String.eqb_spec step (step0 ++ "_end")) as [E|_].
      * rewrite E in Hplain2. now rewrite endswith_append in Hplain2.
      * apply S2. exact H.
    + apply append_inv_tail in H. subst step0. now rewrite String.eqb_refl.
  - (* the other keys *)
    intros key Hn Hfree. rewrite Hc2.
    assert (Hlast : In (step ++ "_start") (done ++ [step ++ "_start"])).
    { apply in_or_app. right. now left. }
    destruct (Hfree step Hlast) as [F1 F2].
    destruct (String.eqb_spec (step ++ "_end") key) as [E|_]; [congruence|].
    destruct (String.eqb_spec (step ++ "_start") key) as [E|_]; [congruence|].
    destruct (String.eqb_spec step key) as [E|_]; [subst key; now elim Hn|].
    apply S3.
    + intros H. apply Hn. apply in_or_app. now left.
    + intros step' H. apply Hfree. apply in_or_app. now left.
Qed.

Lemma collapse_keys_settles (d : dict) :
  paired d ->
  forall (keys done : list string) (c : dict),
    NoDup (done ++ keys) ->
    (forall k, In k (done ++ keys) -> Py.dict_get d k <> None) ->
    settled d done c ->
    exists d', collapse_keys keys c = Ok d' /\ settled d (done ++ keys) d'.
Proof.
  intros Hp. induction keys as [|key keys IH]; intros done c Hnd Hin Hs.
  - exists c. rewrite app_nil_r. split; [reflexivity | exact Hs].
  - assert (Hnd' : NoDup ((done ++ [key]) ++ keys)) by now rewrite <- app_assoc.
    assert (Hin' : forall k, In k ((done ++ [key]) ++ keys) -> Py.dict_get d k <> None).
    { intros k H. apply Hin. now rewrite <- app_assoc in H. }
    cbn [collapse_keys]. destruct (endswith "_start" key) eqn:Ekey.
    + pose proof (endswith_start _ Ekey) as Hkey.
      set (step := but_last_six key) in *.
      assert (Hnew : ~ In (step ++ "_start") done).
      { rewrite <- Hkey. apply NoDup_remove_2 in Hnd. intros H. apply Hnd.
        apply in_or_app. now left. }
      assert (Hd : Py.dict_get d (step ++ "_start") <> None).
      { rewrite <- Hkey. apply Hin. apply in_or_app. right. now left. }
      assert (Hdone : forall k, In k done -> Py.dict_get d k <> None).
      { intros k H. apply Hin. apply in_or_app. now left. }
      destruct (@settled_step d done step c Hp Hd Hnew Hdone Hs) as (b & e & c' & He & Hb & Hc' & Hs').
      unfold Py.dict_item. rewrite He, Hb. cbn [bind sub Py.number].
      destruct (delitem (setitem c step (JNum (e - b))) (step ++ "_start")) as [c1|] eqn:E1;
        cbn [bind] in Hc'; [|discriminate].
      cbn [bind]. rewrite Hc'. cbn [bind].
      rewrite <- Hkey in Hs'.
      destruct (IH (done ++ [key])%list c' Hnd' Hin' Hs') as (d' & Ed' & Hd').
      exists d'. split; [exact Ed'|]. now rewrite <- app_assoc in Hd'.
    + destruct (IH (done ++ [key])%list c Hnd' Hin' (@settled_skip d done key c Ekey Hs)) as (d' & Ed' & Hd').
      exists d'. split; [exact Ed'|]. now rewrite <- app_assoc in Hd'.
Qed.

Lemma collapse_keys_stops (d : dict) (pre post : list string) (key : string) :
  Forall (fun k => endswith "_start" k = false) pre ->
  endswith "_start" key = true ->
  Py.dict_get d (but_last_six key ++ "_end") = None ->
  collapse_keys (pre ++ key :: post) d = Raise KeyError.
Proof.
  intros Hpre Hkey Hend. induction Hpre as [|k pre Hk _ IH]; cbn [app collapse_keys].
  - rewrite Hkey. unfold Py.dict_item. now rewrite Hend.
  - now rewrite Hk.
Qed.

(** X18. The loop over the keys of [timings], on a dict in which every
    key [<step>_start] comes with a key [<step>_end], both holding
    numbers, and no step is itself named like a start or an end: the
    loop ends without an exception, every such pair is replaced by the
    duration [<step>] = end - start, and every other key keeps its value.
    When the first start among the keys has no end, the loop raises
    [KeyError]. *)
Theorem collapse_durations (d : dict) :
  NoDup (map fst d) ->
  (paired d ->
   exists d',
     collapse d = Ok d' /\
     (forall step b e,
         Py.dict_get d (step ++ "_start") = Some (JNum b) ->
         Py.dict_get d (step ++ "_end") = Some (JNum e) ->
         Py.dict_get d' step = Some (JNum (e - b)) /\
         Py.dict_get d' (step ++ "_start") = None /\
         Py.dict_get d' (step ++ "_end") = None) /\
     (forall key,
         Py.dict_get d (key ++ "_start") = None ->
         (forall step, Py.dict_get d (step ++ "_start") <> None ->
                       key <> step ++ "_start" /\ key <> step ++ "_end") ->
         Py.dict_get d' key = Py.dict_get d key)) /\
  (forall pre key post,
      map fst d = (pre ++ key :: post)%list ->
      Forall (fun k => endswith "_start" k = false) pre ->
      endswith "_start" key = true ->
      Py.dict_get d (but_last_six key ++ "_end") = None ->
      collapse d = Raise KeyError).
Proof.
  intros Hnd. split.
  - intros Hp.
    assert (H0 : settled d [] d).
    { repeat split; try contradiction. }
    destruct (@collapse_keys_settles d Hp (map fst d) [] d Hnd
                (fun k H => proj1 (in_keys d k) H) H0) as (d' & E & S1 & S2 & S3).
    cbn [app] in *.
    exists d'. split; [exact E|]. split.
    + intros step b e Hb He.
      assert (Hin : In (step ++ "_start") (map fst d)) by (apply in_keys; congruence).
      split; [now apply (S1 step b e) | now apply S2].
    + intros key Hk Hfree. apply S3.
      * intros H. apply in_keys in H. contradiction.
      * intros step H. apply Hfree. now apply in_keys.
  - intros pre key post E Hpre Hkey Hend. unfold collapse. rewrite E.
    now apply collapse_keys_stops.
Qed.

Lemma collapse_durations_witness :
  exists d',
    collapse [("copy_input_start", JNum 1); ("copy_input_end", JNum 3);
              ("total", JNum 9)] = Ok d' /\
    Py.dict_get d' "copy_input" = Some (JNum (3 - 1)) /\
    Py.dict_get d' "total" = Some (JNum 9).
Proof.
  destruct (proj1 (@collapse_durations
                     [("copy_input_start", JNum 1); ("copy_input_end", JNum 3);
                      ("total", JNum 9)]
                     ltac:(repeat constructor; cbn; intuition discriminate)))
    as (d' & E & Hdur & Hkeep).
  - intros step H. cbn [Py.dict_get] in *.
    destruct (String.eqb_spec "copy_input_start" (step ++ "_start")) as [E|_].
    + change "copy_input_start" with ("copy_input" ++ "_start") in E.
      apply append_inv_tail in E. subst step.
      split; [exists 1, 3; split; reflexivity | split; reflexivity].
    + destruct (String.eqb_spec "copy_input_end" (step ++ "_start")) as [E|_].
      * change "copy_input_end" with ("copy_input" ++ "_end") in E.
        symmetry in E. now apply start_is_no_end in E.
      * destruct (String.eqb_spec "total" (step ++ "_start")) as [E|_]; [|congruence].
        apply (f_equal (endswith "_start")) in E. rewrite endswith_append in E.
        discriminate.
  - exists d'. split; [exact E|]. split.
    + apply (Hdur "copy_input" 1 3); reflexivity.
    + rewrite (Hkeep "total"); [reflexivity | reflexivity |].
      intros step _. split; intros H.
      * apply (f_equal (endswith "_start")) in H. rewrite endswith_append in H.
        discriminate.
      * apply (f_equal (endswith "_end")) in H. rewrite endswith_append in H.
        discriminate.
Defined.

(** X19. The timings of a primary run (no timings are loaded, the
    default of [--test_all_primary]).  The GigaPose driver records the
    durations [copy_input], [instance_segmentation] and [pose_estimation]
    and the total; the FoundationPose driver records [copy_templates] as
    well.  In the FoundationPose driver the start of the instance
    segmentation is stamped a second time after the segmentation command
    has returned (line 226), so the duration it records runs from that
    second stamp to line 257 and leaves out the command itself. *)
Theorem primary_run_timings (g : gigapose_clock) (f : foundationpose_clock) :
  gigapose_timings (VBool true) None g
  = Ok [ ("copy_input", JNum (g204 g - g118 g));
         ("instance_segmentation", JNum (g216 g - g209 g));
         ("pose_estimation", JNum (g266 g - g232 g));
         ("total", JNum (g279 g - g114 g)) ] /\
  foundationpose_timings (VBool true) None f
  = Ok [ ("copy_input", JNum (f193 f - f170 f));
         ("copy_templates", JNum (f211 f - f196 f));
         ("instance_segmentation", JNum (f257 f - f226 f));
         ("pose_estimation", JNum (f271 f - f260 f));
         ("total", JNum (f282 f - f152 f)) ].
Proof. split; reflexivity. Qed.

(** *** Runs that are not the primary one *)

Lemma delitem_ok (d d' : dict) (a : string) :
  delitem d a = Ok d' ->
  forall k, Py.dict_get d' k = if String.eqb a k then None else Py.dict_get d k.
Proof.
  unfold delitem. destruct (Py.dict_get d a); [|discriminate].
  intros [= <-] k. apply dict_get_filter.
Qed.

(** The loop creates the key [k] only from a key [k_start]. *)
Lemma collapse_keys_absent (k : string) (keys : list string) :
  ~ In (k ++ "_start") keys ->
  forall c d',
    collapse_keys keys c = Ok d' ->
    Py.dict_get c k = None -> Py.dict_get d' k = None.
Proof.
  induction keys as [|key keys IH]; intros Hn c d' E Hk.
  - cbn [collapse_keys] in E. now injection E as <-.
  - assert (Hn' : ~ In (k ++ "_start") keys) by (intros H; apply Hn; now right).
    cbn [collapse_keys] in E. destruct (endswith "_start" key) eqn:Ekey;
      [|now apply (IH Hn' c d')].
    destruct (Py.dict_item c (but_last_six key ++ "_end")) as [stop|]; [|discriminate].
    destruct (Py.dict_item c (but_last_six key ++ "_start")) as [start|]; [|discriminate].
    cbn [bind] in E. destruct (sub stop start) as [dur|]; [|discriminate].
    cbn [bind] in E.
    destruct (delitem (setitem c (but_last_six key) dur) _) as [c1|] eqn:E1; [|discriminate].
    cbn [bind] in E. destruct (delitem c1 _) as [c2|] eqn:E2; [|discriminate].
    cbn [bind] in E. apply (IH Hn' c2 d' E).
    rewrite (@delitem_ok _ _ _ E2), (@delitem_ok _ _ _ E1), dict_get_setitem, Hk.
    destruct (String.eqb_spec (but_last_six key) k) as [Es|_].
    + elim Hn. left. rewrite <- Es. now apply endswith_start.
    + now repeat match goal with |- context [if ?b then _ else _] => destruct b end.
Qed.

Lemma collapse_absent (k : string) (d d' : dict) :
  collapse d = Ok d' ->
  Py.dict_get d k = None -> Py.dict_get d (k ++ "_start") = None ->
  Py.dict_get d' k = None.
Proof.
  intros E Hk Hs. apply (@collapse_keys_absent k (map fst d)) with (c := d); try assumption.
  intros H. apply in_keys in H. contradiction.
Qed.

Lemma of_members_keys (fields : list (string * json)) (k : string) :
  Py.dict_get fields k = None -> Py.dict_get (of_members fields) k = None.
Proof.
  unfold of_members.
  assert (G : forall acc, Py.dict_get acc k = None -> Py.dict_get fields k = None ->
                Py.dict_get (fold_left (fun d kv => setitem d (fst kv) (snd kv)) fields acc) k
                = None).
  { induction fields as [|[k0 x] fields IH]; intros acc Hacc Hf; [exact Hacc|].
    cbn [fold_left fst snd]. cbn [Py.dict_get] in Hf.
    destruct (String.eqb_spec k0 k) as [->|Hk]; [discriminate|].
    apply IH; [|exact Hf]. rewrite dict_get_setitem.
    destruct (String.eqb_spec k0 k); [contradiction | exact Hacc]. }
  intros H. now apply G.
Qed.

Lemma totals_needs (v : value) (elapsed : R) (d d' : dict) :
  is_False_or_text v = true ->
  totals v elapsed d = Ok d' ->
  Py.dict_get d "instance_segmentation" <> None /\
  Py.dict_get d "copy_templates" <> None.
Proof.
  intros Hv. unfold totals. rewrite Hv. unfold Py.dict_item.
  rewrite !dict_get_setitem. cbn [String.eqb Ascii.eqb Bool.eqb bind].
  destruct (Py.dict_get d "instance_segmentation"); [|discriminate].
  cbn [bind]. destruct (add _ _); [|discriminate]. cbn [bind].
  rewrite !dict_get_setitem. cbn [String.eqb Ascii.eqb Bool.eqb bind].
  destruct (Py.dict_get d "copy_templates"); [|discriminate].
  intros _. split; discriminate.
Qed.

Lemma secondary_is_not_primary (v : value) :
  is_False_or_text v = true -> is_True v = false.
Proof. destruct v as [|[]|]; cbn; congruence. Qed.

(** A run that is not the primary one finds the two durations it adds to
    the total only in the timings it has loaded. *)
Lemma loaded_durations (v : value) (fields : list (string * json))
    (stamped : dict -> dict) (elapsed : R) (d : dict) :
  is_False_or_text v = true ->
  (forall c k, Py.dict_get c k = None ->
               k = "instance_segmentation" \/ k = "instance_segmentation_start" \/
               k = "copy_templates" \/ k = "copy_templates_start" ->
               Py.dict_get (stamped c) k = None) ->
  (do c <- collapse (stamped (of_members fields)); totals v elapsed c) = Ok d ->
  (Py.dict_get fields "instance_segmentation" <> None \/
   Py.dict_get fields "instance_segmentation_start" <> None) /\
  (Py.dict_get fields "copy_templates" <> None \/
   Py.dict_get fields "copy_templates_start" <> None).
Proof.
  intros Hv Hstamped E.
  destruct (collapse (stamped (of_members fields))) as [c|] eqn:Ec; [|discriminate].
  cbn [bind] in E. destruct (totals_needs _ _ _ Hv E) as [Hseg Htpl].
  assert (G : forall k,
             k = "instance_segmentation" \/ k = "copy_templates" ->
             Py.dict_get c k <> None ->
             Py.dict_get fields k <> None \/ Py.dict_get fields (k ++ "_start") <> None).
  { intros k Hk Hc.
    destruct (Py.dict_get fields k) eqn:A; [left; discriminate|].
    destruct (Py.dict_get fields (k ++ "_start")) eqn:B; [right; discriminate|].
    exfalso. apply Hc. apply (@collapse_absent k _ _ Ec).
    - apply Hstamped; [now apply of_members_keys|]. destruct Hk as [-> | ->]; tauto.
    - apply Hstamped; [now apply of_members_keys|]. destruct Hk as [-> | ->]; cbn; tauto. }
  split; [apply (G "instance_segmentation") | apply (G "copy_templates")]; tauto.
Qed.

(** X20. A run with [--test_all_primary False] adds the durations
    [instance_segmentation] and [copy_templates] of the primary run to its
    total, and takes neither of them itself.  So without loaded timings
    the run raises [KeyError], in both drivers; and whenever it gets
    through, what [json.load] returned was an object holding, for each of
    the two durations, the duration or its start stamp. *)
Theorem secondary_run_needs_primary_timings
    (v : value) (g : gigapose_clock) (f : foundationpose_clock) :
  is_False_or_text v = true ->
  (gigapose_timings v None g = Raise KeyError /\
   foundationpose_timings v None f = Raise KeyError) /\
  (forall loaded d,
      gigapose_timings v (Some loaded) g = Ok d \/
      foundationpose_timings v (Some loaded) f = Ok d ->
      exists fields,
        loaded = JObj fields /\
        (Py.dict_get fields "instance_segmentation" <> None \/
         Py.dict_get fields "instance_segmentation_start" <> None) /\
        (Py.dict_get fields "copy_templates" <> None \/
         Py.dict_get fields "copy_templates_start" <> None)).
Proof.
  intros Hv. pose proof (secondary_is_not_primary v Hv) as Hp. split.
  - unfold gigapose_timings, foundationpose_timings. rewrite Hp.
    unfold totals. rewrite Hv. split; reflexivity.
  - intros loaded d H.
    assert (Hobj : exists fields, loaded = JObj fields).
    { destruct loaded; try (destruct H as [H|H]; discriminate H). now eexists. }
    destruct Hobj as [fields ->]. exists fields. split; [reflexivity|].
    unfold gigapose_timings, foundationpose_timings in H. rewrite Hp in H.
    cbn [initial as_dict bind] in H.
    destruct H as [H|H].
    + refine (@loaded_durations v fields
                (fun c => setitem (setitem (setitem (setitem c
                   "copy_input_start" (JNum (g118 g)))
                   "copy_input_end" (JNum (g204 g)))
                   "pose_estimation_start" (JNum (g232 g)))
                   "pose_estimation_end" (JNum (g266 g)))
                _ d Hv _ H).
      intros c k Hk Hcase. rewrite !dict_get_setitem.
      destruct Hcase as [-> | [-> | [-> | ->]]]; exact Hk.
    + refine (@loaded_durations v fields
                (fun c => setitem (setitem (setitem (setitem c
                   "copy_input_start" (JNum (f170 f)))
                   "copy_input_end" (JNum (f193 f)))
                   "pose_estimation_start" (JNum (f260 f)))
                   "pose_estimation_end" (JNum (f271 f)))
                _ d Hv _ H).
      intros c k Hk Hcase. rewrite !dict_get_setitem.
      destruct Hcase as [-> | [-> | [-> | ->]]]; exact Hk.
Qed.

Lemma secondary_run_needs_primary_timings_witness :
  gigapose_timings (VStr "False") None (GigaPoseClock 0 1 2 3 4 5 6 7)
  = Raise KeyError /\
  foundationpose_timings (VStr "False") None
    (FoundationPoseClock 0 1 2 3 4 5 6 7 8 9 10)
  = Raise KeyError.
Proof.
  apply (proj1 (@secondary_run_needs_primary_timings (VStr "False")
                  (GigaPoseClock 0 1 2 3 4 5 6 7)
                  (FoundationPoseClock 0 1 2 3 4 5 6 7 8 9 10) eq_refl)).
Defined.

End TimingsFacts.

(** * The session of a gateway *)

Section SessionFacts.

Import PoseMath Session.
Local Open Scope string_scope.

(** *** Properties of every action of a piece of a session *)

Lemma every_pure {A : Type} (P : action -> bool) (a : A) :
  Forall (fun x => P x = true) (fst (pure a)).
Proof. constructor. Qed.

Lemma every_lift {A : Type} (P : action -> bool) (r : result A) :
  Forall (fun x => P x = true) (fst (lift r)).
Proof. constructor. Qed.

Lemma every_perform (P : action -> bool) (a : action) :
  P a = true -> Forall (fun x => P x = true) (fst (perform a)).
Proof. intros H. cbn. now constructor. Qed.

Lemma every_and_then {A B : Type} (P : action -> bool) (m : io A) (k : A -> io B) :
  Forall (fun x => P x = true) (fst m) ->
  (forall a, Forall (fun x => P x = true) (fst (k a))) ->
  Forall (fun x => P x = true) (fst (and_then m k)).
Proof.
  intros Hm Hk. unfold and_then. destruct m as [done [a|e]]; cbn [fst] in *; [|exact Hm].
  specialize (Hk a). destruct (k a) as [more r]. cbn [fst] in *.
  apply Forall_app. now split.
Qed.

Lemma every_write_bytes (P : action -> bool) (path : string) (msg : frame) :
  (forall b, P (WriteBytes path b) = true) ->
  Forall (fun x => P x = true) (fst (write_bytes path msg)).
Proof.
  intros H. destruct msg; cbn; repeat constructor; apply H.
Qed.

Lemma every_write_text (P : action -> bool) (path : string) (v : option json) :
  (forall s, P (WriteText path s) = true) ->
  Forall (fun x => P x = true) (fst (write_text path v)).
Proof.
  intros H. destruct v as [[]|]; cbn; repeat constructor; apply H.
Qed.

(** One step of a proof that a piece of a session performs actions with
    the property [P] only. *)
Ltac each :=
  repeat first
    [ apply every_pure
    | apply every_lift
    | apply every_perform; reflexivity
    | apply every_write_bytes; intros ?; reflexivity
    | apply every_write_text; intros ?; reflexivity
    | apply every_and_then; [|intros ?]
    | match goal with
      | |- Forall _ (fst (if ?c then _ else _)) => destruct c
      | |- Forall _ (fst (match ?v with _ => _ end)) => destruct v
      end ].

Ltac staging :=
  unfold save_sam6d_raw, save_foundation_raw, save_megapose_raw, save_gt, copy_mesh.

Lemma replies_app (l1 l2 : list action) :
  replies (l1 ++ l2) = (replies l1 ++ replies l2)%list.
Proof.
  induction l1 as [|a l1 IH]; [reflexivity|].
  destruct a; cbn [app replies]; rewrite ?IH; reflexivity.
Qed.

Lemma replies_none (l : list action) :
  Forall (fun a => match a with Send _ => false | _ => true end = true) l ->
  replies l = [].
Proof.
  induction 1 as [|a l Ha _ IH]; [reflexivity|].
  destruct a; cbn [replies]; try exact IH. discriminate.
Qed.

Lemma replies_and_then {A B : Type} (m : io A) (k : A -> io B) :
  replies (fst (and_then m k))
  = (replies (fst m) ++ match snd m with
                        | Ok a => replies (fst (k a))
                        | Raise _ => []
                        end)%list.
Proof.
  unfold and_then. destruct m as [done [a|e]]; cbn [fst snd].
  - destruct (k a) as [more r]. cbn [fst]. apply replies_app.
  - now rewrite app_nil_r.
Qed.

(** Staging a request sends nothing. *)
Lemma save_sam6d_raw_silent (folder : string) (rgb depth : frame) (camK : mat3) :
  replies (fst (save_sam6d_raw folder rgb depth camK)) = [].
Proof. apply replies_none; staging; each. Qed.

Lemma save_foundation_raw_silent (with_mesh : bool) (h : host) (n : nat)
    (folder : string) (rgb depth : frame) (camK : mat3) (image_id : string)
    (object_type : option json) :
  replies (fst (save_foundation_raw with_mesh h n folder rgb depth camK image_id object_type))
  = [].
Proof. apply replies_none; staging; each. Qed.

Lemma save_megapose_raw_silent (folder : string) (rgb depth : frame) (camK : mat3) :
  replies (fst (save_megapose_raw folder rgb depth camK)) = [].
Proof. apply replies_none; staging; each. Qed.

Lemma save_gt_silent (folder : string) (gt gt_info : option json) :
  replies (fst (save_gt folder gt gt_info)) = [].
Proof. apply replies_none; staging; each. Qed.

(** One statement of [serve] further in the list of replies. *)
Ltac advance :=
  rewrite replies_and_then; cbn [lift perform pure fst snd replies app];
  try match goal with
      | |- context [match ?r with Ok _ => _ | Raise _ => _ end] =>
          destruct r; [|split; [cbn; lia | intros [|?] ? ?; discriminate]]
      end.

Lemma serve_replies (with_mesh : bool) (h : host) :
  forall (bound : nat) (frames : list frame) (n : nat),
    (List.length frames <= bound)%nat ->
    (3 * List.length (replies (fst (serve with_mesh h n frames)))
       <= List.length frames)%nat /\
    forall k pose,
      nth_error (replies (fst (serve with_mesh h n frames))) k = Some pose ->
      exists object_type scene_name,
        estimate_pose h (n + k) "../SharedData/WebsocketData/000000" "000000"
          object_type scene_name = Ok pose.
Proof.
  induction bound as [|bound IH]; intros frames n Hlen.
  - destruct frames; [|cbn in Hlen; lia]. cbn. split; [lia|]. intros [|?] ? ?; discriminate.
  - destruct frames as [|[hdr_msg|b] after_header];
      try (cbn; split; [lia | intros [|?] ? ?; discriminate]).
    cbn [serve]. do 3 advance.
    destruct after_header as [|rgb [|depth rest]];
      try (cbn; split; [lia | intros [|?] ? ?; discriminate]).
    do 4 advance.
    rewrite replies_and_then, save_sam6d_raw_silent. cbn [app].
    destruct (snd (save_sam6d_raw _ _ _ _));
      [|split; [cbn; lia | intros [|?] ? ?; discriminate]].
    rewrite replies_and_then, save_foundation_raw_silent. cbn [app].
    destruct (snd (save_foundation_raw _ _ _ _ _ _ _ _ _));
      [|split; [cbn; lia | intros [|?] ? ?; discriminate]].
    rewrite replies_and_then, save_megapose_raw_silent. cbn [app].
    destruct (snd (save_megapose_raw _ _ _ _));
      [|split; [cbn; lia | intros [|?] ? ?; discriminate]].
    do 2 advance.
    rewrite replies_and_then, save_gt_silent. cbn [app].
    destruct (snd (save_gt _ _ _));
      [|split; [cbn; lia | intros [|?] ? ?; discriminate]].
    rewrite replies_and_then. cbn [lift fst snd replies app].
    change (os_path_join EXPORT_ROOT ["000000"]) with "../SharedData/WebsocketData/000000".
    destruct (estimate_pose h n _ _ _ _) as [pose|] eqn:Epose;
      [|split; [cbn; lia | intros [|?] ? ?; discriminate]].
    rewrite replies_and_then. cbn [perform fst snd replies app].
    destruct (IH rest (S n)) as [Hcount Hfrom]; [cbn in Hlen; lia|].
    split.
    + cbn [List.length]. lia.
    + intros [|k] pose' Hk; cbn [nth_error] in Hk.
      * injection Hk as <-. rewrite Nat.add_0_r. eauto.
      * destruct (Hfrom k pose' Hk) as (ot & sn & E).
        exists ot, sn. now rewrite <- Nat.add_succ_comm.
Qed.

(** X21. A session sends at most one reply for every three messages it
    has received, and every reply it sends is what [estimate_pose]
    returned for the folder [../SharedData/WebsocketData/000000] and the
    image id [000000]: the k-th reply of the session is that of its k-th
    request, whatever the header of the request names. *)
Theorem session_replies (with_mesh : bool) (h : host) (frames : list frame) :
  (3 * List.length (replies (fst (handler with_mesh h frames)))
     <= List.length frames)%nat /\
  forall k pose,
    nth_error (replies (fst (handler with_mesh h frames))) k = Some pose ->
    exists object_type scene_name,
      estimate_pose h k "../SharedData/WebsocketData/000000" "000000"
        object_type scene_name = Ok pose.
Proof.
  unfold handler. rewrite replies_and_then. cbn [perform fst snd replies app].
  apply (@serve_replies with_mesh h (List.length frames) frames 0%nat). lia.
Qed.

Lemma session_replies_witness :
  exists object_type scene_name,
    estimate_pose
      (Host "('100.64.0.2', 50312)"
            (fun _ => Ok (JObj [("camK", JArr []); ("objectType", JStr "brake")]))
            (fun _ => Ok (Mat3 525 0 320  0 525 240  0 0 1))
            (fun _ => "0") (fun _ _ => false)
            (fun _ _ _ _ _ => Ok fallback_pose))
      0 "../SharedData/WebsocketData/000000" "000000" object_type scene_name
    = Ok fallback_pose.
Proof.
  apply (proj2 (session_replies true
                  (Host "('100.64.0.2', 50312)"
                        (fun _ => Ok (JObj [("camK", JArr []); ("objectType", JStr "brake")]))
                        (fun _ => Ok (Mat3 525 0 320  0 525 240  0 0 1))
                        (fun _ => "0") (fun _ _ => false)
                        (fun _ _ _ _ _ => Ok fallback_pose))
                  [Text "{}"; Binary []; Binary []]) 0%nat fallback_pose).
  reflexivity.
Defined.

Lemma serve_staged (with_mesh : bool) (h : host) :
  forall (bound : nat) (frames : list frame) (n : nat),
    (List.length frames <= bound)%nat ->
    Forall (fun a => staged a = true) (fst (serve with_mesh h n frames)).
Proof.
  induction bound as [|bound IH]; intros frames n Hlen.
  - destruct frames; [|cbn in Hlen; lia]. cbn. now repeat constructor.
  - destruct frames as [|[hdr_msg|b] after_header]; cbn [serve]; staging; each.
    apply IH. cbn in Hlen. lia.
Qed.

(** X22. Whatever its messages hold, a session creates directories and
    writes and copies files only under
    [../SharedData/WebsocketData/000000]: the folder does not depend on
    the request, so every request of every session is staged over the
    files of the one before it, and the [objectType] of a header selects
    the mesh that is copied, never the place it is copied to. *)
Theorem session_stays_in_folder (with_mesh : bool) (h : host) (frames : list frame) :
  Forall (fun a => staged a = true) (fst (handler with_mesh h frames)).
Proof.
  unfold handler. apply every_and_then; [now apply every_perform | intros _].
  now apply (@serve_staged with_mesh h (List.length frames)).
Qed.

(** X23. Requests that get no reply.  A header sent as bytes ends the
    session at once, without an exception; a header that is no JSON, or
    that has no [camK], ends it with the exception of [json.loads] or of
    the lookup, before anything is staged; a connection closed before
    both images have arrived ends it with nothing staged; and an image
    sent as text ends it with [TypeError], after the folders and an empty
    [SAM6D/rgb.png] have been created.  In none of these cases is
    anything sent, and the messages after the request are not read. *)
Theorem malformed_request_gets_no_reply
    (with_mesh : bool) (h : host) (hdr_msg : string) (rest : list frame) :
  let connected := Print ("[server] Client connected: " ++ remote_address h) in
  (forall b,
      handler with_mesh h (Binary b :: rest)
      = ([connected; Print "[server] expected header text, got bytes"], Ok tt)) /\
  (forall e,
      json_loads h hdr_msg = Raise e ->
      handler with_mesh h (Text hdr_msg :: rest) = ([connected], Raise e)) /\
  (forall hdr e,
      json_loads h hdr_msg = Ok hdr ->
      subscript hdr "camK" = Raise e ->
      handler with_mesh h (Text hdr_msg :: rest) = ([connected], Raise e)) /\
  (forall hdr raw camK,
      json_loads h hdr_msg = Ok hdr ->
      subscript hdr "camK" = Ok raw ->
      camK_array h raw = Ok camK ->
      (forall rgb,
          handler with_mesh h [Text hdr_msg] =
            ([connected; Print "[server] Client disconnected"], Ok tt) /\
          handler with_mesh h [Text hdr_msg; rgb] =
            ([connected; Print "[server] Client disconnected"], Ok tt)) /\
      (forall text depth,
          handler with_mesh h (Text hdr_msg :: Text text :: depth :: rest)
          = ([ connected;
               MakeDirs "../SharedData/WebsocketData/000000";
               MakeDirs "../SharedData/WebsocketData/000000/0";
               MakeDirs "../SharedData/WebsocketData/000000/0/SAM6D";
               WriteBytes "../SharedData/WebsocketData/000000/0/SAM6D/rgb.png" [] ],
             Raise TypeError))).
Proof.
  intros connected. unfold handler. repeat match goal with |- _ /\ _ => split end.
  - reflexivity.
  - intros e He. cbn [serve]. now rewrite He.
  - intros hdr e Hh He. cbn [serve]. rewrite Hh. cbn [and_then lift perform app].
    now rewrite He.
  - intros hdr raw camK Hh Hr Hc. split.
    + intros rgb. cbn [serve]. rewrite Hh. cbn [and_then lift perform app].
      rewrite Hr, Hc. split; reflexivity.
    + intros text depth. cbn [serve]. rewrite Hh. cbn [and_then lift perform app].
      rewrite Hr, Hc. cbn [and_then lift perform app].
      destruct hdr; try discriminate. reflexivity.
Qed.

Lemma malformed_request_gets_no_reply_witness :
  handler false
    (Host "('100.64.0.2', 50312)" (fun _ => Raise JSONDecodeError)
          (fun _ => Raise ValueError) (fun _ => "0") (fun _ _ => false)
          (fun _ _ _ _ _ => Ok fallback_pose))
    [Text "camK"; Binary []; Binary []]
  = ([Print "[server] Client connected: ('100.64.0.2', 50312)"], Raise JSONDecodeError).
Proof.
  apply (proj1 (proj2 (@malformed_request_gets_no_reply false
           (Host "('100.64.0.2', 50312)" (fun _ => Raise JSONDecodeError)
                 (fun _ => Raise ValueError) (fun _ => "0") (fun _ _ => false)
                 (fun _ _ _ _ _ => Ok fallback_pose))
           "camK" [Binary []; Binary []]))).
  reflexivity.
Defined.

End SessionFacts.

(** * Meshes, bounding boxes and the projection *)

Section MeshFacts.

Import Mesh.
Local Open Scope R_scope.

Lemma fold_left_Rmin_le (l : list R) (x : R) :
  fold_left Rmin l x <= x /\ forall y, In y l -> fold_left Rmin l x <= y.
Proof.
  revert x. induction l as [|a l IH]; intros x; cbn [fold_left].
  - split; [lra | contradiction].
  - destruct (IH (Rmin x a)) as [H1 H2].
    pose proof (Rmin_l x a). pose proof (Rmin_r x a).
    split; [lra|]. intros y [<- | Hy]; [lra | now apply H2].
Qed.

Lemma fold_left_Rmax_ge (l : list R) (x : R) :
  x <= fold_left Rmax l x /\ forall y, In y l -> y <= fold_left Rmax l x.
Proof.
  revert x. induction l as [|a l IH]; intros x; cbn [fold_left].
  - split; [lra | contradiction].
  - destruct (IH (Rmax x a)) as [H1 H2].
    pose proof (Rmax_l x a). pose proof (Rmax_r x a).
    split; [lra|]. intros y [<- | Hy]; [lra | now apply H2].
Qed.

Lemma np_min_le (a : list R) (m : R) :
  np_min a = Ok m -> forall y, In y a -> m <= y.
Proof.
  destruct a as [|x rest]; [discriminate|]. intros [= <-] y [<- | Hy].
  - apply (proj1 (fold_left_Rmin_le rest x)).
  - now apply (proj2 (fold_left_Rmin_le rest x)).
Qed.

Lemma np_max_ge (a : list R) (m : R) :
  np_max a = Ok m -> forall y, In y a -> y <= m.
Proof.
  destruct a as [|x rest]; [discriminate|]. intros [= <-] y [<- | Hy].
  - apply (proj1 (fold_left_Rmax_ge rest x)).
  - now apply (proj2 (fold_left_Rmax_ge rest x)).
Qed.

(** Every vertex lies between the corners [min_axis0] and [max_axis0]
    give. *)
Lemma bounds_hold (verts : list point) (mn mx : point) :
  min_axis0 verts = Ok mn -> max_axis0 verts = Ok mx ->
  forall p, In p verts ->
    px mn <= px p <= px mx /\ py mn <= py p <= py mx /\ pz mn <= pz p <= pz mx.
Proof.
  unfold min_axis0, max_axis0. intros Hmn Hmx p Hp.
  destruct (np_min (map px verts)) as [x0|] eqn:Ex0; [|discriminate].
  destruct (np_min (map py verts)) as [y0|] eqn:Ey0; [|discriminate].
  destruct (np_min (map pz verts)) as [z0|] eqn:Ez0; [|discriminate].
  destruct (np_max (map px verts)) as [x1|] eqn:Ex1; [|discriminate].
  destruct (np_max (map py verts)) as [y1|] eqn:Ey1; [|discriminate].
  destruct (np_max (map pz verts)) as [z1|] eqn:Ez1; [|discriminate].
  cbn [bind] in *. injection Hmn as <-. injection Hmx as <-. cbn [px py pz fst snd].
  pose proof (np_min_le _ Ex0 (px p) (in_map px _ _ Hp)).
  pose proof (np_min_le _ Ey0 (py p) (in_map py _ _ Hp)).
  pose proof (np_min_le _ Ez0 (pz p) (in_map pz _ _ Hp)).
  pose proof (np_max_ge _ Ex1 (px p) (in_map px _ _ Hp)).
  pose proof (np_max_ge _ Ey1 (py p) (in_map py _ _ Hp)).
  pose proof (np_max_ge _ Ez1 (pz p) (in_map pz _ _ Hp)).
  lra.
Qed.

Lemma min_axis0_empty : min_axis0 [] = Raise ValueError.
Proof. reflexivity. Qed.

Lemma square_le (a b : R) : - b <= a <= b -> a * a <= b * b.
Proof. intros H. nra. Qed.

(** X24. [compute_model_info] raises [ValueError] for a mesh without
    vertices and returns a result for every other mesh.  The sizes it
    returns are not negative, every vertex lies in the box from [min] to
    [min + size], and [diameter], the diagonal of that box, is an upper
    bound of the distance of any two vertices.  [compute_model_info_mm]
    returns the same seven numbers times 1000. *)
Theorem compute_model_info_bounds (verts : list point) :
  (verts = [] -> compute_model_info verts = Raise ValueError) /\
  (verts <> [] -> exists i, compute_model_info verts = Ok i) /\
  (forall i,
      compute_model_info verts = Ok i ->
      (verts <> [] /\ 0 <= size_x i /\ 0 <= size_y i /\ 0 <= size_z i) /\
      (forall p, In p verts ->
         min_x i <= px p <= min_x i + size_x i /\
         min_y i <= py p <= min_y i + size_y i /\
         min_z i <= pz p <= min_z i + size_z i) /\
      (forall p q, In p verts -> In q verts -> distance p q <= diameter i) /\
      compute_model_info_mm verts
      = Ok (Info (diameter i * 1000)
                 (min_x i * 1000) (min_y i * 1000) (min_z i * 1000)
                 (size_x i * 1000) (size_y i * 1000) (size_z i * 1000))).
Proof.
  split; [intros ->; reflexivity|].
  split.
  { intros Hne. destruct verts as [|p verts]; [congruence|].
    unfold compute_model_info, min_axis0, max_axis0, np_min, np_max.
    cbn [map bind]. eexists. reflexivity. }
  intros i. unfold compute_model_info, compute_model_info_mm.
  destruct (min_axis0 verts) as [mn|] eqn:Emn; [|discriminate].
  destruct (max_axis0 verts) as [mx|] eqn:Emx; [|discriminate].
  cbn [bind]. intros [= <-]. cbn [diameter min_x min_y min_z size_x size_y size_z].
  pose proof (bounds_hold verts Emn Emx) as Hb.
  cbn [px py pz fst snd] in *.
  split; [|split; [|split; [|reflexivity]]].
  - assert (Hne : verts <> []) by (intros ->; discriminate).
    split; [exact Hne|].
    destruct verts as [|p verts]; [congruence|].
    specialize (Hb p (or_introl eq_refl)). lra.
  - intros p Hp. specialize (Hb p Hp). lra.
  - intros p q Hp Hq. pose proof (Hb p Hp). pose proof (Hb q Hq).
    unfold distance, norm. cbn [px py pz fst snd].
    apply sqrt_le_1_alt.
    assert (Hx := @square_le (fst (fst p) - fst (fst q)) (fst (fst mx) - fst (fst mn))).
    assert (Hy := @square_le (snd (fst p) - snd (fst q)) (snd (fst mx) - snd (fst mn))).
    assert (Hz := @square_le (snd p - snd q) (snd mx - snd mn)).
    unfold px, py, pz in *. lra.
Qed.

Lemma compute_model_info_bounds_witness :
  (exists i, compute_model_info [(0, 0, 0); (3, 4, 0)] = Ok i) /\
  distance (0, 0, 0) (3, 4, 0) <= sqrt ((3 - 0) * (3 - 0) + (4 - 0) * (4 - 0) + (0 - 0) * (0 - 0)).
Proof.
  split.
  - apply (proj1 (proj2 (compute_model_info_bounds [(0, 0, 0); (3, 4, 0)]))).
    discriminate.
  - refine (proj1 (proj2 (proj2
              (proj2 (proj2 (compute_model_info_bounds [(0, 0, 0); (3, 4, 0)]))
                 (Info (sqrt ((3 - 0) * (3 - 0) + (4 - 0) * (4 - 0) + (0 - 0) * (0 - 0)))
                       0 0 0 (3 - 0) (4 - 0) (0 - 0)) _)))
              (0, 0, 0) (3, 4, 0) _ _).
    + unfold compute_model_info, min_axis0, max_axis0, np_min, np_max.
      cbn [map px py pz fst snd fold_left bind].
      rewrite (Rmin_left 0 3), (Rmin_left 0 4), (Rmin_left 0 0),
              (Rmax_right 0 3), (Rmax_right 0 4), (Rmax_left 0 0) by lra.
      reflexivity.
    + now left.
    + right. now left.
Defined.

(** X25. The corners [load_mesh] computes and the index pairs of
    [BOX_EDGES] fit: for every box, each of the twelve pairs joins two
    corners that agree in two coordinates and hold the two bounds of the
    box in the third, so it is an edge of the box, and no edge is listed
    twice.  The corners are those of a box that contains every vertex of
    the mesh. *)
Theorem box_edges_are_edges (mn mx : point) :
  (List.length (corners_of mn mx) = 8%nat /\
   List.length BOX_EDGES = 12%nat /\
   NoDup (map unordered BOX_EDGES)) /\
  (forall a b,
      In (a, b) BOX_EDGES ->
      exists p q,
        nth_error (corners_of mn mx) a = Some p /\
        nth_error (corners_of mn mx) b = Some q /\
        box_edge mn mx p q) /\
  (forall verts cs,
      aabb_corners verts = Ok cs ->
      exists lo hi,
        cs = corners_of lo hi /\
        forall p, In p verts ->
          px lo <= px p <= px hi /\ py lo <= py p <= py hi /\ pz lo <= pz p <= pz hi).
Proof.
  split; [|split].
  - split; [reflexivity|]. split; [reflexivity|].
    cbn [map BOX_EDGES unordered fst snd Nat.min Nat.max].
    repeat (apply NoDup_cons;
            [ cbn [In]; intros H;
              repeat (destruct H as [H|H]; [discriminate H|]); exact H | ]).
    apply NoDup_nil.
  - intros a b Hin. cbn [BOX_EDGES In] in Hin.
    repeat match goal with
           | H : _ \/ _ |- _ => destruct H as [H|H]
           | H : (_, _) = (_, _) |- _ => injection H as <- <-
           | H : False |- _ => contradiction
           end;
      (eexists; eexists; split; [reflexivity|]; split; [reflexivity|];
       unfold box_edge; cbn [px py pz fst snd]; tauto).
  - intros verts cs. unfold aabb_corners.
    destruct (min_axis0 verts) as [lo|] eqn:Elo; [|discriminate].
    destruct (max_axis0 verts) as [hi|] eqn:Ehi; [|discriminate].
    cbn [bind]. intros [= <-]. exists lo, hi. split; [reflexivity|].
    now apply bounds_hold.
Qed.

Lemma box_edges_are_edges_witness :
  exists p q,
    nth_error (corners_of (0, 0, 0) (1, 2, 3)) 3 = Some p /\
    nth_error (corners_of (0, 0, 0) (1, 2, 3)) 7 = Some q /\
    box_edge (0, 0, 0) (1, 2, 3) p q.
Proof.
  apply (proj1 (proj2 (box_edges_are_edges (0, 0, 0) (1, 2, 3))) 3%nat 7%nat).
  cbn. tauto.
Defined.

(** X26. [project_pts] is the pinhole projection.  For an intrinsics
    matrix with the last row (0, 0, 1) a point (x, y, z) with z not zero
    goes to (fx x/z + skew y/z + cx, fy y/z + cy); for every matrix, the
    image of a point does not change when the point is moved along its
    ray through the origin (scaled by a factor that is not zero); and
    there is one pixel for every point. *)
Theorem project_pts_pinhole :
  (forall fx fy cx cy skew x y z,
      z <> 0 ->
      project_pts [[fx; skew; cx]; [0; fy; cy]; [0; 0; 1]] [(x, y, z)]
      = [(fx * x / z + skew * y / z + cx, fy * y / z + cy)]) /\
  (forall k00 k01 k02 k10 k11 k12 k20 k21 k22 s x y z,
      s <> 0 ->
      k20 * x + k21 * y + k22 * z <> 0 ->
      project_pts [[k00; k01; k02]; [k10; k11; k12]; [k20; k21; k22]]
                  [(s * x, s * y, s * z)]
      = project_pts [[k00; k01; k02]; [k10; k11; k12]; [k20; k21; k22]]
                    [(x, y, z)]) /\
  (forall K pts, List.length (project_pts K pts) = List.length pts).
Proof.
  split; [|split].
  - intros fx fy cx cy skew x y z Hz.
    unfold project_pts, matmul, matvec, column, dot, eye_3_4.
    cbn [map seq combine fold_right nth fst snd px py pz].
    f_equal. f_equal; field; exact Hz.
  - intros k00 k01 k02 k10 k11 k12 k20 k21 k22 s x y z Hs Hd.
    unfold project_pts, matmul, matvec, column, dot, eye_3_4.
    cbn [map seq combine fold_right nth fst snd px py pz].
    assert (Hsd : k20 * (s * x) + (k21 * (s * y) + k22 * (s * z)) <> 0).
    { replace (k20 * (s * x) + (k21 * (s * y) + k22 * (s * z)))
        with (s * (k20 * x + k21 * y + k22 * z)) by ring.
      now apply Rmult_integral_contrapositive_currified. }
    assert (Hd' : k20 * x + (k21 * y + k22 * z) <> 0) by (intros H; apply Hd; lra).
    f_equal. f_equal; field; split; assumption.
  - intros K pts. unfold project_pts. apply length_map.
Qed.

Lemma project_pts_pinhole_witness :
  project_pts [[525; 0; 320]; [0; 525; 240]; [0; 0; 1]] [(1, 2, 4)]
  = [(525 * 1 / 4 + 0 * 2 / 4 + 320, 525 * 2 / 4 + 240)].
Proof.
  apply (proj1 project_pts_pinhole 525 525 320 240 0 1 2 4). lra.
Defined.

End MeshFacts.

(** * The targets of the BOP conversion *)

Section BopmFacts.

Import Bopm.
Local Open Scope Z_scope.

Lemma lookup_setdefault_append (d : entries) (key k : Z) (v : json) :
  lookup (setdefault_append d key v) k
  = if key =? k
    then Ok (match lookup d k with Ok l => l ++ [v] | Raise _ => [v] end)%list
    else lookup d k.
Proof.
  induction d as [|[k0 l] d IH]; cbn [setdefault_append lookup].
  - destruct (key =? k); reflexivity.
  - destruct (Z.eqb_spec k0 key) as [-> | Hk]; cbn [lookup].
    + destruct (key =? k); reflexivity.
    + destruct (Z.eqb_spec k0 k) as [-> | Hk'].
      * destruct (Z.eqb_spec key k) as [-> | _]; [congruence | reflexivity].
      * apply IH.
Qed.

(** The number of entries under a key, a missing key counting as none. *)
Lemma add_images_counts (sid : Z) (img_ids : list Z) (all : list (Z * Z)) (d : entries) :
  fst (add_images sid img_ids (all, d)) = (all ++ map (fun im => (sid, im)) img_ids)%list /\
  forall k,
    match lookup (snd (add_images sid img_ids (all, d))) k with
    | Ok l => List.length l
    | Raise _ => 0%nat
    end
    = (match lookup d k with Ok l => List.length l | Raise _ => 0%nat end
       + count_occ Z.eq_dec img_ids k)%nat.
Proof.
  unfold add_images. revert all d.
  induction img_ids as [|im img_ids IH]; intros all d; cbn [fold_left map count_occ fst snd].
  - split; [now rewrite app_nil_r | intros k; lia].
  - destruct (IH (all ++ [(sid, im)])%list (setdefault_append d im gt_placeholder))
      as [Hall Hcount].
    split; [now rewrite Hall, <- app_assoc|].
    intros k. rewrite Hcount, lookup_setdefault_append.
    destruct (Z.eq_dec im k) as [-> | Hne].
    + rewrite Z.eqb_refl. destruct (lookup d k); [rewrite length_app|]; cbn; lia.
    + apply Z.eqb_neq in Hne. rewrite Hne. lia.
Qed.

Lemma scan_counts (scenes : list scene) (all : list (Z * Z)) (d : entries) :
  let state := fold_left (fun st sc => add_images (fst sc) (snd sc) st) scenes (all, d) in
  fst state = (all ++ images scenes)%list /\
  forall k,
    match lookup (snd state) k with Ok l => List.length l | Raise _ => 0%nat end
    = (match lookup d k with Ok l => List.length l | Raise _ => 0%nat end
       + count_occ Z.eq_dec (map snd (images scenes)) k)%nat.
Proof.
  revert all d. induction scenes as [|[sid img_ids] scenes IH]; intros all d;
    cbn [fold_left images flat_map fst snd].
  - split; [now rewrite app_nil_r | intros k; cbn; lia].
  - destruct (add_images sid img_ids (all, d)) as [all1 d1] eqn:E1.
    pose proof (add_images_counts sid img_ids all d) as [Hall1 Hcount1].
    rewrite E1 in Hall1, Hcount1. cbn [fst snd] in Hall1, Hcount1.
    destruct (IH all1 d1) as [Hall Hcount]. cbn zeta in Hall, Hcount.
    split.
    + rewrite Hall, Hall1, <- app_assoc. reflexivity.
    + intros k. rewrite Hcount, Hcount1.
      fold (images scenes). rewrite map_app, count_occ_app, map_map. cbn [snd].
      rewrite map_id. lia.
Qed.

Lemma mapM_pointwise {A B : Type} (f : A -> result B) (g : A -> B) (l : list A) :
  (forall x, In x l -> f x = Ok (g x)) -> mapM f l = Ok (map g l).
Proof.
  induction l as [|a l IH]; intros H; [reflexivity|].
  cbn [mapM map]. rewrite (H a (or_introl eq_refl)). cbn [bind].
  rewrite IH; [reflexivity|]. intros x Hx. apply H. now right.
Qed.

(** X27. [test_targets] has one target for every image of every scene,
    in the order of the scenes, and never fails on a missing key.  The
    entries are collected under the number of the image alone, so the
    [inst_count] of a target is the number of scenes-and-images with that
    image number in the whole input, not in the scene of the target: two
    scenes that both hold an image 0 give two targets with
    [inst_count] 2. *)
Theorem test_targets_count_across_scenes (scenes : list scene) :
  test_targets scenes
  = Ok (map (fun image : Z * Z =>
               Target (fst image) (snd image)
                      (count_occ Z.eq_dec (map snd (images scenes)) (snd image)) 1)
            (images scenes)) /\
  forall a b,
    test_targets [(a, [0]); (b, [0])] = Ok [Target a 0 2 1; Target b 0 2 1].
Proof.
  split; [|reflexivity].
  unfold test_targets. destruct (scan scenes) as [all gt] eqn:E.
  pose proof (scan_counts scenes [] []) as H. cbv zeta in H.
  change (fold_left (fun st sc => add_images (fst sc) (snd sc) st) scenes ([], []))
    with (scan scenes) in H.
  rewrite E in H. destruct H as [Hall Hcount].
  cbn [fst snd app lookup] in Hall, Hcount. subst all.
  apply mapM_pointwise. intros image Hin.
  specialize (Hcount (snd image)). cbn [Nat.add] in Hcount.
  destruct (lookup gt (snd image)) as [found|] eqn:Ef.
  - cbn [bind]. now rewrite Hcount.
  - exfalso. symmetry in Hcount.
    apply (proj2 (count_occ_not_In Z.eq_dec _ _)) in Hcount.
    apply Hcount. now apply in_map.
Qed.

End BopmFacts.

(** * From the display script to the reply of the OVE6D gateway *)

Section PredictionsFacts.

Import PyStr Reference Predictions.
Local Open Scope string_scope.

Lemma split_join_tokens (toks : list string) :
  Forall is_token toks -> split (join " " toks) = toks.
Proof.
  induction 1 as [|t toks Ht Htoks IH]; [reflexivity|].
  destruct toks as [|u toks].
  - now apply split_token.
  - change (join " " (t :: u :: toks)) with (t ++ String " " (join " " (u :: toks))).
    rewrite split_token_space by (assumption || reflexivity).
    now rewrite IH.
Qed.

Lemma Forall2_tokens {A : Type} (fmt : A -> string) (vals : list A) (read : list Q) :
  Forall2 (fun v q => is_token (fmt v) /\ py_float (fmt v) = Some q) vals read ->
  Forall is_token (map fmt vals) /\
  Forall2 (fun tok q => py_float tok = Some q) (map fmt vals) read.
Proof.
  induction 1 as [|v q vals read [Ht Hq] _ [IH1 IH2]]; cbn [map].
  - split; constructor.
  - split; constructor; assumption.
Qed.



End PredictionsFacts.

(** * The scenes of the BOP conversion *)

Section ScenesFacts.

Import PyStr Reference Scenes.
Local Open Scope string_scope.
Local Open Scope Z_scope.

Lemma insert_permutation (x : Z * string) (l : list (Z * string)) :
  Permutation (insert x l) (x :: l).
Proof.
  induction l as [|y l IH]; cbn [insert]; [apply Permutation_refl|].
  destruct (fst x <=? fst y); [apply Permutation_refl|].
  apply perm_trans with (y :: x :: l); [now apply perm_skip | apply perm_swap].
Qed.

Lemma sorted_permutation (l : list (Z * string)) : Permutation (sorted l) l.
Proof.
  induction l as [|x l IH]; [apply perm_nil|]. cbn [sorted fold_right].
  apply perm_trans with (x :: sorted l); [apply insert_permutation | now apply perm_skip].
Qed.

Lemma insert_sorted (x : Z * string) (l : list (Z * string)) :
  Sorted (fun a b => fst a <= fst b) l ->
  Sorted (fun a b => fst a <= fst b) (insert x l).
Proof.
  induction 1 as [|y l Hl IH Hy]; cbn [insert].
  - repeat constructor.
  - destruct (Z.leb_spec (fst x) (fst y)).
    + constructor; [now constructor | now constructor].
    + constructor; [exact IH|].
      destruct l as [|z l]; cbn [insert].
      * constructor. lia.
      * destruct (fst x <=? fst z); constructor; [lia|]. now inversion Hy.
Qed.

Lemma sorted_is_sorted (l : list (Z * string)) :
  Sorted (fun a b => fst a <= fst b) (sorted l).
Proof.
  induction l as [|x l IH]; [constructor|]. now apply insert_sorted.
Qed.

Lemma keyed_names (names : list string) (keyed : list (Z * string)) :
  mapM (fun name => match py_int name with
                    | Some k => Ok (k, name)
                    | None => Raise ValueError
                    end) names = Ok keyed ->
  map snd keyed = names /\ Forall (fun kn => py_int (snd kn) = Some (fst kn)) keyed.
Proof.
  revert keyed. induction names as [|name names IH]; intros keyed H; cbn [mapM] in H.
  - injection H as <-. split; constructor.
  - destruct (py_int name) as [k|] eqn:Ek; [|discriminate]. cbn [bind] in H.
    destruct (mapM _ names) as [rest|]; [|discriminate]. cbn [bind] in H.
    injection H as <-. destruct (IH rest eq_refl) as [Hn Hk].
    split; [cbn [map snd]; now rewrite Hn | now constructor].
Qed.

Lemma keyed_fails (names : list string) (name : string) :
  In name names -> py_int name = None ->
  mapM (fun name => match py_int name with
                    | Some k => Ok (k, name)
                    | None => Raise ValueError
                    end) names = Raise ValueError.
Proof.
  induction names as [|n names IH]; intros Hin Hbad; [contradiction|].
  cbn [mapM]. destruct (py_int n) as [k|] eqn:Ek; [|reflexivity]. cbn [bind].
  destruct Hin as [-> | Hin]; [congruence|]. now rewrite IH.
Qed.

Lemma keyed_succeeds (names : list string) (numbers : list Z) :
  Forall2 (fun name k => py_int name = Some k) names numbers ->
  mapM (fun name => match py_int name with
                    | Some k => Ok (k, name)
                    | None => Raise ValueError
                    end) names = Ok (combine numbers names).
Proof.
  induction 1 as [|name k names numbers Hk _ IH]; [reflexivity|].
  cbn [mapM combine]. rewrite Hk. cbn [bind]. now rewrite IH.
Qed.

Lemma read_int_made_of (f : ascii -> bool) (s : string) :
  (forall c d, digit_of c = Some d -> f c = true) ->
  f "_"%char = true ->
  forall (acc : Z) (after_digit : bool) (k : Z),
    read_int acc after_digit s = Some k -> made_of f s.
Proof.
  intros Hdigit Hunder. induction s as [|c s IH]; intros acc after_digit k H.
  - apply made_of_empty.
  - cbn [read_int] in H. destruct (digit_of c) as [d|] eqn:Ed.
    + apply made_of_cons; [now apply (Hdigit c d) | now apply (IH _ _ _ H)].
    + destruct (Ascii.eqb_spec c "_"%char) as [-> | Hc]; [|discriminate].
      destruct after_digit; [|discriminate]. cbn [andb] in H.
      apply made_of_cons; [exact Hunder | now apply (IH _ _ _ H)].
Qed.

(** A name with a character that is none of an integer does not
    convert. *)
Lemma py_int_bad_character (s : string) (c : ascii) :
  In c (list_ascii_of_string s) -> int_character c = false -> py_int s = None.
Proof.
  intros Hin Hc. destruct (py_int s) as [k|] eqn:E; [|reflexivity].
  set (f := fun c => (isspace c
                      || match digit_of c with Some _ => true | None => false end
                      || among "+-_" c)%bool).
  assert (Hs : forall c, isspace c = true -> f c = true)
    by (intros d Hd; unfold f; now rewrite Hd).
  assert (Hd : forall c d, digit_of c = Some d -> f c = true)
    by (intros a d Ha; unfold f; rewrite Ha; now rewrite orb_true_r).
  assert (H : made_of f s).
  { unfold py_int in E. apply (@strip_made_of f Hs).
    destruct (read_sign (strip s)) as [negative body] eqn:Es.
    apply (@read_sign_made_of f eq_refl eq_refl _ _ _ Es).
    destruct (read_int 0 false body) as [v|] eqn:Er; [|discriminate].
    now apply (@read_int_made_of f body Hd eq_refl 0%Z false v). }
  specialize (H c Hin). unfold int_character in Hc. unfold f in H.
  rewrite H in Hc. discriminate.
Qed.

Lemma read_int_digits (ds : list nat) :
  Forall (fun d => (d < 10)%nat) ds ->
  forall (acc : Z) (after_digit : bool),
    ds <> [] \/ after_digit = true ->
    read_int acc after_digit (digits_text ds)
    = Some (acc * 10 ^ Z.of_nat (List.length ds) + digits_value ds).
Proof.
  induction 1 as [|d ds Hd _ IH]; intros acc after_digit Hne.
  - destruct Hne as [Hne | ->]; [congruence|]. cbn. f_equal. ring.
  - cbn [digits_text read_int]. rewrite (digit_of_digit Hd).
    rewrite IH by now right. f_equal. apply digits_value_length.
Qed.

(** The name made of the decimal digits [ds] denotes their number. *)
Lemma py_int_digits (ds : list nat) :
  ds <> [] -> Forall (fun d => (d < 10)%nat) ds ->
  py_int (digits_text ds) = Some (digits_value ds).
Proof.
  intros Hne Hds. unfold py_int.
  rewrite (strip_plain (digits_text_made_of Hds)).
  assert (Hs : read_sign (digits_text ds) = (false, digits_text ds)).
  { apply (@read_sign_text None). destruct ds as [|d ds]; [congruence|].
    cbn [digits_text]. inversion Hds; subst.
    now destruct (digit_is_plain H1) as (_ & ? & ?). }
  rewrite Hs, (@read_int_digits ds Hds 0 false) by now left.
  f_equal; ring.
Qed.



End ScenesFacts.
